(** * The synthetic trading series of the dashboard chart

    A shallow embedding of [generateTradingSeries] and of the helpers it
    calls ([clamp], [shiftDays], [toISODate], [FletcherVol], [gaussian]),
    all of them in the chart component, together with the parts of the
    JavaScript run time they rely on: numbers, [Math], [Date], string
    padding and the ambient random source.

    Conventions of the embedding.
    - A JavaScript number is a rational ([Q]): every finite double is one.
      Arithmetic is exact, so the rounding of IEEE-754 operations is
      idealised away; comparisons are the ones of [Q]. Bounds are stated
      closed where rounding can reach them. Where an amount is turned
      into text, the digits shown depend on the rounding of the quotient
      before them: there it is rounded to the nearest double
      ([JSText.round53]).
    - [Math.random()] reads the next element of a tape of draws, which is
      threaded through the computation; a computation that asks for more
      draws than the tape holds has no result on that tape.
    - A [Date] is its time value in milliseconds since the epoch, or no
      value for an invalid date; local time is UTC shifted by the offset
      of the time zone, which may change from one time to another. *)

From Stdlib Require Import ZArith QArith Qround Qminmax Qabs.
From Stdlib Require Import List Bool String Ascii DecimalString Sorted FinFun.
From Stdlib Require Import Lia Lqa.
Import ListNotations.

Set Implicit Arguments.

(** ** Numbers and [Math] *)

Module JS.

#[local] Open Scope Q_scope.

Definition Qlt_bool (x y : Q) : bool := negb (Qle_bool y x).

(** [Math.floor], [Math.round] (halves go up), [Math.max], [Math.min]
    and [Math.sign] on finite numbers. *)
Definition Math_floor (x : Q) : Q := inject_Z (Qfloor x).
Definition Math_round (x : Q) : Q := inject_Z (Qfloor (x + (1 # 2))).
Definition Math_max (x y : Q) : Q := if Qle_bool x y then y else x.
Definition Math_min (x y : Q) : Q := if Qle_bool x y then x else y.
Definition Math_sign (x : Q) : Q :=
  if Qlt_bool 0 x then 1 else if Qlt_bool x 0 then -1 else 0.

(** The transcendental part of [Math] is an interface: the generator
    only passes its results on. *)
Class MathLib : Type := {
  Math_log : Q -> Q;
  Math_sqrt : Q -> Q;
  Math_cos : Q -> Q;
  Math_PI : Q
}.

(** ** Strings *)

#[local] Open Scope string_scope.

(** [String(n)] and template interpolation of a number: the decimal
    numeral of an integer, [NaN] for no value. *)
Definition Number_toString (n : option Z) : string :=
  match n with
  | Some z => NilZero.string_of_int (Z.to_int z)
  | None => "NaN"
  end.

(** The first [n] characters of [rest] followed by [fill] repeated. *)
Fixpoint cycle_take (n : nat) (fill rest : string) : string :=
  match n with
  | O => ""
  | S k =>
      match rest with
      | String c r => String c (cycle_take k fill r)
      | EmptyString =>
          match fill with
          | String c r => String c (cycle_take k fill r)
          | EmptyString => ""
          end
      end
  end.

(** [s.padStart(targetLength, fill)]. *)
Definition padStart (s : string) (targetLength : nat) (fill : string) : string :=
  if (targetLength <=? String.length s)%nat then s
  else cycle_take (targetLength - String.length s) fill fill ++ s.

End JS.

(** ** [Date]: the time functions of ECMAScript *)

Module JSDate.

#[local] Open Scope Z_scope.

Definition msPerDay : Z := 86400000.

Definition Day (t : Z) : Z := t / msPerDay.
Definition TimeWithinDay (t : Z) : Z := t mod msPerDay.

Definition DaysInYear (y : Z) : Z :=
  if negb (y mod 4 =? 0) then 365
  else if negb (y mod 100 =? 0) then 366
  else if negb (y mod 400 =? 0) then 365
  else 366.

Definition DayFromYear (y : Z) : Z :=
  365 * (y - 1970) + (y - 1969) / 4 - (y - 1901) / 100 + (y - 1601) / 400.

Definition TimeFromYear (y : Z) : Z := msPerDay * DayFromYear y.

(** [YearFromTime t] is specified as the largest [y] with
    [TimeFromYear y <= t]; it is computed from an estimate that is off
    by at most one year (see [YearFromTime_spec]). *)
Definition YearFromTime (t : Z) : Z :=
  let d := Day t in
  let y0 := 1970 + (400 * d) / 146097 in
  if d <? DayFromYear y0 then y0 - 1
  else if DayFromYear (y0 + 1) <=? d then y0 + 1
  else y0.

Definition InLeapYear (t : Z) : Z :=
  if DaysInYear (YearFromTime t) =? 366 then 1 else 0.

Definition DayWithinYear (t : Z) : Z := Day t - DayFromYear (YearFromTime t).

(** Day within the year on which month [m] (0 = January) begins. *)
Definition monthStart (m leap : Z) : Z :=
  match m with
  | 0 => 0
  | 1 => 31
  | 2 => 59 + leap
  | 3 => 90 + leap
  | 4 => 120 + leap
  | 5 => 151 + leap
  | 6 => 181 + leap
  | 7 => 212 + leap
  | 8 => 243 + leap
  | 9 => 273 + leap
  | 10 => 304 + leap
  | _ => 334 + leap
  end.

Definition MonthFromTime (t : Z) : Z :=
  let d := DayWithinYear t in
  let l := InLeapYear t in
  if d <? 31 then 0
  else if d <? 59 + l then 1
  else if d <? 90 + l then 2
  else if d <? 120 + l then 3
  else if d <? 151 + l then 4
  else if d <? 181 + l then 5
  else if d <? 212 + l then 6
  else if d <? 243 + l then 7
  else if d <? 273 + l then 8
  else if d <? 304 + l then 9
  else if d <? 334 + l then 10
  else 11.

Definition DateFromTime (t : Z) : Z :=
  DayWithinYear t - monthStart (MonthFromTime t) (InLeapYear t) + 1.

(** [MakeDay year month date]: the day number of the first of the month,
    plus [date - 1]. *)
Definition MakeDay (year month date : Z) : Z :=
  let ym := year + month / 12 in
  let mn := month mod 12 in
  let leap := if DaysInYear ym =? 366 then 1 else 0 in
  DayFromYear ym + monthStart mn leap + date - 1.

Definition MakeDate (day time : Z) : Z := day * msPerDay + time.

(** [TimeClip]: time values beyond 8.64e15 ms are not dates. *)
Definition TimeClip (time : Z) : option Z :=
  if 8640000000000000 <? Z.abs time then None else Some time.

(** A [Date] object: its time value, [None] for an invalid date. *)
Definition Date : Type := option Z.

(** The time zone of the run time, as ECMAScript's [LocalTZA(t, isUTC)]:
    the offset of local time from UTC in milliseconds, at the UTC time [t]
    when [isUTC] holds and for the local time [t] otherwise. *)
Definition Zone : Type := Z -> bool -> Z.

(** A zone that never changes its offset. *)
Definition fixed_zone (offset : Z) : Zone := fun _ _ => offset.

(** A zone whose offset changes once, at the UTC time [change], from
    [before] to [after]. A local time that the change skips or repeats is
    taken with the offset before the change, as ECMAScript asks. *)
Definition one_change (change before after : Z) : Zone :=
  fun t isUTC =>
    if isUTC then (if t <? change then before else after)
    else (if t <? change + Z.max before after then before else after).

Section LocalZone.

Variable LocalTZA : Zone.

Definition LocalTime (t : Z) : Z := t + LocalTZA t true.
Definition UTC (t : Z) : Z := t - LocalTZA t false.




Definition getFullYear (d : Date) : option Z :=
  option_map (fun t => YearFromTime (LocalTime t)) d.
Definition getMonth (d : Date) : option Z :=
  option_map (fun t => MonthFromTime (LocalTime t)) d.
Definition getDate (d : Date) : option Z :=
  option_map (fun t => DateFromTime (LocalTime t)) d.

(** [d.setDate(dt)], as the new time value of [d]. *)
Definition setDate (d : Date) (dt : option Z) : Date :=
  match d, dt with
  | Some t0, Some dt =>
      let t := LocalTime t0 in
      let newDate :=
        MakeDate (MakeDay (YearFromTime t) (MonthFromTime t) dt) (TimeWithinDay t) in
      TimeClip (UTC newDate)
  | _, _ => None
  end.



End LocalZone.

(** Number addition where an operand may be [NaN]. *)
Definition num_add (a b : option Z) : option Z :=
  match a, b with
  | Some x, Some y => Some (x + y)
  | _, _ => None
  end.

End JSDate.

(** ** The random source *)

Module Rand.

#[local] Open Scope Q_scope.

(** A computation that draws from [Math.random()]: it reads a prefix of
    the tape of draws and hands the rest on, or finds the tape too
    short. *)
Definition Rand (A : Type) : Type := list Q -> option (A * list Q).

Definition ret {A} (a : A) : Rand A := fun t => Some (a, t).

Definition bind {A B} (m : Rand A) (k : A -> Rand B) : Rand B :=
  fun t =>
    match m t with
    | Some (a, t') => k a t'
    | None => None
    end.

(** [Math.random()]. *)
Definition random : Rand Q :=
  fun t =>
    match t with
    | u :: t' => Some (u, t')
    | [] => None
    end.

(** The draws a random source [f] hands out first. *)
Definition prefix (f : nat -> Q) (n : nat) : list Q := map f (seq 0 n).

(** What [Math.random()] promises of each draw. *)
Definition unit_draw (u : Q) : Prop := 0 <= u /\ u < 1.

Definition nonzero_count (t : list Q) : nat :=
  List.length (filter (fun u => negb (Qeq_bool u 0)) t).

(** A tape all of whose draws are ones [Math.random()] can return. *)
Definition valid (t : list Q) : Prop := Forall unit_draw t.

Definition unit_draw_b (u : Q) : bool := Qle_bool 0 u && JS.Qlt_bool u 1.

(** A random source that keeps returning draws other than zero. *)
Definition fair (f : nat -> Q) : Prop :=
  forall n, exists m, (n <= m)%nat /\ ~ f m == 0.

(** [needs m k]: [m] has a result on every tape with [k] draws that
    are not zero, and uses up at most [k] of them. *)
Definition needs {A} (m : Rand A) (k : nat) : Prop :=
  forall t, (k <= nonzero_count t)%nat ->
    exists a r, m t = Some (a, r) /\ (nonzero_count t <= nonzero_count r + k)%nat.

(** [framed m]: more tape does not change a result of [m]. *)
Definition framed {A} (m : Rand A) : Prop :=
  forall t a r e, m t = Some (a, r) -> m (t ++ e) = Some (a, r ++ e).

(** [reads m]: a result of [m] leaves a suffix of the tape. *)
Definition reads {A} (m : Rand A) : Prop :=
  forall t a r, m t = Some (a, r) -> exists c, t = c ++ r.

End Rand.

Declare Scope rand_scope.
Delimit Scope rand_scope with rand.
Notation "x <- m ;; k" := (Rand.bind m (fun x => k))
  (at level 61, m at next level, right associativity) : rand_scope.
Notation "'pure' a" := (Rand.ret a) (at level 10) : rand_scope.

(** ** The chart component *)

Module Chart.

Import JS JSDate Rand.
#[local] Open Scope Q_scope.
#[local] Open Scope rand_scope.

Definition clamp (n min max : Q) : Q := Math_max min (Math_min max n).

Section Component.

Context {M : MathLib}.
Variable LocalTZA : Zone.

Definition shiftDays (date : Date) (days : Z) : Date :=
  let d := date in
  setDate LocalTZA d (num_add (getDate LocalTZA d) (Some days)).

Definition toISODate (d : Date) : string :=
  let yyyy := getFullYear LocalTZA d in
  let mm := padStart (Number_toString (num_add (getMonth LocalTZA d) (Some 1%Z))) 2 "0" in
  let dd := padStart (Number_toString (getDate LocalTZA d)) 2 "0" in
  (Number_toString yyyy ++ "-" ++ mm ++ "-" ++ dd)%string.

Definition FletcherVol (min max : Q) : Rand Q :=
  u <- random ;; pure (min + u * (max - min)).

(** [let u = 0; while (u === 0) u = Math.random()]: the first draw
    that is not zero. *)
Fixpoint redraw_while_zero (t : list Q) : option (Q * list Q) :=
  match t with
  | [] => None
  | u :: t' => if Qeq_bool u 0 then redraw_while_zero t' else Some (u, t')
  end.

Definition gaussian (mean std : Q) : Rand Q :=
  u <- redraw_while_zero ;;
  v <- redraw_while_zero ;;
  let z := Math_sqrt (-2 * Math_log u) * Math_cos (2 * Math_PI * v) in
  pure (mean + z * std).

Record SeriesPoint : Type := {
  date : string;
  totalBalance : Q;
  activeUsers : Q
}.

(** What [generateTradingSeries] fixes before its loop. *)
Record Seed : Type := {
  startBalance : Q;
  baseUsers : Q;
  drift : Q;
  vol0 : Q;
  anchor : Q;
  startDate : Date
}.

(** The variables the loop updates. *)
Record Running : Type := {
  vol : Q;
  balance : Q;
  users : Q
}.

Definition seed (now : Date) (days : Z) : Rand Seed :=
  r1 <- random ;;
  r2 <- random ;;
  let startBalance :=
    (300000000 + r1 * 900000000) * (if Qlt_bool 0.5 r2 then 1 else 0.9) in
  r3 <- random ;;
  let baseUsers := Math_floor (40 + r3 * 160) in
  r4 <- random ;;
  let drift := (r4 - 0.45) * 0.0012 in
  vol <- FletcherVol 0.004 0.014 ;;
  r5 <- random ;;
  let anchor := startBalance * (0.98 + r5 * 0.05) in
  let referenceDate := now in
  let startDate := shiftDays referenceDate (- (days - 1)) in
  pure {| startBalance := startBalance; baseUsers := baseUsers; drift := drift;
          vol0 := vol; anchor := anchor; startDate := startDate |}.

Definition vol_step (vol : Q) : Rand Q :=
  r <- random ;;
  if Qlt_bool r 0.18 then
    f <- random ;; pure (clamp (vol * (0.85 + f * 0.7)) 0.003 0.03)
  else pure vol.

Definition shock_draw : Rand Q :=
  r <- random ;;
  if Qlt_bool r 0.12 then
    s <- random ;;
    m <- random ;;
    pure ((if Qlt_bool 0.5 s then 1 else -1) * (0.008 + m * 0.02))
  else pure 0.

Definition user_shock (shock : Q) : Rand Q :=
  if negb (Qeq_bool shock 0) then
    r <- random ;; pure (Math_sign shock * (1 + r * 2))
  else pure 0.

(** One turn of the loop, for index [i]. *)
Definition loop_body (p : Seed) (i : Z) (s : Running) : Rand (Running * SeriesPoint) :=
  let date := shiftDays (startDate p) i in
  vol <- vol_step (vol s) ;;
  shock <- shock_draw ;;
  noise <- gaussian 0 vol ;;
  let dailyReturn := drift p + noise + shock in
  let deviation := (balance s - anchor p) / anchor p in
  let dailyReturn := dailyReturn + - deviation * 0.08 in
  let balance := Math_max 0 (balance s * (1 + dailyReturn)) in
  userShock <- user_shock shock ;;
  r <- random ;;
  let activeUsers :=
    clamp (Math_round (users s + (r - 0.5) * 6 + userShock))
          (Math_max 5 (Math_round (baseUsers p * 0.6)))
          (Math_round (baseUsers p * 1.4)) in
  pure ({| vol := vol; balance := balance; users := activeUsers |},
        {| date := toISODate date;
           totalBalance := Math_round balance;
           activeUsers := activeUsers |}).

(** [for (let i = 0; i < days; i++)]: [n] turns are left, the next one
    has index [i]. Each turn is recorded with the variables it leaves. *)
Fixpoint loop (p : Seed) (n : nat) (i : Z) (s : Running)
  : Rand (list (Running * SeriesPoint)) :=
  match n with
  | O => pure []
  | S n' =>
      sp <- loop_body p i s ;;
      rest <- loop p n' (i + 1)%Z (fst sp) ;;
      pure (sp :: rest)
  end.

Definition generateTrace (now : Date) (days : Z)
  : Rand (Seed * list (Running * SeriesPoint)) :=
  p <- seed now days ;;
  let s0 := {| vol := vol0 p; balance := startBalance p; users := baseUsers p |} in
  tr <- loop p (Z.to_nat days) 0%Z s0 ;;
  pure (p, tr).

Definition generateTradingSeries (now : Date) (days : Z) : Rand (list SeriesPoint) :=
  ptr <- generateTrace now days ;;
  pure (map snd (snd ptr)).

(** The dates [generateTradingSeries now days] gives its points. *)
Definition series_dates (now : Date) (days : Z) : list string :=
  map (fun k => toISODate (shiftDays (shiftDays now (- (days - 1))) (Z.of_nat k)))
      (seq 0 (Z.to_nat days)).

End Component.

End Chart.

(** ** The balance update as the algorithm description words it *)

Module Described.

#[local] Open Scope Q_scope.


(** Step 1, for a volatility [v]: it stays, or it is rescaled by a
    factor in [[0.85, 1.55]] and clamped to [[0.003, 0.03]]. *)
Definition vol_moves (v v' : Q) : Prop :=
  v' = v \/
  exists f, 0.85 <= f /\ f <= 1.55 /\
            v' == Qmax 0.003 (Qmin 0.03 (v * f)).

(** [chain R x l]: each element of [x :: l] is related to the next. *)
Fixpoint chain {A} (R : A -> A -> Prop) (x : A) (l : list A) : Prop :=
  match l with
  | [] => True
  | y :: l' => R x y /\ chain R y l'
  end.

(** The range the volatility is clamped to. *)
Definition vol_in_range (v : Q) : Prop := 0.003 <= v /\ v <= 0.03.

End Described.

(** ** Calendar dates and their ISO 8601 form *)

Module Calendar.

#[local] Open Scope Z_scope.

(** A date of the Gregorian calendar: year, month (1 to 12), day. *)
Definition civil : Type := (Z * Z * Z)%type.

Definition is_leap (y : Z) : bool :=
  (y mod 4 =? 0) && (negb (y mod 100 =? 0) || (y mod 400 =? 0)).

Definition days_in_month (y m : Z) : Z :=
  match m with
  | 2 => if is_leap y then 29 else 28
  | 4 | 6 | 9 | 11 => 30
  | _ => 31
  end.

Definition valid_civil (c : civil) : Prop :=
  let '(y, m, d) := c in 1 <= m <= 12 /\ 1 <= d <= days_in_month y m.

Definition valid_civil_b (c : civil) : bool :=
  let '(y, m, d) := c in
  (1 <=? m) && (m <=? 12) && (1 <=? d) && (d <=? days_in_month y m).

(** The calendar day after [c]. *)
Definition next_day (c : civil) : civil :=
  let '(y, m, d) := c in
  if d <? days_in_month y m then (y, m, d + 1)
  else if m <? 12 then (y, m + 1, 1)
  else (y + 1, 1, 1).

(** Earlier in the calendar. *)
Definition civil_lt (c c' : civil) : Prop :=
  let '(y, m, d) := c in
  let '(y', m', d') := c' in
  y < y' \/ (y = y' /\ (m < m' \/ (m = m' /\ d < d'))).

(** The value of a decimal digit, from its character code. *)
Definition digit_of_ascii (c : ascii) : option Z :=
  let code := Z.of_N (N_of_ascii c) in
  if (48 <=? code) && (code <=? 57) then Some (code - 48) else None.

(** Reads exactly [n] decimal digits off the front of [s]. *)
Fixpoint digits (n : nat) (acc : Z) (s : string) : option (Z * string) :=
  match n with
  | O => Some (acc, s)
  | S k =>
      match s with
      | String c s' =>
          match digit_of_ascii c with
          | Some v => digits k (10 * acc + v) s'
          | None => None
          end
      | EmptyString => None
      end
  end.

Definition dash (s : string) : option string :=
  match s with
  | String "-"%char s' => Some s'
  | _ => None
  end.

(** The date that a string of the form [YYYY-MM-DD] denotes: four digits,
    a dash, two digits, a dash, two digits and nothing more, naming a day
    of the calendar. *)
Definition parse_iso (s : string) : option civil :=
  match digits 4 0 s with
  | Some (y, s1) =>
      match dash s1 with
      | Some s2 =>
          match digits 2 0 s2 with
          | Some (m, s3) =>
              match dash s3 with
              | Some s4 =>
                  match digits 2 0 s4 with
                  | Some (d, EmptyString) =>
                      if valid_civil_b (y, m, d) then Some (y, m, d) else None
                  | _ => None
                  end
              | None => None
              end
          | None => None
          end
      | None => None
      end
  | None => None
  end.

(** Each date is followed by the next calendar day. *)
Fixpoint contiguous (cs : list civil) : Prop :=
  match cs with
  | c :: ((c' :: _) as rest) => c' = next_day c /\ contiguous rest
  | _ => True
  end.

(** What is asked of the dates of a series: they are ISO 8601 dates of
    contiguous calendar days, each later than the ones before it, no
    string occurs twice, and the last one is [today]. *)
Definition contiguous_iso_dates (today : string) (dates : list string) : Prop :=
  exists cs,
    map parse_iso dates = map Some cs /\
    contiguous cs /\
    StronglySorted civil_lt cs /\
    NoDup dates /\
    exists earlier, dates = earlier ++ [today].

(** The calendar date of a time value. *)
Definition civil_of_time (t : Z) : civil :=
  (JSDate.YearFromTime t, JSDate.MonthFromTime t + 1, JSDate.DateFromTime t).

(** [f] holds of the [n] integers from [lo] on. *)
Fixpoint range_check (f : Z -> bool) (lo : Z) (n : nat) : bool :=
  match n with
  | O => true
  | S k => f lo && range_check f (lo + 1) k
  end.

(** Reading back what [toISODate] writes for a year, and for a month or
    a day. *)
Definition year_reads_back (y : Z) : bool :=
  match digits 4 0 (JS.Number_toString (Some y)) with
  | Some (v, EmptyString) => v =? y
  | _ => false
  end.

Definition padded_reads_back (n : Z) : bool :=
  match digits 2 0 (JS.padStart (JS.Number_toString (Some n)) 2 "0") with
  | Some (v, EmptyString) => v =? n
  | _ => false
  end.

End Calendar.

(** ** The polling effect of the data table *)

(** The effect of [DataTableClient], run by hand on a clock of
    milliseconds: [setInterval] calls its callback every period from the
    moment it is set until it is cleared, [fetch] starts a request at
    once, a request in flight settles whenever its reply arrives, and
    [abort] rejects every request still in flight with an [AbortError],
    which [load] swallows. *)
Module Polling.

#[local] Open Scope Z_scope.

(** What [fetchJson] may come back with: the body of the reply, or an
    error thrown on the way (by [fetch], by the check of the status or by
    [res.json()]) with its name and its message. *)
Inductive Reply : Type :=
| Json (success : bool) (data : list Z)
| Error (name : string) (message : option string).

Definition AbortError : Reply := Error "AbortError" None.

Record World : Type := {
  clock : Z;                      (* the time, in ms *)
  mounted : bool;                 (* [let mounted] *)
  aborted : bool;                 (* [controller.signal.aborted] *)
  timer : option Z;               (* when [t] fires next, while it is set *)
  issued : list (Z * string);     (* the fetches started: time and URL *)
  inflight : list Z;              (* requests not settled, by starting time *)
  settled : list Z;               (* requests whose reply [load] went through *)
  cancelled : list Z;             (* requests rejected with [AbortError] *)
  requests : list Z;              (* the state [requests] *)
  toasts : list string            (* the errors shown *)
}.

Definition period : Z := 30000.

(** What happens while the effect is in place: time passes, or the
    request started at [id] settles with a reply. *)
Inductive Event : Type :=
| Wait (ms : Z)
| Arrive (id : Z) (r : Reply).

(** The time that passes during a run of events. *)
Fixpoint elapsed (es : list Event) : Z :=
  match es with
  | [] => 0
  | Wait ms :: es' => Z.max 0 ms + elapsed es'
  | Arrive _ _ :: es' => elapsed es'
  end.

Section Effect.

Variable apiBase : string.
Variable initialRequests : list Z.

Definition url : string := (apiBase ++ "/api/user/table")%string.

(** [load()] up to its [await]: the request is started with the signal of
    the controller; with the signal aborted already, it is rejected on the
    spot. *)
Definition load (w : World) : World :=
  if aborted w then
    {| clock := clock w; mounted := mounted w; aborted := aborted w;
       timer := timer w; issued := issued w; inflight := inflight w;
       settled := settled w; cancelled := clock w :: cancelled w;
       requests := requests w; toasts := toasts w |}
  else
    {| clock := clock w; mounted := mounted w; aborted := aborted w;
       timer := timer w; issued := issued w ++ [(clock w, url)];
       inflight := clock w :: inflight w;
       settled := settled w; cancelled := cancelled w;
       requests := requests w; toasts := toasts w |}.

(** The body of the effect, run at time [t0]: [load()], then
    [setInterval(load, 30_000)]. *)
Definition effect (t0 : Z) : World :=
  let w := load {| clock := t0; mounted := true; aborted := false; timer := None;
                   issued := []; inflight := []; settled := []; cancelled := [];
                   requests := initialRequests; toasts := [] |} in
  {| clock := clock w; mounted := mounted w; aborted := aborted w;
     timer := Some (t0 + period); issued := issued w; inflight := inflight w;
     settled := settled w; cancelled := cancelled w;
     requests := requests w; toasts := toasts w |}.

(** The rest of [load] once the request started at [id] settles: the
    reply is put into the state while the component is mounted; an
    [AbortError] is passed over; any other error is shown. *)
Definition settle (id : Z) (r : Reply) (w : World) : World :=
  if existsb (Z.eqb id) (inflight w) then
    let left := filter (fun i => negb (Z.eqb id i)) (inflight w) in
    match r with
    | Json success data =>
        {| clock := clock w; mounted := mounted w; aborted := aborted w;
           timer := timer w; issued := issued w; inflight := left;
           settled := id :: settled w; cancelled := cancelled w;
           requests := if mounted w then (if success then data else []) else requests w;
           toasts := toasts w |}
    | Error name message =>
        if String.eqb name "AbortError" then
          {| clock := clock w; mounted := mounted w; aborted := aborted w;
             timer := timer w; issued := issued w; inflight := left;
             settled := settled w; cancelled := id :: cancelled w;
             requests := requests w; toasts := toasts w |}
        else
          {| clock := clock w; mounted := mounted w; aborted := aborted w;
             timer := timer w; issued := issued w; inflight := left;
             settled := id :: settled w; cancelled := cancelled w;
             requests := requests w;
             toasts := toasts w ++ [match message with
                                    | Some m => m
                                    | None => "Failed to refresh trading requests"%string
                                    end] |}
    end
  else w.

(** The function the effect returns, run on unmount and before the effect
    runs again: [mounted = false; controller.abort(); clearInterval(t)].
    The abort rejects every request in flight with an [AbortError]. *)
Definition cleanup (w : World) : World :=
  fold_left (fun w' id => settle id AbortError w') (inflight w)
    {| clock := clock w; mounted := false; aborted := true; timer := None;
       issued := issued w; inflight := inflight w;
       settled := settled w; cancelled := cancelled w;
       requests := requests w; toasts := toasts w |}.

(** The timer fires: [load] is called and the next call is one period on. *)
Definition fire (w : World) : World :=
  match timer w with
  | Some at_ =>
      load {| clock := at_; mounted := mounted w; aborted := aborted w;
              timer := Some (at_ + period); issued := issued w;
              inflight := inflight w; settled := settled w;
              cancelled := cancelled w;
              requests := requests w; toasts := toasts w |}
  | None => w
  end.

(** Lets the timer fire [n] times at most, as long as it is due by [T]. *)
Fixpoint fires (n : nat) (T : Z) (w : World) : World :=
  match n with
  | O => w
  | S n' =>
      match timer w with
      | Some at_ => if at_ <=? T then fires n' T (fire w) else w
      | None => w
      end
  end.

(** The world at time [T], every firing of the timer due by then done. *)
Definition run_until (T : Z) (w : World) : World :=
  match timer w with
  | Some at_ => fires (Z.to_nat ((T - at_ + period) / period)) T w
  | None => w
  end.

(** [ms] milliseconds pass. *)
Definition advance (ms : Z) (w : World) : World :=
  let T := clock w + Z.max 0 ms in
  let w' := run_until T w in
  {| clock := T; mounted := mounted w'; aborted := aborted w';
     timer := timer w'; issued := issued w'; inflight := inflight w';
     settled := settled w'; cancelled := cancelled w';
     requests := requests w'; toasts := toasts w' |}.

Definition step (w : World) (e : Event) : World :=
  match e with
  | Wait ms => advance ms w
  | Arrive id r => settle id r w
  end.

(** The world after a run of events. *)
Definition exec (es : list Event) (w : World) : World := fold_left step es w.

End Effect.

(** The effect is in place since [t0] and has started [n] fetches: its
    timer is set for the next one, the fetches so far went out one period
    apart, and each of them is in flight or has settled. *)
Definition polling (apiBase : string) (t0 : Z) (n : nat) (w : World) : Prop :=
  mounted w = true /\ aborted w = false /\
  timer w = Some (t0 + period * Z.of_nat n) /\
  issued w = map (fun k => (t0 + period * Z.of_nat k, url apiBase)) (seq 0 n) /\
  (forall id, In id (map fst (issued w)) ->
              In id (inflight w) \/ In id (settled w) \/ In id (cancelled w)).

(** The effect has started its [n] fetches on time: the last one is due
    and the next one is not yet. *)
Definition on_time (apiBase : string) (t0 : Z) (n : nat) (w : World) : Prop :=
  polling apiBase t0 n w /\
  (1 <= n)%nat /\
  t0 + period * (Z.of_nat n - 1) <= clock w < t0 + period * Z.of_nat n.

End Polling.

(** ** What the chart shows of a series *)

(** The values [ChartAreaInteractive] derives from its state before it
    renders: the number of days of the range chosen, and the change
    between the last two points of the series. *)
Module ChartView.

Import JS Chart.
#[local] Open Scope Q_scope.

Inductive TimeRange : Type := range_3d | range_5d | range_7d.

Definition days (timeRange : TimeRange) : Z :=
  match timeRange with
  | range_3d => 3
  | range_5d => 5
  | range_7d => 7
  end%Z.

(** [chartData[chartData.length - k]], which is [undefined] when there is
    no such index. *)
Definition from_end (chartData : list SeriesPoint) (k : nat) : option SeriesPoint :=
  if (k <=? List.length chartData)%nat
  then nth_error chartData (List.length chartData - k)
  else None.

Definition latest (chartData : list SeriesPoint) : option SeriesPoint :=
  from_end chartData 1.

Definition prev (chartData : list SeriesPoint) : option SeriesPoint :=
  from_end chartData 2.

Definition delta (chartData : list SeriesPoint) : Q :=
  match latest chartData, prev chartData with
  | Some l, Some p => totalBalance l - totalBalance p
  | _, _ => 0
  end.

Definition deltaPct (chartData : list SeriesPoint) : Q :=
  match latest chartData, prev chartData with
  | Some l, Some p =>
      if Qlt_bool 0 (totalBalance p)
      then (delta chartData / totalBalance p) * 100
      else 0
  | _, _ => 0
  end.

End ChartView.

(** ** The summary cards *)

(** The mock statistics of [SectionCards]: what [jitterGroup] and
    [jitterTPM] make of the previous state on every tick of its timer. *)
Module Cards.

Import JS Rand.
#[local] Open Scope Q_scope.
#[local] Open Scope rand_scope.

Definition clamp (n min max : Q) : Q := Math_max min (Math_min max n).

Inductive BotGroupKey : Type := key_mm | key_tf | key_nt.

Record GroupStats : Type := {
  activeBots : Q;
  totalBots : Q;
  pnlToday : Q;
  winRate : Q;
  maxDrawdown : Q;
  fillRate : Q;
  change24h : Q;
  health : Q
}.

Record UiStats : Type := {
  mm : GroupStats;
  tf : GroupStats;
  nt : GroupStats;
  tradesPerMin : Q;
  tpmChange : Q
}.

Definition makeInitial : UiStats :=
  {| mm := {| totalBots := 15; activeBots := 14; pnlToday := 3250000;
              winRate := 57.8; maxDrawdown := 1.9; fillRate := 92.5;
              change24h := 6.4; health := 88 |};
     tf := {| totalBots := 8; activeBots := 7; pnlToday := 5800000;
              winRate := 61.2; maxDrawdown := 4.6; fillRate := 84.0;
              change24h := 9.1; health := 82 |};
     nt := {| totalBots := 8; activeBots := 8; pnlToday := -1450000;
              winRate := 47.9; maxDrawdown := 6.8; fillRate := 73.5;
              change24h := -3.2; health := 67 |};
     tradesPerMin := 128;
     tpmChange := 4.8 |}.

Definition jitterGroup (s : GroupStats) (key : BotGroupKey) : Rand GroupStats :=
  r <- random ;;
  let pnlJitter :=
    match key with
    | key_mm => (r - 0.5) * 180000
    | key_tf => (r - 0.45) * 320000
    | key_nt => (r - 0.55) * 420000
    end in
  r <- random ;;
  let winJitter :=
    match key with
    | key_mm => (r - 0.5) * 0.25
    | key_tf => (r - 0.5) * 0.35
    | key_nt => (r - 0.5) * 0.5
    end in
  r <- random ;;
  let ddJitter :=
    match key with
    | key_mm => (r - 0.5) * 0.08
    | key_tf => (r - 0.5) * 0.16
    | key_nt => (r - 0.5) * 0.22
    end in
  r <- random ;;
  let fillJitter :=
    match key with
    | key_mm => (r - 0.5) * 0.6
    | key_tf => (r - 0.5) * 0.9
    | key_nt => (r - 0.5) * 1.2
    end in
  r <- random ;;
  let changeJitter := (r - 0.5) * 0.35 in
  r <- random ;;
  activeBots <-
    (if Qlt_bool r 0.06 then
       r' <- random ;;
       pure (clamp (activeBots s + (if Qlt_bool 0.5 r' then 1 else -1))
                   (Math_max 1 (totalBots s - 2))
                   (totalBots s))
     else pure (activeBots s)) ;;
  let pnlToday := pnlToday s + pnlJitter in
  let winRate := clamp (winRate s + winJitter) 35 80 in
  let maxDrawdown := clamp (maxDrawdown s + ddJitter) 0.6 14 in
  let fillRate := clamp (fillRate s + fillJitter) 45 99 in
  let change24h := clamp (change24h s + changeJitter) (-25) 25 in
  let health :=
    clamp (Math_round (fillRate * 0.45 + winRate * 0.35 + (100 - maxDrawdown * 6) * 0.2))
          0 100 in
  pure {| activeBots := activeBots; totalBots := totalBots s;
          pnlToday := pnlToday; winRate := winRate; maxDrawdown := maxDrawdown;
          fillRate := fillRate; change24h := change24h; health := health |}.

Definition jitterTPM (current : Q) : Rand Q :=
  r <- random ;;
  let baseline := 110 + r * 60 in
  r <- random ;;
  burst <- (if Qlt_bool r 0.12 then r' <- random ;; pure (30 + r' * 80) else pure 0) ;;
  let next := current * 0.7 + (baseline + burst) * 0.3 in
  pure (Math_round (clamp next 40 420)).

(** The update [setStats] is given on every tick. *)
Definition tick (prev : UiStats) : Rand UiStats :=
  mm' <- jitterGroup (mm prev) key_mm ;;
  tf' <- jitterGroup (tf prev) key_tf ;;
  nt' <- jitterGroup (nt prev) key_nt ;;
  tpm <- jitterTPM (tradesPerMin prev) ;;
  r <- random ;;
  let tpmChange := clamp (tpmChange prev + (r - 0.5) * 0.6) (-20) 20 in
  pure {| mm := mm'; tf := tf'; nt := nt'; tradesPerMin := tpm; tpmChange := tpmChange |}.

(** The state after [n] ticks. *)
Fixpoint ticks (n : nat) (s : UiStats) : Rand UiStats :=
  match n with
  | O => pure s
  | S n' => s' <- tick s ;; ticks n' s'
  end.

(** The width of the health bar of the trades-per-minute card. *)
Definition tpm_health (stats : UiStats) : Q :=
  clamp (Math_round (tradesPerMin stats / 4)) 0 100.

End Cards.

(** ** Bounds of the summary cards *)

Module CardsBounds.

Import Cards.
#[local] Open Scope Q_scope.

(** The rates of a group are within what [jitterGroup] clamps them to,
    and its health within what they give. *)
Definition rates_in_range (g : GroupStats) : Prop :=
  (35 <= winRate g /\ winRate g <= 80) /\
  (0.6 <= maxDrawdown g /\ maxDrawdown g <= 14) /\
  (45 <= fillRate g /\ fillRate g <= 99) /\
  (-25 <= change24h g /\ change24h g <= 25) /\
  (36 <= health g /\ health g <= 92).

(** A group of [total] bots, of which two at most are idle. *)
Definition bots_in_range (total : Q) (g : GroupStats) : Prop :=
  totalBots g = total /\ total - 2 <= activeBots g /\ activeBots g <= total.

(** What holds of the statistics shown at any time. *)
Definition steady (s : UiStats) : Prop :=
  (rates_in_range (mm s) /\ bots_in_range 15 (mm s)) /\
  (rates_in_range (tf s) /\ bots_in_range 8 (tf s)) /\
  (rates_in_range (nt s) /\ bots_in_range 8 (nt s)) /\
  (110 <= tradesPerMin s /\ tradesPerMin s <= 280) /\
  (-20 <= tpmChange s /\ tpmChange s <= 20).

End CardsBounds.

(** ** Numbers as text *)

(** Numbers that need not be finite, [toFixed] after ECMAScript, and the
    one regular expression the components use. What the run time prints
    for a locale, for very large numbers and for a string read as a
    number is an interface. *)
Module JSText.

Import JS.
#[local] Open Scope Q_scope.
#[local] Open Scope string_scope.

Inductive Num : Type :=
| Finite (q : Q)
| NaN
| Infinite (negative : bool).

Inductive Value : Type :=
| VString (s : string)
| VNumber (n : Num)
| VOther.

Class NumberText : Type := {
  toLocaleString_vi : Q -> string;     (* [x.toLocaleString("vi-VN")] *)
  Number_toString_big : Q -> string;   (* [String(x)] for [x >= 1e21] *)
  Number_of_string : string -> Num     (* [Number(s)] *)
}.

Definition Math_abs (x : Q) : Q := if Qlt_bool x 0 then - x else x.

(** The integer nearest to [x], the even one of two. *)
Definition round_half_even (x : Q) : Z :=
  let f := Qfloor x in
  match Qcompare (x - inject_Z f) (1 # 2) with
  | Lt => f
  | Gt => (f + 1)%Z
  | Eq => if Z.even f then f else (f + 1)%Z
  end.

(** Two to the power [e]. *)
Definition pow2 (e : Z) : Q :=
  if (0 <=? e)%Z then inject_Z (2 ^ e) else 1 # Z.to_pos (2 ^ (- e)).

(** The [e] with [2^e <= x < 2^(e+1)], for a positive [x]. *)
Definition binade (x : Q) : Z :=
  let e := (Z.log2 (Qnum x) - Z.log2 (Zpos (Qden x)))%Z in
  if Qle_bool (pow2 e) x then e else (e - 1)%Z.

(** The double nearest to [x], for [x] below [2^1024] in size: 53 bits,
    exponents from -1074 on, ties to the even one. *)
Definition round53 (x : Q) : Q :=
  if Qeq_bool x 0 then 0
  else
    let a := Math_abs x in
    let e := Z.max (binade a - 52) (-1074) in
    let m := round_half_even (a / pow2 e) in
    (if Qlt_bool x 0 then -1 else 1) * (inject_Z m * pow2 e).

(** [x / y] as the run time computes it, for [y] other than 0. *)
Definition Number_div (x y : Q) : Q := round53 (x / y).

(** [x.toFixed(f)] for a finite [x]. *)
Definition toFixed_finite {T : NumberText} (x : Q) (f : nat) : string :=
  let s := if Qlt_bool x 0 then "-" else "" in
  let x := if Qlt_bool x 0 then - x else x in
  if Qle_bool (inject_Z (10 ^ 21)) x then s ++ Number_toString_big x
  else
    let n := Qfloor (x * inject_Z (10 ^ Z.of_nat f) + (1 # 2)) in
    let m := Number_toString (Some n) in
    let m :=
      if (f =? 0)%nat then m
      else
        let k := String.length m in
        let m := if (k <=? f)%nat then cycle_take (f + 1 - k) "0" "0" ++ m else m in
        let k := String.length m in
        substring 0 (k - f) m ++ "." ++ substring (k - f) f m in
    s ++ m.

Definition toFixed {T : NumberText} (x : Num) (f : nat) : string :=
  match x with
  | Finite q => toFixed_finite q f
  | NaN => "NaN"
  | Infinite false => "Infinity"
  | Infinite true => "-Infinity"
  end.

(** [s.replace(/\.00$/, "")]. *)
Definition strip_dot00 (s : string) : string :=
  let n := String.length s in
  if (3 <=? n)%nat && String.eqb (substring (n - 3) 3 s) ".00"
  then substring 0 (n - 3) s
  else s.

End JSText.

(** ** Amounts as text, in the chart *)

Module ChartFormat.

Import JS JSText.
#[local] Open Scope Q_scope.
#[local] Open Scope string_scope.

Section Text.

Context {T : NumberText}.

Definition toNumber (v : Value) : Q :=
  let n := match v with
           | VString s => Number_of_string s
           | VNumber n => n
           | VOther => NaN
           end in
  match n with
  | Finite q => q
  | _ => 0
  end.

Definition formatVNDCompact (value : Num) : string :=
  let num := toNumber (VNumber value) in
  if Qle_bool 1000000000 num then
    strip_dot00 (toFixed_finite (Number_div num 1000000000) 2) ++ "B ₫"
  else if Qle_bool 1000000 num then
    strip_dot00 (toFixed_finite (Number_div num 1000000) 2) ++ "M ₫"
  else if Qle_bool 1000 num then
    strip_dot00 (toFixed_finite (Number_div num 1000) 2) ++ "K ₫"
  else toLocaleString_vi (Math_round num) ++ " ₫".

(** Formatting [k] thousands, millions and billions in the chart. *)
Definition chart_units_ok (k : Z) : bool :=
  String.eqb (formatVNDCompact (Finite (inject_Z (k * 1000))))
             (Number_toString (Some k) ++ "K ₫") &&
  String.eqb (formatVNDCompact (Finite (inject_Z (k * 1000000))))
             (Number_toString (Some k) ++ "M ₫") &&
  String.eqb (formatVNDCompact (Finite (inject_Z (k * 1000000000))))
             (Number_toString (Some k) ++ "B ₫").

End Text.

End ChartFormat.

(** ** Amounts and rates as text, in the summary cards *)

Module CardsFormat.

Import JS JSText.
#[local] Open Scope Q_scope.
#[local] Open Scope string_scope.

Section Text.

Context {T : NumberText}.

Definition formatVNDCompact (value : Num) : string :=
  match value with
  | Finite num =>
      let abs := Math_abs num in
      let sign := if Qlt_bool num 0 then "-" else "" in
      let fmt := fun v : Q => strip_dot00 (toFixed_finite v 2) in
      if Qle_bool 1000000000 abs then sign ++ fmt (Number_div abs 1000000000) ++ "B ₫"
      else if Qle_bool 1000000 abs then sign ++ fmt (Number_div abs 1000000) ++ "M ₫"
      else if Qle_bool 1000 abs then sign ++ fmt (Number_div abs 1000) ++ "K ₫"
      else sign ++ toLocaleString_vi abs ++ " ₫"
  | _ => "0 ₫"
  end.

Definition formatPct (value : Num) : string := toFixed value 1 ++ "%".

End Text.

End CardsFormat.

(** ** Sample inputs *)

Module Sample.

Import JS JSDate Rand.
#[local] Open Scope Q_scope.

(** Stand-ins for the transcendental functions, good enough to run the
    generator: [log u] as [u - 1], [sqrt x] as [(1 + x) / 2] and
    [cos x] as [1 - x * x / 2]. *)
Definition math : MathLib :=
  {| Math_log := fun u => u - 1;
     Math_sqrt := fun x => (1 + x) / 2;
     Math_cos := fun x => 1 - x * x / 2;
     Math_PI := 355 # 113 |}.

(** Local time that is UTC, and local time seven hours east of
    Greenwich. *)
Definition utc : Zone := fixed_zone 0.
Definition east7 : Zone := fixed_zone 25200000.

(** 15 June 2025, 12:00 UTC. *)
Definition noon_2025_06_15 : Date := Some 1749988800000%Z.

(** A source whose every draw is one half. *)
Definition halves : nat -> Q := fun _ => 1 # 2.

(** A source that returns zero on every draw. *)
Definition zeros : nat -> Q := fun _ => 0.

(** A source that wanders over the unit interval and returns zero now
    and then: 0, 37/101, 74/101, 10/101, ... *)
Definition mixed : nat -> Q := fun n => Z.of_nat ((n * 37) mod 101) # 101.

Definition tape : list Q := prefix mixed 60.

(** The run of the generator for three days on [tape]. *)
Definition trace3 : option ((Chart.Seed * list (Chart.Running * Chart.SeriesPoint)) * list Q) :=
  Eval vm_compute in Chart.generateTrace (M := math) utc noon_2025_06_15 3 tape.

Definition seed3 : Chart.Seed :=
  match trace3 with Some ((p, _), _) => p | None => Chart.Build_Seed 0 0 0 0 0 None end.

Definition turns3 : list (Chart.Running * Chart.SeriesPoint) :=
  match trace3 with Some ((_, tr), _) => tr | None => [] end.

Definition rest3 : list Q :=
  match trace3 with Some (_, r) => r | None => [] end.

Definition series3 : list Chart.SeriesPoint := map snd turns3.





(** Draws for one normal sample, with zeros where the redraw has to skip. *)
Definition zero_tape : list Q := [0; 0; 1 # 2; 0; 1 # 4; 1 # 3].



(** New York in 2025: on 9 March at 07:00 UTC local time goes from five
    to four hours behind UTC, and back on 2 November at 06:00 UTC. *)
Definition new_york_spring : Zone := one_change 1741503600000 (-18000000) (-14400000).
Definition new_york_autumn : Zone := one_change 1762063200000 (-14400000) (-18000000).




End Sample.

(** ** More sample runs *)

Module SampleRuns.

Import JS JSDate Rand.
#[local] Open Scope Q_scope.

Definition result {A} (default : A) (run : option (A * list Q)) : A :=
  match run with Some (a, _) => a | None => default end.

Definition leftover {A} (run : option (A * list Q)) : list Q :=
  match run with Some (_, r) => r | None => [] end.

(** A shock: the first draw is below 0.12, the second says upwards. *)
Definition shock_tape : list Q := [0.05; 0.7; 0.5; 0.9].

Definition shock_run : option (Q * list Q) :=
  Eval vm_compute in Chart.shock_draw shock_tape.

Definition user_shock_run : option (Q * list Q) :=
  Eval vm_compute in Chart.user_shock 0.018 [0.25; 0.9].

(** One second after the earliest time a [Date] can hold. *)
Definition earliest : Z := (-8640000000000000 + 1000)%Z.

Definition early_run : option (list Chart.SeriesPoint * list Q) :=
  Eval vm_compute in
    Chart.generateTradingSeries (M := Sample.math) Sample.utc (Some earliest) 3 Sample.tape.

(** The market makers after one call of [jitterGroup], the trades a
    minute after one call of [jitterTPM], and everything after two
    ticks. *)
Definition group_tape : list Q := [0.5; 0.5; 0.5; 0.5; 0.5; 0.03; 0.9; 0.1].

Definition group_run : option (Cards.GroupStats * list Q) :=
  Eval vm_compute in
    Cards.jitterGroup (Cards.mm Cards.makeInitial) Cards.key_mm group_tape.

Definition tpm_run : option (Q * list Q) :=
  Eval vm_compute in Cards.jitterTPM 128 Sample.tape.

Definition ticks_run : option (Cards.UiStats * list Q) :=
  Eval vm_compute in Cards.ticks 2 Cards.makeInitial Sample.tape.

(** A run of the polling effect: the first reply is an error, the second
    brings two rows, the last two are still awaited. *)
Definition polling_run : list Polling.Event :=
  [Polling.Wait 500;
   Polling.Arrive 1000 (Polling.Error "TypeError" (Some "Failed to fetch"%string));
   Polling.Wait 70000;
   Polling.Arrive 31000 (Polling.Json true [7; 8]);
   Polling.Wait 29500]%Z.

(** Stand-ins for the texts the run time writes. *)
Definition text : JSText.NumberText :=
  {| JSText.toLocaleString_vi := fun q => Number_toString (Some (Qfloor q));
     JSText.Number_toString_big := fun q => Number_toString (Some (Qfloor q));
     JSText.Number_of_string := fun _ => JSText.NaN |}.

End SampleRuns.

(** * Properties *)

(** ** Facts on numbers *)

Section NumberFacts.

Import JS.
Open Scope Q_scope.

Lemma Qlt_bool_iff x y : Qlt_bool x y = true <-> x < y.
Proof.
  unfold Qlt_bool. rewrite negb_true_iff.
  split; intro H.
  - apply Qnot_le_lt. intro Hle. apply Qle_bool_iff in Hle. congruence.
  - destruct (Qle_bool y x) eqn:E; [|reflexivity].
    apply Qle_bool_iff in E. exfalso. apply (Qlt_not_le _ _ H E).
Qed.

Lemma Qlt_bool_false x y : Qlt_bool x y = false <-> y <= x.
Proof.
  unfold Qlt_bool. rewrite negb_false_iff. apply Qle_bool_iff.
Qed.

Lemma Qle_bool_false x y : Qle_bool x y = false <-> y < x.
Proof.
  rewrite <- Qlt_bool_iff. unfold Qlt_bool.
  destruct (Qle_bool x y); simpl; split; congruence.
Qed.

Lemma Math_max_spec x y : x <= Math_max x y /\ y <= Math_max x y.
Proof.
  unfold Math_max. destruct (Qle_bool x y) eqn:E.
  - apply Qle_bool_iff in E. split; [exact E | apply Qle_refl].
  - apply Qle_bool_false in E. split; [apply Qle_refl | apply Qlt_le_weak, E].
Qed.

Lemma Math_max_cases x y : Math_max x y = x \/ Math_max x y = y.
Proof. unfold Math_max. destruct (Qle_bool x y); auto. Qed.

Lemma Math_min_spec x y : Math_min x y <= x /\ Math_min x y <= y.
Proof.
  unfold Math_min. destruct (Qle_bool x y) eqn:E.
  - apply Qle_bool_iff in E. split; [apply Qle_refl | exact E].
  - apply Qle_bool_false in E. split; [apply Qlt_le_weak, E | apply Qle_refl].
Qed.

Lemma Math_round_comp x y : x == y -> Math_round x = Math_round y.
Proof.
  intro H. unfold Math_round. f_equal. apply Qfloor_comp. rewrite H. reflexivity.
Qed.

Lemma Math_round_mono x y : x <= y -> Math_round x <= Math_round y.
Proof.
  intro H. unfold Math_round. rewrite <- Zle_Qle.
  apply Qfloor_resp_le. lra.
Qed.

Lemma Math_round_Z (z : Z) : Math_round (inject_Z z) = inject_Z z.
Proof.
  unfold Math_round. f_equal.
  assert (H1 := Qfloor_le (inject_Z z + (1 # 2))).
  assert (H2 := Qlt_floor (inject_Z z + (1 # 2))).
  set (F := Qfloor (inject_Z z + (1 # 2))) in *.
  assert (H3 : inject_Z F < inject_Z (z + 1)).
  { rewrite inject_Z_plus. change (inject_Z 1) with 1. lra. }
  assert (H4 : inject_Z z < inject_Z (F + 1)).
  { rewrite inject_Z_plus in *. change (inject_Z 1) with 1 in *. lra. }
  rewrite <- Zlt_Qlt in H3, H4. lia.
Qed.

Lemma clamp_bounds n lo hi :
  lo <= hi -> lo <= Chart.clamp n lo hi /\ Chart.clamp n lo hi <= hi.
Proof.
  intro Hle. unfold Chart.clamp. split.
  - apply Math_max_spec.
  - destruct (Math_max_cases lo (Math_min hi n)) as [E|E]; rewrite E.
    + exact Hle.
    + apply Math_min_spec.
Qed.

End NumberFacts.

(** ** Facts on computations that draw *)

Section RandFacts.

Import Rand.

Lemma bind_Some {A B} (m : Rand A) (k : A -> Rand B) t b r :
  bind m k t = Some (b, r) ->
  exists a t', m t = Some (a, t') /\ k a t' = Some (b, r).
Proof.
  unfold bind. destruct (m t) as [[a t']|]; [|discriminate].
  intro H. exists a, t'. split; [reflexivity | exact H].
Qed.

Lemma ret_Some {A} (a b : A) t r : ret a t = Some (b, r) -> b = a /\ r = t.
Proof. unfold ret. intro H. inversion H. split; reflexivity. Qed.

Lemma random_Some t u r : random t = Some (u, r) -> t = u :: r.
Proof. destruct t; simpl; intro H; inversion H. reflexivity. Qed.

Lemma redraw_Some t u r :
  Chart.redraw_while_zero t = Some (u, r) ->
  exists zs, t = zs ++ u :: r /\ Forall (fun z => z == 0) zs /\ ~ u == 0.
Proof.
  induction t as [|x t IH]; simpl; [discriminate|].
  destruct (Qeq_bool x 0) eqn:E.
  - intro H. destruct (IH H) as (zs & -> & Hz & Hu).
    exists (x :: zs). split; [reflexivity|]. split; [|exact Hu].
    constructor; [apply Qeq_bool_eq, E | exact Hz].
  - intro H. inversion H; subst. exists []. split; [reflexivity|].
    split; [constructor|]. apply Qeq_bool_neq, E.
Qed.

Lemma valid_redraw t u r :
  valid t -> Chart.redraw_while_zero t = Some (u, r) ->
  (0 < u /\ u < 1) /\ valid r.
Proof.
  intros Hv H. destruct (redraw_Some _ H) as (zs & -> & _ & Hu).
  apply Forall_app in Hv. destruct Hv as [_ Hv]. inversion Hv; subst.
  split; [|assumption].
  match goal with Hd : unit_draw u |- _ => destruct Hd as [H0 H1] end.
  split; [|exact H1].
  apply Qle_lt_or_eq in H0. destruct H0 as [H0|H0]; [exact H0|].
  exfalso. apply Hu. symmetry. exact H0.
Qed.

(** *** Enough draws give a result *)

Lemma nonzero_count_cons u t :
  nonzero_count (u :: t) =
    if Qeq_bool u 0 then nonzero_count t else S (nonzero_count t).
Proof. unfold nonzero_count. simpl. destruct (Qeq_bool u 0); reflexivity. Qed.

Lemma nonzero_count_app t e :
  nonzero_count (t ++ e) = (nonzero_count t + nonzero_count e)%nat.
Proof. unfold nonzero_count. rewrite filter_app, length_app. reflexivity. Qed.

Lemma needs_ret {A} (a : A) : needs (ret a) 0.
Proof. intros t _. exists a, t. split; [reflexivity | lia]. Qed.

Lemma needs_random : needs random 1.
Proof.
  intros [|u t] H.
  - unfold nonzero_count in H. simpl in H. lia.
  - exists u, t. split; [reflexivity|].
    rewrite nonzero_count_cons. destruct (Qeq_bool u 0); lia.
Qed.

Lemma needs_redraw : needs Chart.redraw_while_zero 1.
Proof.
  intro t. induction t as [|u t IH]; intro H.
  - unfold nonzero_count in H. simpl in H. lia.
  - rewrite nonzero_count_cons in *. simpl.
    destruct (Qeq_bool u 0).
    + apply IH, H.
    + exists u, t. split; [reflexivity | lia].
Qed.

Lemma needs_bind {A B} (m : Rand A) (f : A -> Rand B) k1 k2 :
  needs m k1 -> (forall a, needs (f a) k2) -> needs (bind m f) (k1 + k2).
Proof.
  intros Hm Hf t Ht.
  destruct (Hm t) as (a & r & E & Hr); [lia|].
  destruct (Hf a r) as (b & r' & E' & Hr'); [lia|].
  exists b, r'. unfold bind. rewrite E. split; [exact E' | lia].
Qed.

Lemma needs_mono {A} (m : Rand A) k k' :
  needs m k -> (k <= k')%nat -> needs m k'.
Proof.
  intros Hm Hk t Ht. destruct (Hm t) as (a & r & E & Hr); [lia|].
  exists a, r. split; [exact E | lia].
Qed.

(** *** More tape does not change a result *)

Lemma framed_ret {A} (a : A) : framed (ret a).
Proof. intros t b r e H. apply ret_Some in H. destruct H; subst. reflexivity. Qed.

Lemma framed_random : framed random.
Proof. intros t a r e H. apply random_Some in H. subst. reflexivity. Qed.

Lemma framed_redraw : framed Chart.redraw_while_zero.
Proof.
  intro t. induction t as [|u t IH]; intros a r e; simpl; [discriminate|].
  destruct (Qeq_bool u 0); [apply IH|].
  intro H. inversion H; subst. reflexivity.
Qed.

Lemma framed_bind {A B} (m : Rand A) (f : A -> Rand B) :
  framed m -> (forall a, framed (f a)) -> framed (bind m f).
Proof.
  intros Hm Hf t b r e H. apply bind_Some in H.
  destruct H as (a & t' & E & E'). unfold bind.
  rewrite (Hm _ _ _ e E). apply Hf, E'.
Qed.

Lemma needs_if {A} (b : bool) (m1 m2 : Rand A) k1 k2 :
  needs m1 k1 -> needs m2 k2 -> needs (if b then m1 else m2) (Nat.max k1 k2).
Proof.
  intros H1 H2. destruct b; [apply (needs_mono H1) | apply (needs_mono H2)]; lia.
Qed.

Lemma framed_if {A} (b : bool) (m1 m2 : Rand A) :
  framed m1 -> framed m2 -> framed (if b then m1 else m2).
Proof. destruct b; auto. Qed.

(** *** A result leaves a suffix of the tape *)

Lemma reads_ret {A} (a : A) : reads (ret a).
Proof. intros t b r H. apply ret_Some in H. destruct H; subst. exists []. reflexivity. Qed.

Lemma reads_random : reads random.
Proof. intros t a r H. apply random_Some in H. subst. exists [a]. reflexivity. Qed.

Lemma reads_redraw : reads Chart.redraw_while_zero.
Proof.
  intros t a r H. destruct (redraw_Some _ H) as (zs & -> & _).
  exists (zs ++ [a]). rewrite <- app_assoc. reflexivity.
Qed.

Lemma reads_bind {A B} (m : Rand A) (f : A -> Rand B) :
  reads m -> (forall a, reads (f a)) -> reads (bind m f).
Proof.
  intros Hm Hf t b r H. apply bind_Some in H.
  destruct H as (a & t' & E & E').
  destruct (Hm _ _ _ E) as (c & ->). destruct (Hf _ _ _ _ E') as (c' & ->).
  exists (c ++ c'). rewrite app_assoc. reflexivity.
Qed.

Lemma reads_if {A} (b : bool) (m1 m2 : Rand A) :
  reads m1 -> reads m2 -> reads (if b then m1 else m2).
Proof. destruct b; auto. Qed.

Lemma reads_Forall {A} (P : Q -> Prop) (m : Rand A) t a r :
  reads m -> Forall P t -> m t = Some (a, r) -> Forall P r.
Proof.
  intros Hm Hv H. destruct (Hm _ _ _ H) as (c & ->).
  apply Forall_app in Hv. apply Hv.
Qed.

Lemma reads_valid {A} (m : Rand A) t a r :
  reads m -> valid t -> m t = Some (a, r) -> valid r.
Proof. apply reads_Forall. Qed.

End RandFacts.

Create HintDb needs.
Create HintDb framed.
Create HintDb reads.

#[local] Hint Resolve needs_ret needs_random needs_redraw : needs.
#[local] Hint Resolve framed_ret framed_random framed_redraw : framed.
#[local] Hint Resolve reads_ret reads_random reads_redraw : reads.

(** Bounds the draws of a computation by following its binds and
    branches; leaves are looked up in the hint database. *)
Ltac needs_syn :=
  cbv beta zeta;
  lazymatch goal with
  | |- Rand.needs (Rand.bind _ _) _ =>
      eapply needs_bind; [needs_syn | intro; needs_syn]
  | |- Rand.needs (if _ then _ else _) _ =>
      eapply needs_if; needs_syn
  | |- _ => solve [eauto with needs]
  end.

Ltac needs_tac := eapply needs_mono; [needs_syn | simpl; lia].

Ltac framed_tac :=
  cbv beta zeta;
  lazymatch goal with
  | |- Rand.framed (Rand.bind _ _) =>
      apply framed_bind; [framed_tac | intro; framed_tac]
  | |- Rand.framed (if _ then _ else _) =>
      apply framed_if; framed_tac
  | |- _ => solve [eauto with framed]
  end.

Ltac reads_tac :=
  cbv beta zeta;
  lazymatch goal with
  | |- Rand.reads (Rand.bind _ _) =>
      apply reads_bind; [reads_tac | intro; reads_tac]
  | |- Rand.reads (if _ then _ else _) =>
      apply reads_if; reads_tac
  | |- _ => solve [eauto with reads]
  end.

(** Splits a successful run of a bind into the runs of its parts. *)
Ltac rand_inv :=
  repeat match goal with
  | H : Rand.bind _ _ _ = Some _ |- _ =>
      let a := fresh "a" in
      let t := fresh "t" in
      let E := fresh "E" in
      apply bind_Some in H; destruct H as (a & t & E & H); cbv beta zeta in H
  | H : Rand.ret _ _ = Some _ |- _ =>
      apply ret_Some in H; destruct H; subst
  end.

(** ** The generator draws, and returns *)

Section Draws.

Import JS JSDate Rand Chart.
Open Scope Q_scope.
Context {M : MathLib}.
Variable LocalTZA : JSDate.Zone.

Lemma needs_FletcherVol lo hi : needs (FletcherVol lo hi) 1.
Proof. unfold FletcherVol. needs_tac. Qed.

Lemma needs_gaussian mean std : needs (gaussian mean std) 2.
Proof. unfold gaussian. needs_tac. Qed.

Lemma needs_vol_step v : needs (vol_step v) 2.
Proof. unfold vol_step. needs_tac. Qed.

Lemma needs_shock_draw : needs shock_draw 3.
Proof. unfold shock_draw. needs_tac. Qed.

Lemma needs_user_shock s : needs (user_shock s) 1.
Proof. unfold user_shock. needs_tac. Qed.

Hint Resolve needs_FletcherVol needs_gaussian needs_vol_step
  needs_shock_draw needs_user_shock : needs.

Lemma needs_seed now days : needs (seed LocalTZA now days) 6.
Proof. unfold seed. needs_tac. Qed.

Lemma needs_loop_body p i s : needs (loop_body LocalTZA p i s) 9.
Proof. unfold loop_body. needs_tac. Qed.

Hint Resolve needs_seed needs_loop_body : needs.

Lemma needs_loop p n : forall i s, needs (loop LocalTZA p n i s) (9 * n).
Proof.
  induction n as [|n IH]; intros i s; simpl loop.
  - needs_tac.
  - eapply needs_mono.
    + eapply needs_bind; [apply needs_loop_body|]. intro sp.
      eapply needs_bind; [apply IH|]. intro rest. apply needs_ret.
    + lia.
Qed.

Lemma needs_generateTradingSeries now days :
  needs (generateTradingSeries LocalTZA now days) (6 + 9 * Z.to_nat days).
Proof.
  unfold generateTradingSeries, generateTrace.
  eapply needs_mono.
  - eapply needs_bind; [|intro; apply needs_ret].
    eapply needs_bind; [apply needs_seed|]. intro p. cbv zeta.
    eapply needs_bind; [apply needs_loop|]. intro tr. apply needs_ret.
  - lia.
Qed.

Lemma framed_FletcherVol lo hi : framed (FletcherVol lo hi).
Proof. unfold FletcherVol. framed_tac. Qed.

Lemma framed_gaussian mean std : framed (gaussian mean std).
Proof. unfold gaussian. framed_tac. Qed.

Lemma framed_vol_step v : framed (vol_step v).
Proof. unfold vol_step. framed_tac. Qed.

Lemma framed_shock_draw : framed shock_draw.
Proof. unfold shock_draw. framed_tac. Qed.

Lemma framed_user_shock s : framed (user_shock s).
Proof. unfold user_shock. framed_tac. Qed.

Hint Resolve framed_FletcherVol framed_gaussian framed_vol_step
  framed_shock_draw framed_user_shock : framed.

Lemma framed_seed now days : framed (seed LocalTZA now days).
Proof. unfold seed. framed_tac. Qed.

Lemma framed_loop_body p i s : framed (loop_body LocalTZA p i s).
Proof. unfold loop_body. framed_tac. Qed.

Hint Resolve framed_seed framed_loop_body : framed.

Lemma framed_loop p n : forall i s, framed (loop LocalTZA p n i s).
Proof.
  induction n as [|n IH]; intros i s; simpl loop.
  - framed_tac.
  - apply framed_bind; [apply framed_loop_body|]. intro sp.
    apply framed_bind; [apply IH|]. intro rest. apply framed_ret.
Qed.

Hint Resolve framed_loop : framed.

Lemma framed_generateTradingSeries now days :
  framed (generateTradingSeries LocalTZA now days).
Proof. unfold generateTradingSeries, generateTrace. framed_tac. Qed.

Lemma reads_FletcherVol lo hi : reads (FletcherVol lo hi).
Proof. unfold FletcherVol. reads_tac. Qed.

Lemma reads_gaussian mean std : reads (gaussian mean std).
Proof. unfold gaussian. reads_tac. Qed.

Lemma reads_vol_step v : reads (vol_step v).
Proof. unfold vol_step. reads_tac. Qed.

Lemma reads_shock_draw : reads shock_draw.
Proof. unfold shock_draw. reads_tac. Qed.

Lemma reads_user_shock s : reads (user_shock s).
Proof. unfold user_shock. reads_tac. Qed.

Hint Resolve reads_FletcherVol reads_gaussian reads_vol_step
  reads_shock_draw reads_user_shock : reads.

Lemma reads_seed now days : reads (seed LocalTZA now days).
Proof. unfold seed. reads_tac. Qed.

Lemma reads_loop_body p i s : reads (loop_body LocalTZA p i s).
Proof. unfold loop_body. reads_tac. Qed.

End Draws.

(** ** Length and order of the series *)

Section Series.

Import JS JSDate Rand Chart.
Open Scope Q_scope.
Context {M : MathLib}.
Variable LocalTZA : JSDate.Zone.

Lemma prefix_app f n k : prefix f (n + k) = prefix f n ++ map f (seq n k).
Proof. unfold prefix. rewrite seq_app, map_app. reflexivity. Qed.

Lemma fair_prefix f k : fair f -> exists N, (k <= nonzero_count (prefix f N))%nat.
Proof.
  intro Hf. induction k as [|k [N HN]].
  - exists 0%nat. lia.
  - destruct (Hf N) as (m & Hm & Hnz).
    exists (N + (m - N + 1))%nat.
    rewrite prefix_app, nonzero_count_app, seq_app, map_app, nonzero_count_app.
    replace (N + (m - N))%nat with m by lia. simpl map.
    rewrite (nonzero_count_cons (f m) []).
    destruct (Qeq_bool (f m) 0) eqn:E.
    + exfalso. apply Hnz. apply Qeq_bool_eq, E.
    + lia.
Qed.

Lemma loop_length p n : forall i s t tr r,
  loop LocalTZA p n i s t = Some (tr, r) -> List.length tr = n.
Proof.
  induction n as [|n IH]; intros i s t tr r H; simpl loop in H; rand_inv.
  - reflexivity.
  - simpl. f_equal. eapply IH; eassumption.
Qed.

(** The dates of the points are those of [startDate + i] for the loop
    indices [i], in the order of the loop. *)
Lemma loop_dates p n : forall i s t tr r,
  loop LocalTZA p n i s t = Some (tr, r) ->
  map (fun sp => date (snd sp)) tr =
  map (fun k => toISODate LocalTZA (shiftDays LocalTZA (startDate p) (i + Z.of_nat k)))
      (seq 0 n).
Proof.
  induction n as [|n IH]; intros i s t tr r H; simpl loop in H; rand_inv.
  - reflexivity.
  - match goal with
    | E1 : loop_body _ _ _ _ _ = Some _, E2 : loop _ _ _ _ _ _ = Some _ |- _ =>
        apply IH in E2; unfold loop_body in E1; rand_inv
    end.
    cbn [map seq snd date]. f_equal.
    + rewrite Z.add_0_r. reflexivity.
    + match goal with E2 : map _ _ = _ |- _ => rewrite E2 end.
      rewrite <- seq_shift, map_map. apply map_ext. intro k.
      do 2 f_equal. lia.
Qed.

Lemma seed_startDate now days t p r :
  seed LocalTZA now days t = Some (p, r) ->
  startDate p = shiftDays LocalTZA now (- (days - 1)).
Proof. unfold seed, FletcherVol. intro H. rand_inv. reflexivity. Qed.

Lemma generateTradingSeries_shape now days t data r :
  generateTradingSeries LocalTZA now days t = Some (data, r) ->
  List.length data = Z.to_nat days /\ map date data = series_dates LocalTZA now days.
Proof.
  unfold generateTradingSeries, generateTrace. intro H. rand_inv.
  cbn [snd]. split.
  - rewrite length_map. eapply loop_length; eassumption.
  - rewrite map_map.
    match goal with
    | E1 : seed _ _ _ _ = Some _, E2 : loop _ _ _ _ _ _ = Some _ |- _ =>
        apply loop_dates in E2; rewrite E2; rewrite (seed_startDate _ _ _ E1)
    end.
    reflexivity.
Qed.

End Series.

Section SeriesClaims.

Import JS JSDate Rand Chart.
Open Scope Q_scope.
Context {M : MathLib}.
Variable LocalTZA : JSDate.Zone.

(** C1. For every positive [days] and every random source that keeps
    returning draws other than zero, [generateTradingSeries days]
    returns: once enough draws of the source are at hand the result is
    there, and it is the same however many more follow. It holds exactly
    [days] points, one for each turn of the loop, the point of turn [i]
    carrying the date of [startDate + i]. *)
Theorem generateTradingSeries_length (now : Date) (days : Z) (f : nat -> Q) :
  (0 < days)%Z -> fair f ->
  exists N data,
    (forall n, (N <= n)%nat ->
       exists rest,
         generateTradingSeries LocalTZA now days (prefix f n) = Some (data, rest)) /\
    Z.of_nat (List.length data) = days /\
    map date data = series_dates LocalTZA now days.
Proof.
  intros Hdays Hf.
  destruct (fair_prefix (6 + 9 * Z.to_nat days) Hf) as [N HN].
  destruct (needs_generateTradingSeries LocalTZA now days _ HN)
    as (data & rest & E & _).
  exists N, data. split; [|].
  - intros n Hn. exists (rest ++ map f (seq N (n - N))).
    replace n with (N + (n - N))%nat at 1 by lia.
    rewrite prefix_app. apply framed_generateTradingSeries, E.
  - destruct (generateTradingSeries_shape _ _ _ _ E) as [Hlen Hdates].
    split; [|exact Hdates]. rewrite Hlen. lia.
Qed.

(** C10. For [days <= 0] the loop body never runs:
    [generateTradingSeries days] draws its six seeds and returns the
    empty series. *)
Theorem generateTradingSeries_nonpositive (now : Date) (days : Z) (t : list Q) :
  (days <= 0)%Z -> (6 <= List.length t)%nat ->
  generateTradingSeries LocalTZA now days t = Some ([], skipn 6 t).
Proof.
  intros Hdays Hlen.
  do 6 (destruct t as [|? t]; [simpl in Hlen; lia|]).
  unfold generateTradingSeries, generateTrace.
  replace (Z.to_nat days) with 0%nat by lia.
  reflexivity.
Qed.

End SeriesClaims.

Lemma generateTradingSeries_length_witness :
  exists N data,
    (forall n, (N <= n)%nat ->
       exists rest,
         Chart.generateTradingSeries (M := Sample.math) Sample.utc Sample.noon_2025_06_15 3
           (Rand.prefix Sample.halves n) = Some (data, rest)) /\
    Z.of_nat (List.length data) = 3%Z /\
    map Chart.date data = Chart.series_dates Sample.utc Sample.noon_2025_06_15 3.
Proof.
  apply (generateTradingSeries_length (M := Sample.math) Sample.utc Sample.noon_2025_06_15
           (days := 3) (f := Sample.halves)).
  - reflexivity.
  - intro n. exists n. split; [apply le_n | discriminate].
Defined.

Lemma generateTradingSeries_nonpositive_witness :
  Chart.generateTradingSeries (M := Sample.math) Sample.utc Sample.noon_2025_06_15 (-2)
    (Rand.prefix Sample.halves 8) = Some ([], [1 # 2; 1 # 2]).
Proof.
  apply (generateTradingSeries_nonpositive (M := Sample.math) Sample.utc Sample.noon_2025_06_15
           (days := -2) (Rand.prefix Sample.halves 8)).
  - discriminate.
  - vm_compute. lia.
Defined.

(** On a source of zeros only, the Box-Muller redraw has no end: no number
    of draws is enough for a series of even one day. *)
Lemma generateTradingSeries_zeros (M : JS.MathLib) (LocalTZA : JSDate.Zone)
    (now : JSDate.Date) (days : Z) (t : list Q) :
  (0 < days)%Z -> Forall (fun z => z == 0) t ->
  Chart.generateTradingSeries LocalTZA now days t = None.
Proof.
  intros Hdays Hz.
  destruct (Chart.generateTradingSeries LocalTZA now days t) as [[data r]|] eqn:E;
    [exfalso | reflexivity].
  unfold Chart.generateTradingSeries, Chart.generateTrace in E. rand_inv.
  destruct (Z.to_nat days) as [|n] eqn:En; [lia|].
  match goal with H : Chart.loop _ _ _ _ _ _ = Some _ |- _ =>
    simpl Chart.loop in H; rand_inv end.
  match goal with
  | Hs : Chart.seed _ _ _ _ = Some _, Hb : Chart.loop_body _ _ _ _ _ = Some _ |- _ =>
      apply (reads_Forall (reads_seed _ _ _) Hz) in Hs;
      unfold Chart.loop_body in Hb; rand_inv
  end.
  match goal with
  | Hs : Forall _ ?t1, Hv : Chart.vol_step _ ?t1 = Some _,
    Hk : Chart.shock_draw _ = Some _, Hg : Chart.gaussian _ _ _ = Some _ |- _ =>
      apply (reads_Forall (reads_vol_step _) Hs) in Hv;
      apply (reads_Forall reads_shock_draw Hv) in Hk;
      unfold Chart.gaussian in Hg; rand_inv
  end.
  match goal with
  | Hr : Chart.redraw_while_zero ?t3 = Some (?u, _), Hk : Forall _ ?t3 |- _ =>
      destruct (redraw_Some _ Hr) as (zs & -> & _ & Hu);
      apply Forall_app in Hk; destruct Hk as [_ Hk]; inversion Hk; subst
  end.
  contradiction.
Qed.

(** ** What the seeds and one turn of the loop compute *)

Section Steps.

Import JS JSDate Rand Chart.
Open Scope Q_scope.
Context {M : MathLib}.
Variable LocalTZA : JSDate.Zone.

Lemma Math_max_Qmax x y : Math_max x y == Qmax x y.
Proof.
  unfold Math_max. destruct (Qle_bool x y) eqn:E.
  - apply Qle_bool_iff in E. symmetry. apply Q.max_r, E.
  - apply Qle_bool_false in E. symmetry. apply Q.max_l, Qlt_le_weak, E.
Qed.

Lemma Math_min_Qmin x y : Math_min x y == Qmin x y.
Proof.
  unfold Math_min. destruct (Qle_bool x y) eqn:E.
  - apply Qle_bool_iff in E. symmetry. apply Q.min_l, E.
  - apply Qle_bool_false in E. symmetry. apply Q.min_r, Qlt_le_weak, E.
Qed.

Lemma clamp_Qmax n lo hi : clamp n lo hi == Qmax lo (Qmin hi n).
Proof.
  unfold clamp. rewrite Math_max_Qmax.
  apply Q.max_compat; [reflexivity | apply Math_min_Qmin].
Qed.

(** The six draws of the seeds, in the order of the source. *)
Lemma seed_inv now days t p r :
  seed LocalTZA now days t = Some (p, r) ->
  exists r1 r2 r3 r4 r5 r6,
    t = r1 :: r2 :: r3 :: r4 :: r5 :: r6 :: r /\
    startBalance p = (300000000 + r1 * 900000000) * (if Qlt_bool 0.5 r2 then 1 else 0.9) /\
    baseUsers p = Math_floor (40 + r3 * 160) /\
    drift p = (r4 - 0.45) * 0.0012 /\
    vol0 p = 0.004 + r5 * (0.014 - 0.004) /\
    anchor p = startBalance p * (0.98 + r6 * 0.05).
Proof.
  unfold seed, FletcherVol. intro H. rand_inv.
  repeat match goal with
  | E : random _ = Some _ |- _ => apply random_Some in E; subst
  end.
  do 6 eexists. cbn. repeat split; reflexivity.
Qed.

Lemma vol_step_inv v t v' r :
  vol_step v t = Some (v', r) ->
  exists u t1, t = u :: t1 /\
    ((u < 0.18 /\ exists f, t1 = f :: r /\ v' = clamp (v * (0.85 + f * 0.7)) 0.003 0.03) \/
     (0.18 <= u /\ r = t1 /\ v' = v)).
Proof.
  unfold vol_step. intro H. rand_inv.
  match goal with E : random _ = Some _ |- _ => apply random_Some in E; subst end.
  do 2 eexists. split; [reflexivity|].
  match goal with
  | H : (if Qlt_bool ?a ?b then _ else _) _ = Some _ |- _ =>
      destruct (Qlt_bool a b) eqn:Eb
  end.
  - left. apply Qlt_bool_iff in Eb. split; [exact Eb|]. rand_inv.
    match goal with E : random _ = Some _ |- _ => apply random_Some in E; subst end.
    eexists. split; reflexivity.
  - right. apply Qlt_bool_false in Eb. rand_inv. auto.
Qed.

Lemma vol_step_moves v t v' r :
  valid t -> vol_step v t = Some (v', r) -> Described.vol_moves v v'.
Proof.
  intros Hv H. destruct (vol_step_inv _ _ H) as (u & t1 & -> & [[_ (f & -> & ->)]|(_ & _ & ->)]).
  - right. exists (0.85 + f * 0.7).
    inversion Hv as [|? ? _ Hv1]; subst. inversion Hv1 as [|? ? [Hf0 Hf1] _]; subst.
    split; [lra|]. split; [lra|]. apply clamp_Qmax.
  - left. reflexivity.
Qed.

Lemma vol_moves_range v v' :
  0.003 <= v <= 0.03 -> Described.vol_moves v v' -> 0.003 <= v' <= 0.03.
Proof.
  intros Hv [->|(f & _ & _ & E)]; [exact Hv|].
  rewrite E. split.
  - apply Q.le_max_l.
  - apply Q.max_lub; [lra|]. apply Q.le_min_l.
Qed.

(** The parts of one turn, in the order they draw. *)
Lemma loop_body_inv p i s t sp r :
  loop_body LocalTZA p i s t = Some (sp, r) ->
  exists v t1 shock t2 noise t3 userShock t4 u,
    vol_step (vol s) t = Some (v, t1) /\
    shock_draw t1 = Some (shock, t2) /\
    gaussian 0 v t2 = Some (noise, t3) /\
    user_shock shock t3 = Some (userShock, t4) /\
    t4 = u :: r /\
    vol (fst sp) = v /\
    balance (fst sp) =
      Math_max 0 (balance s *
        (1 + (drift p + noise + shock + - ((balance s - anchor p) / anchor p) * 0.08))) /\
    users (fst sp) =
      clamp (Math_round (users s + (u - 0.5) * 6 + userShock))
            (Math_max 5 (Math_round (baseUsers p * 0.6)))
            (Math_round (baseUsers p * 1.4)) /\
    date (snd sp) = toISODate LocalTZA (shiftDays LocalTZA (startDate p) i) /\
    totalBalance (snd sp) = Math_round (balance (fst sp)) /\
    activeUsers (snd sp) = users (fst sp).
Proof.
  unfold loop_body. intro H. rand_inv.
  match goal with E : random _ = Some _ |- _ => apply random_Some in E; subst end.
  do 9 eexists. repeat (split; [eassumption || reflexivity|]). reflexivity.
Qed.

(** A property of every turn holds along the whole loop. *)
Lemma loop_Forall p (Pt : Q -> Prop) (I : Running -> Prop)
    (P : Running * SeriesPoint -> Prop) :
  (forall i s t sp r,
     Forall Pt t -> I s -> loop_body LocalTZA p i s t = Some (sp, r) ->
     I (fst sp) /\ P sp) ->
  forall n i s t tr r,
    Forall Pt t -> I s -> loop LocalTZA p n i s t = Some (tr, r) -> Forall P tr.
Proof.
  intros Hbody. induction n as [|n IH]; intros i s t tr r Ht Hs H;
    simpl loop in H; rand_inv.
  - constructor.
  - match goal with
    | E1 : loop_body _ _ _ _ _ = Some _, E2 : loop _ _ _ _ _ _ = Some _ |- _ =>
        destruct (Hbody _ _ _ _ _ Ht Hs E1) as [HI HP];
        apply (reads_Forall (reads_loop_body _ _ _ _) Ht) in E1;
        constructor; [exact HP | eapply IH; eassumption]
    end.
Qed.

Lemma generateTradingSeries_trace now days t data r :
  generateTradingSeries LocalTZA now days t = Some (data, r) ->
  exists p tr,
    generateTrace LocalTZA now days t = Some ((p, tr), r) /\ data = map snd tr.
Proof.
  unfold generateTradingSeries. intro H. rand_inv.
  match goal with a : (Seed * list (Running * SeriesPoint))%type |- _ =>
    destruct a as [p tr] end.
  exists p, tr. split; [assumption | reflexivity].
Qed.

Lemma generateTrace_inv now days t p tr r :
  generateTrace LocalTZA now days t = Some ((p, tr), r) ->
  exists t1,
    seed LocalTZA now days t = Some (p, t1) /\
    loop LocalTZA p (Z.to_nat days) 0%Z
      {| vol := vol0 p; balance := startBalance p; users := baseUsers p |} t1
    = Some (tr, r).
Proof.
  unfold generateTrace. intro H. rand_inv.
  match goal with H : (_, _) = (_, _) |- _ => inversion H; subst end.
  eexists. split; eassumption.
Qed.

End Steps.

(** ** Invariants of the series *)

Section Invariants.

Import JS JSDate Rand Chart.
Open Scope Q_scope.
Context {M : MathLib}.
Variable LocalTZA : JSDate.Zone.

Lemma Math_round_nonneg x : 0 <= x -> 0 <= Math_round x.
Proof.
  intro H. change 0 with (inject_Z 0) at 1.
  rewrite <- (Math_round_Z 0). apply Math_round_mono. exact H.
Qed.

(** C2. Every point of a series has a [totalBalance] that is not
    negative, whatever the draws: the balance it rounds was clamped at
    zero by [Math.max 0]. *)
Theorem totalBalance_nonneg (now : Date) (days : Z) (t : list Q)
    (data : list SeriesPoint) (r : list Q) :
  generateTradingSeries LocalTZA now days t = Some (data, r) ->
  Forall (fun pt => 0 <= totalBalance pt) data.
Proof.
  intro H. destruct (generateTradingSeries_trace _ _ _ _ H) as (p & tr & Htr & ->).
  destruct (generateTrace_inv _ _ _ _ Htr) as (t1 & _ & Hloop).
  apply Forall_map.
  refine (loop_Forall LocalTZA p (Pt := fun _ => True) (fun _ => True)
            (fun sp => 0 <= totalBalance (snd sp)) _ _ _ _ _ _ Hloop);
    [| apply Forall_forall; trivial | trivial].
  intros i s t' sp r' _ _ Hb. split; [trivial|].
  destruct (loop_body_inv _ _ _ _ _ Hb)
    as (v & ? & shock & ? & noise & ? & us & ? & u & _ & _ & _ & _ & _ & _ & Hbal & _ & _ & Htot & _).
  rewrite Htot, Hbal. apply Math_round_nonneg. apply Math_max_spec.
Qed.

Lemma baseUsers_range u :
  unit_draw u -> (40 <= Qfloor (40 + u * 160) < 200)%Z.
Proof.
  intros [H0 H1]. split.
  - apply Z.le_trans with (Qfloor (inject_Z 40)).
    + rewrite Qfloor_Z. apply Z.le_refl.
    + apply Qfloor_resp_le. change (inject_Z 40) with 40. lra.
  - rewrite Zlt_Qlt. apply Qle_lt_trans with (1 := Qfloor_le _).
    change (inject_Z 200) with 200. lra.
Qed.

Lemma users_bounds_ordered (b : Z) :
  (40 <= b)%Z ->
  Math_max 5 (Math_round (inject_Z b * 0.6)) <= Math_round (inject_Z b * 1.4).
Proof.
  intro Hb. assert (Hq : 40 <= inject_Z b).
  { change 40 with (inject_Z 40). rewrite <- Zle_Qle. exact Hb. }
  destruct (Math_max_cases 5 (Math_round (inject_Z b * 0.6))) as [E|E]; rewrite E.
  - change 5 with (inject_Z 5). rewrite <- (Math_round_Z 5).
    apply Math_round_mono. change (inject_Z 5) with 5. lra.
  - apply Math_round_mono. lra.
Qed.

(** C3. On draws from the unit interval, every point of a series has its
    [activeUsers] between [max(5, round(0.6 base))] and
    [round(1.4 base)], where [base] is the whole number in [[40, 200)]
    that the third draw of the call seeds. *)
Theorem activeUsers_bounds (now : Date) (days : Z) (t : list Q)
    (data : list SeriesPoint) (r : list Q) :
  valid t ->
  generateTradingSeries LocalTZA now days t = Some (data, r) ->
  exists (base : Z) (u : Q),
    nth_error t 2 = Some u /\
    inject_Z base = Math_floor (40 + u * 160) /\
    (40 <= base < 200)%Z /\
    Forall (fun pt =>
              Math_max 5 (Math_round (0.6 * inject_Z base)) <= activeUsers pt /\
              activeUsers pt <= Math_round (1.4 * inject_Z base)) data.
Proof.
  intros Hv H. destruct (generateTradingSeries_trace _ _ _ _ H) as (p & tr & Htr & ->).
  destruct (generateTrace_inv _ _ _ _ Htr) as (t1 & Hseed & Hloop).
  destruct (seed_inv _ _ _ _ Hseed)
    as (r1 & r2 & r3 & r4 & r5 & r6 & -> & _ & Hbase & _).
  assert (Hr3 : unit_draw r3).
  { inversion Hv as [|? ? _ Hv1]; subst. inversion Hv1 as [|? ? _ Hv2]; subst.
    inversion Hv2; subst. assumption. }
  exists (Qfloor (40 + r3 * 160)), r3.
  split; [reflexivity|]. split; [reflexivity|].
  assert (Hrange := baseUsers_range Hr3). split; [exact Hrange|].
  apply Forall_map.
  refine (loop_Forall LocalTZA p (Pt := fun _ => True) (fun _ => True) _ _ _ _ _ _ _ Hloop);
    [| apply Forall_forall; trivial | trivial].
  intros i s t' sp r' _ _ Hb. split; [trivial|].
  destruct (loop_body_inv _ _ _ _ _ Hb)
    as (v & ? & shock & ? & noise & ? & us & ? & u & _ & _ & _ & _ & _ & _ & _ & Hus & _ & _ & Hact).
  rewrite Hact, Hus, Hbase. unfold Math_floor.
  set (b := Qfloor (40 + r3 * 160)) in *.
  rewrite (Math_round_comp (x := 0.6 * inject_Z b) (y := inject_Z b * 0.6)) by ring.
  rewrite (Math_round_comp (x := 1.4 * inject_Z b) (y := inject_Z b * 1.4)) by ring.
  apply clamp_bounds. apply users_bounds_ordered. lia.
Qed.


(** C6. Where [gaussian] returns, the numbers it hands to the logarithm
    and to the cosine are the first draws other than zero: the zeros
    before them were drawn again, so on draws from the unit interval the
    argument of the logarithm lies strictly between 0 and 1. *)
Theorem gaussian_log_positive (mean std : Q) (t : list Q) (z : Q) (r : list Q) :
  valid t ->
  gaussian mean std t = Some (z, r) ->
  exists u v zs1 zs2,
    t = zs1 ++ u :: zs2 ++ v :: r /\
    Forall (fun x => x == 0) zs1 /\ Forall (fun x => x == 0) zs2 /\
    (0 < u /\ u < 1) /\ (0 < v /\ v < 1) /\
    z = mean + Math_sqrt (-2 * Math_log u) * Math_cos (2 * Math_PI * v) * std.
Proof.
  intros Hv H. unfold gaussian in H. rand_inv.
  match goal with
  | E1 : redraw_while_zero t = Some (?u, ?t1),
    E2 : redraw_while_zero ?t1 = Some (?v, _) |- _ =>
      destruct (valid_redraw Hv E1) as [Hu Hv1];
      destruct (valid_redraw Hv1 E2) as [Hv' _];
      destruct (redraw_Some _ E1) as (zs1 & -> & Hz1 & _);
      destruct (redraw_Some _ E2) as (zs2 & -> & Hz2 & _);
      exists u, v, zs1, zs2
  end.
  repeat (split; [reflexivity || assumption|]). reflexivity.
Qed.

End Invariants.

Section Volatility.

Import JS JSDate Rand Chart.
Open Scope Q_scope.
Context {M : MathLib}.
Variable LocalTZA : JSDate.Zone.

Lemma loop_vol_chain p n : forall i s t tr r,
  valid t -> loop LocalTZA p n i s t = Some (tr, r) ->
  Described.chain Described.vol_moves (vol s) (map (fun sp => vol (fst sp)) tr).
Proof.
  induction n as [|n IH]; intros i s t tr r Hv H; simpl loop in H; rand_inv.
  - exact I.
  - match goal with
    | E1 : loop_body _ _ _ _ _ = Some (?sp, ?t1), E2 : loop _ _ _ _ _ _ = Some _ |- _ =>
        assert (Hv1 := reads_valid (reads_loop_body _ _ _ _) Hv E1);
        destruct (loop_body_inv _ _ _ _ _ E1)
          as (v & ? & ? & ? & ? & ? & ? & ? & ? & Hstep & _ & _ & _ & _ & Hvol & _);
        cbn [map Described.chain]; split;
        [rewrite Hvol; eapply vol_step_moves; [exact Hv | exact Hstep]
        | exact (IH _ _ _ _ _ Hv1 E2)]
    end.
Qed.

Lemma chain_vol_range v l :
  Described.vol_in_range v -> Described.chain Described.vol_moves v l ->
  Forall Described.vol_in_range l.
Proof.
  revert v. induction l as [|y l IH]; intros v Hv Hc; [constructor|].
  destruct Hc as [Hm Hc].
  assert (Hy : Described.vol_in_range y) by (eapply vol_moves_range; eassumption).
  constructor; [exact Hy | exact (IH _ Hy Hc)].
Qed.

(** C7. On draws from the unit interval, the volatility of a call is
    seeded in [[0.004, 0.014]]; each turn of the loop leaves it as it
    was or rescales it by a factor in [[0.85, 1.55]] and clamps it to
    [[0.003, 0.03]], the latter exactly when the first draw of the turn
    is below 0.18; so after every turn it lies in [[0.003, 0.03]]. *)
Theorem volatility_invariant (now : Date) (days : Z) (t : list Q)
    (p : Seed) (tr : list (Running * SeriesPoint)) (r : list Q) :
  valid t ->
  generateTrace LocalTZA now days t = Some ((p, tr), r) ->
  (0.004 <= vol0 p /\ vol0 p <= 0.014) /\
  Described.chain Described.vol_moves (vol0 p) (map (fun sp => vol (fst sp)) tr) /\
  Forall (fun sp => 0.003 <= vol (fst sp) /\ vol (fst sp) <= 0.03) tr /\
  (forall v t' v' r',
     vol_step v t' = Some (v', r') ->
     exists u t1, t' = u :: t1 /\
       ((u < 0.18 /\
         exists f, t1 = f :: r' /\ v' = clamp (v * (0.85 + f * 0.7)) 0.003 0.03) \/
        (0.18 <= u /\ r' = t1 /\ v' = v))).
Proof.
  intros Hv H. destruct (generateTrace_inv _ _ _ _ H) as (t1 & Hseed & Hloop).
  assert (Hv1 := reads_valid (reads_seed _ _ _) Hv Hseed).
  destruct (seed_inv _ _ _ _ Hseed)
    as (r1 & r2 & r3 & r4 & r5 & r6 & -> & _ & _ & _ & Hvol & _).
  assert (Hr5 : unit_draw r5).
  { do 4 (inversion Hv as [|? ? _ Hv']; subst; clear Hv; rename Hv' into Hv).
    inversion Hv; subst. assumption. }
  assert (Hseeded : 0.004 <= vol0 p /\ vol0 p <= 0.014).
  { rewrite Hvol. destruct Hr5. split; lra. }
  assert (Hchain := loop_vol_chain _ _ _ _ Hv1 Hloop). cbn [vol] in Hchain.
  split; [exact Hseeded|]. split; [exact Hchain|]. split.
  - assert (Hr : Described.vol_in_range (vol0 p)).
    { destruct Hseeded. split; lra. }
    assert (Hall := chain_vol_range _ Hr Hchain).
    rewrite Forall_map in Hall. exact Hall.
  - intros v t' v' r'. apply vol_step_inv.
Qed.

(** C8. The drift of a call is [(U - 0.45) * 0.0012] for its fourth
    draw [U], drawn once with the seeds; for [U] in the unit interval it
    lies in [[-0.00225, 0.00126]] (in fact in [[-0.00054, 0.00066)]). *)
Theorem drift_range (now : Date) (days : Z) (t : list Q)
    (p : Seed) (tr : list (Running * SeriesPoint)) (r : list Q) :
  valid t ->
  generateTrace LocalTZA now days t = Some ((p, tr), r) ->
  exists U,
    nth_error t 3 = Some U /\
    drift p = (U - 0.45) * 0.0012 /\
    (-0.00225 <= drift p /\ drift p <= 0.00126) /\
    (-0.00054 <= drift p /\ drift p < 0.00066).
Proof.
  intros Hv H. destruct (generateTrace_inv _ _ _ _ H) as (t1 & Hseed & _).
  destruct (seed_inv _ _ _ _ Hseed)
    as (r1 & r2 & r3 & r4 & r5 & r6 & -> & _ & _ & Hdrift & _).
  assert (Hr4 : unit_draw r4).
  { do 3 (inversion Hv as [|? ? _ Hv']; subst; clear Hv; rename Hv' into Hv).
    inversion Hv; subst. assumption. }
  exists r4. split; [reflexivity|]. split; [exact Hdrift|].
  rewrite Hdrift. destruct Hr4. repeat split; lra.
Qed.

End Volatility.

(** ** The sample run *)

#[local] Existing Instance Sample.math.

Lemma valid_check (t : list Q) :
  forallb Rand.unit_draw_b t = true -> Rand.valid t.
Proof.
  intro H. apply Forall_forall. intros u Hu.
  rewrite forallb_forall in H. specialize (H u Hu).
  unfold Rand.unit_draw_b in H. apply andb_true_iff in H. destruct H as [H0 H1].
  split; [apply Qle_bool_iff, H0 | apply Qlt_bool_iff, H1].
Qed.

Lemma totalBalance_nonneg_witness :
  Forall (fun pt => 0 <= Chart.totalBalance pt) Sample.series3.
Proof.
  apply (totalBalance_nonneg (M := Sample.math) Sample.utc Sample.noon_2025_06_15 3
           Sample.tape (r := Sample.rest3)).
  vm_compute. reflexivity.
Defined.

Lemma activeUsers_bounds_witness :
  exists (base : Z) (u : Q),
    nth_error Sample.tape 2 = Some u /\
    inject_Z base = JS.Math_floor (40 + u * 160) /\
    (40 <= base < 200)%Z /\
    Forall (fun pt =>
              JS.Math_max 5 (JS.Math_round (0.6 * inject_Z base)) <= Chart.activeUsers pt /\
              Chart.activeUsers pt <= JS.Math_round (1.4 * inject_Z base)) Sample.series3.
Proof.
  apply (activeUsers_bounds (M := Sample.math) Sample.utc Sample.noon_2025_06_15 3
           (t := Sample.tape) (r := Sample.rest3)).
  - apply valid_check. vm_compute. reflexivity.
  - vm_compute. reflexivity.
Defined.


Lemma gaussian_log_positive_witness :
  exists u v zs1 zs2,
    Sample.zero_tape = zs1 ++ u :: zs2 ++ v :: [1 # 3] /\
    Forall (fun x => x == 0) zs1 /\ Forall (fun x => x == 0) zs2 /\
    (0 < u /\ u < 1) /\ (0 < v /\ v < 1) /\
    0 + ((1 + -2 * ((1 # 2) - 1)) / 2)
        * (1 - (2 * (355 # 113) * (1 # 4)) * (2 * (355 # 113) * (1 # 4)) / 2) * 1
    = 0 + JS.Math_sqrt (-2 * JS.Math_log u) * JS.Math_cos (2 * JS.Math_PI * v) * 1.
Proof.
  apply (gaussian_log_positive (M := Sample.math) 0 1 (t := Sample.zero_tape)).
  - apply valid_check. vm_compute. reflexivity.
  - reflexivity.
Defined.

Lemma volatility_invariant_witness :
  (0.004 <= Chart.vol0 Sample.seed3 /\ Chart.vol0 Sample.seed3 <= 0.014) /\
  Described.chain Described.vol_moves (Chart.vol0 Sample.seed3)
    (map (fun sp => Chart.vol (fst sp)) Sample.turns3) /\
  Forall (fun sp => 0.003 <= Chart.vol (fst sp) /\ Chart.vol (fst sp) <= 0.03)
    Sample.turns3 /\
  (forall v t' v' r',
     Chart.vol_step v t' = Some (v', r') ->
     exists u t1, t' = u :: t1 /\
       ((u < 0.18 /\
         exists f, t1 = f :: r' /\ v' = Chart.clamp (v * (0.85 + f * 0.7)) 0.003 0.03) \/
        (0.18 <= u /\ r' = t1 /\ v' = v))).
Proof.
  apply (volatility_invariant (M := Sample.math) Sample.utc Sample.noon_2025_06_15 3
           (t := Sample.tape) (r := Sample.rest3)).
  - apply valid_check. vm_compute. reflexivity.
  - vm_compute. reflexivity.
Defined.

Lemma drift_range_witness :
  exists U,
    nth_error Sample.tape 3 = Some U /\
    Chart.drift Sample.seed3 = (U - 0.45) * 0.0012 /\
    (-0.00225 <= Chart.drift Sample.seed3 /\ Chart.drift Sample.seed3 <= 0.00126) /\
    (-0.00054 <= Chart.drift Sample.seed3 /\ Chart.drift Sample.seed3 < 0.00066).
Proof.
  apply (drift_range (M := Sample.math) Sample.utc Sample.noon_2025_06_15 3
           (t := Sample.tape) (tr := Sample.turns3) (r := Sample.rest3)).
  - apply valid_check. vm_compute. reflexivity.
  - vm_compute. reflexivity.
Defined.

(** ** The calendar of [Date] *)

Section CalendarFacts.

Import JSDate Calendar.
Open Scope Z_scope.

Lemma DayFromYear_succ y : DayFromYear (y + 1) = DayFromYear y + DaysInYear y.
Proof.
  unfold DayFromYear, DaysInYear.
  destruct (Z.eqb_spec (y mod 4) 0), (Z.eqb_spec (y mod 100) 0),
    (Z.eqb_spec (y mod 400) 0); cbn [negb];
    Z.to_euclidean_division_equations; lia.
Qed.

Lemma DaysInYear_cases y : DaysInYear y = 365 \/ DaysInYear y = 366.
Proof.
  unfold DaysInYear.
  destruct (y mod 4 =? 0), (y mod 100 =? 0), (y mod 400 =? 0); cbn [negb]; auto.
Qed.

Lemma DayFromYear_lt y y' : y < y' -> DayFromYear y < DayFromYear y'.
Proof.
  intro H. unfold DayFromYear. Z.to_euclidean_division_equations; lia.
Qed.

Lemma YearFromTime_spec t :
  DayFromYear (YearFromTime t) <= Day t < DayFromYear (YearFromTime t + 1).
Proof.
  unfold YearFromTime. set (d := Day t).
  set (y0 := 1970 + 400 * d / 146097).
  cbv zeta.
  destruct (Z.ltb_spec d (DayFromYear y0)) as [Hlt|Hge].
  - replace (y0 - 1 + 1) with y0 by lia. split; [|exact Hlt].
    unfold DayFromYear in *. subst y0. Z.to_euclidean_division_equations; lia.
  - destruct (Z.leb_spec (DayFromYear (y0 + 1)) d) as [Hle|Hgt].
    + split; [exact Hle|].
      unfold DayFromYear in *. subst y0. Z.to_euclidean_division_equations; lia.
    + split; assumption.
Qed.

Lemma YearFromTime_unique t y :
  DayFromYear y <= Day t < DayFromYear (y + 1) -> YearFromTime t = y.
Proof.
  intro H. assert (S := YearFromTime_spec t).
  destruct (Z.lt_trichotomy (YearFromTime t) y) as [Hlt|[Heq|Hgt]]; [|exact Heq|].
  - assert (DayFromYear (YearFromTime t + 1) <= DayFromYear y).
    { destruct (Z.eq_dec (YearFromTime t + 1) y) as [->|]; [lia|].
      apply Z.lt_le_incl, DayFromYear_lt. lia. }
    lia.
  - assert (DayFromYear (y + 1) <= DayFromYear (YearFromTime t)).
    { destruct (Z.eq_dec (y + 1) (YearFromTime t)) as [->|]; [lia|].
      apply Z.lt_le_incl, DayFromYear_lt. lia. }
    lia.
Qed.

(** [YearFromTime t] is the largest year that has begun by [t]. *)
Lemma YearFromTime_largest t :
  TimeFromYear (YearFromTime t) <= t /\
  forall y, TimeFromYear y <= t -> y <= YearFromTime t.
Proof.
  assert (S := YearFromTime_spec t).
  assert (D := Z.div_mod t msPerDay ltac:(unfold msPerDay; lia)).
  assert (R := Z.mod_pos_bound t msPerDay ltac:(unfold msPerDay; lia)).
  unfold TimeFromYear, Day in *. split; [unfold msPerDay in *; lia|].
  intros y Hy.
  destruct (Z.le_gt_cases y (YearFromTime t)) as [|Hgt]; [assumption|].
  assert (DayFromYear (YearFromTime t + 1) <= DayFromYear y).
  { destruct (Z.eq_dec (YearFromTime t + 1) y) as [->|]; [lia|].
    apply Z.lt_le_incl, DayFromYear_lt. lia. }
  unfold msPerDay in *. lia.
Qed.

Lemma leap_agrees y : (DaysInYear y =? 366) = is_leap y.
Proof.
  unfold DaysInYear, is_leap.
  destruct (y mod 4 =? 0), (y mod 100 =? 0), (y mod 400 =? 0); reflexivity.
Qed.

Ltac split_ltb :=
  repeat match goal with
  | |- context [if ?a <? ?b then _ else _] => destruct (Z.ltb_spec a b); try lia
  end.

Ltac pair_eq :=
  repeat match goal with
  | |- (_, _) = (_, _) => apply f_equal2
  end; lia.

Lemma MonthFromTime_range t : 0 <= MonthFromTime t <= 11.
Proof. unfold MonthFromTime. cbv zeta. split_ltb. Qed.

Lemma civil_of_time_valid t : valid_civil (civil_of_time t).
Proof.
  assert (S := YearFromTime_spec t). rewrite DayFromYear_succ in S.
  unfold civil_of_time, valid_civil, DateFromTime, MonthFromTime, InLeapYear,
    DayWithinYear, days_in_month.
  rewrite leap_agrees. cbv zeta.
  set (y := YearFromTime t) in *. set (d := Day t) in *.
  assert (L : DaysInYear y = if is_leap y then 366 else 365).
  { rewrite <- leap_agrees. destruct (DaysInYear_cases y) as [E|E]; rewrite E; reflexivity. }
  rewrite L in S. clear L.
  destruct (is_leap y); split_ltb; cbn; lia.
Qed.

Ltac split_in E :=
  repeat match type of E with
  | context [if ?a <? ?b then _ else _] => destruct (Z.ltb_spec a b)
  end.

Lemma civil_of_time_next t t' :
  Day t' = Day t + 1 -> civil_of_time t' = next_day (civil_of_time t).
Proof.
  intro Hd.
  assert (S := YearFromTime_spec t). rewrite DayFromYear_succ in S.
  assert (L : DaysInYear (YearFromTime t) = if is_leap (YearFromTime t) then 366 else 365).
  { rewrite <- leap_agrees.
    destruct (DaysInYear_cases (YearFromTime t)) as [E|E]; rewrite E; reflexivity. }
  unfold civil_of_time, DateFromTime.
  remember (MonthFromTime t) as m eqn:Em.
  remember (MonthFromTime t') as m' eqn:Em'.
  unfold MonthFromTime in Em, Em'. cbv zeta in Em, Em'.
  unfold InLeapYear, DayWithinYear in *. rewrite leap_agrees in *.
  destruct (Z.lt_ge_cases (Day t + 1) (DayFromYear (YearFromTime t) + DaysInYear (YearFromTime t)))
    as [Hin|Hout].
  - assert (Hy : YearFromTime t' = YearFromTime t).
    { apply YearFromTime_unique. rewrite DayFromYear_succ. lia. }
    rewrite Hy, Hd in *.
    set (y := YearFromTime t) in *. set (d := Day t) in *.
    rewrite L in *. clear L.
    set (b := DayFromYear y) in *. clearbody b.
    unfold next_day, days_in_month.
    destruct (is_leap y); split_in Em; split_in Em'; subst m m'; try lia;
      cbn; split_ltb; pair_eq.
  - assert (Hy : YearFromTime t' = YearFromTime t + 1).
    { apply YearFromTime_unique. rewrite !DayFromYear_succ.
      destruct (DaysInYear_cases (YearFromTime t + 1)); lia. }
    rewrite Hy, Hd, ?leap_agrees, DayFromYear_succ in *.
    set (y := YearFromTime t) in *. set (d := Day t) in *.
    rewrite L in *. clear L.
    set (b := DayFromYear y) in *. clearbody b.
    unfold next_day, days_in_month.
    destruct (is_leap y), (is_leap (y + 1)); split_in Em; split_in Em'; subst m m'; try lia;
      cbn; split_ltb; pair_eq.
Qed.

End CalendarFacts.

(** ** Dates of the series *)

Unset Implicit Arguments.

Section DateFacts.

Import JS JSDate Calendar Chart.
Open Scope Z_scope.
Variable LocalTZA : JSDate.Zone.

Lemma Day_shift t k : Day (t + k * msPerDay) = Day t + k.
Proof. unfold Day, msPerDay. rewrite Z.div_add by lia. reflexivity. Qed.


(** [setDate(getDate() + k)] moves the local time by [k] days. *)
Lemma shiftDays_local t0 k :
  shiftDays LocalTZA (Some t0) k
  = TimeClip (UTC LocalTZA (LocalTime LocalTZA t0 + k * msPerDay)).
Proof.
  unfold shiftDays, setDate, getDate, num_add, option_map. do 2 f_equal.
  unfold MakeDate, MakeDay, DateFromTime, DayWithinYear, InLeapYear.
  set (t := LocalTime LocalTZA t0).
  assert (Hm := MonthFromTime_range t).
  rewrite (Z.div_small (MonthFromTime t) 12), (Z.mod_small (MonthFromTime t) 12) by lia.
  rewrite Z.add_0_r.
  assert (E := Z.div_mod t msPerDay). unfold Day, TimeWithinDay in *.
  unfold msPerDay in *. lia.
Qed.


(** *** The strings of [toISODate] *)

Lemma range_check_spec f n : forall lo,
  range_check f lo n = true -> forall z, lo <= z < lo + Z.of_nat n -> f z = true.
Proof.
  induction n as [|n IH]; intros lo H z Hz; [lia|].
  simpl in H. apply andb_true_iff in H. destruct H as [H0 H].
  destruct (Z.eq_dec z lo) as [->|]; [exact H0|].
  apply (IH (lo + 1) H). lia.
Qed.

Lemma digits_app n : forall acc s v rest,
  digits n acc s = Some (v, EmptyString) ->
  digits n acc (s ++ rest) = Some (v, rest).
Proof.
  induction n as [|n IH]; intros acc s v rest H; simpl in *.
  - inversion H; subst. reflexivity.
  - destruct s as [|c s]; [discriminate|]. simpl.
    destruct (digit_of_ascii c); [|discriminate]. apply IH, H.
Qed.

Lemma year_string y rest :
  1000 <= y <= 9999 ->
  digits 4 0 (Number_toString (Some y) ++ rest) = Some (y, rest).
Proof.
  intro H.
  assert (C : range_check year_reads_back 1000 (Z.to_nat 9000) = true)
    by (vm_compute; reflexivity).
  assert (E := range_check_spec _ _ _ C y). rewrite Z2Nat.id in E by lia.
  specialize (E ltac:(lia)). clear C. unfold year_reads_back in E.
  destruct (digits 4 0 (Number_toString (Some y))) as [[v [|]]|] eqn:D; try discriminate E.
  apply Z.eqb_eq in E. subst v. apply digits_app, D.
Qed.

Lemma padded_string n rest :
  1 <= n <= 31 ->
  digits 2 0 (padStart (Number_toString (Some n)) 2 "0" ++ rest) = Some (n, rest).
Proof.
  intro H.
  assert (C : range_check padded_reads_back 1 31 = true) by (vm_compute; reflexivity).
  assert (E := range_check_spec _ _ _ C n ltac:(lia)). clear C.
  unfold padded_reads_back in E.
  destruct (digits 2 0 (padStart (Number_toString (Some n)) 2 "0")) as [[v [|]]|] eqn:D;
    try discriminate E.
  apply Z.eqb_eq in E. subst v. apply digits_app, D.
Qed.

Lemma valid_civil_b_true c : valid_civil c -> valid_civil_b c = true.
Proof.
  destruct c as [[y m] d]. unfold valid_civil, valid_civil_b. intros [[? ?] [? ?]].
  rewrite !andb_true_iff, !Z.leb_le. auto.
Qed.

Lemma days_in_month_le y m : days_in_month y m <= 31.
Proof.
  unfold days_in_month.
  repeat match goal with
  | |- context [match ?x with _ => _ end] => destruct x
  end; lia.
Qed.

(** A date with a four-digit year is written in the ISO 8601 form of its
    calendar day in local time. *)
Lemma parse_toISODate t :
  1000 <= YearFromTime (LocalTime LocalTZA t) <= 9999 ->
  parse_iso (toISODate LocalTZA (Some t)) = Some (civil_of_time (LocalTime LocalTZA t)).
Proof.
  intro Hy. unfold toISODate, getFullYear, getMonth, getDate, num_add, option_map.
  set (lt := LocalTime LocalTZA t) in *.
  assert (V := civil_of_time_valid lt). 
  assert (Vb := valid_civil_b_true _ V).
  unfold civil_of_time, valid_civil in *.
  assert (Hm := MonthFromTime_range lt).
  assert (Hd : 1 <= DateFromTime lt <= 31).
  { destruct V as [_ [Hlo Hhi]]. split; [exact Hlo|].
    apply Z.le_trans with (1 := Hhi). apply days_in_month_le. }
  unfold parse_iso.
  rewrite year_string by exact Hy. cbn [dash append].
  rewrite padded_string by lia. cbn [dash append].
  replace (padStart (Number_toString (Some (DateFromTime lt))) 2 "0")
    with (padStart (Number_toString (Some (DateFromTime lt))) 2 "0" ++ "")%string.
  2:{ generalize (padStart (Number_toString (Some (DateFromTime lt))) 2 "0").
      intro s. induction s as [|c s IH]; simpl; [reflexivity | f_equal; exact IH]. }
  rewrite padded_string by exact Hd.
  rewrite Vb. reflexivity.
Qed.

(** *** Order of calendar dates *)

Lemma civil_lt_next c : valid_civil c -> civil_lt c (next_day c).
Proof.
  destruct c as [[y m] d]. unfold valid_civil, civil_lt, next_day.
  intros [Hm Hd].
  destruct (Z.ltb_spec d (days_in_month y m)); [lia|].
  destruct (Z.ltb_spec m 12); lia.
Qed.

Lemma civil_lt_trans a b c : civil_lt a b -> civil_lt b c -> civil_lt a c.
Proof.
  destruct a as [[y1 m1] d1], b as [[y2 m2] d2], c as [[y3 m3] d3].
  unfold civil_lt. lia.
Qed.

Lemma civil_lt_irrefl a : ~ civil_lt a a.
Proof. destruct a as [[y m] d]. unfold civil_lt. lia. Qed.

(** A later day number is a later calendar date. *)
Lemma civil_of_time_lt k : forall t t',
  Day t' = Day t + Z.of_nat (S k) ->
  civil_lt (civil_of_time t) (civil_of_time t').
Proof.
  induction k as [|k IH]; intros t t' H.
  - rewrite (civil_of_time_next t t') by lia.
    apply civil_lt_next, civil_of_time_valid.
  - apply civil_lt_trans with (civil_of_time (t + Z.of_nat (S k) * msPerDay)).
    + apply IH. apply Day_shift.
    + rewrite (civil_of_time_next (t + Z.of_nat (S k) * msPerDay) t').
      * apply civil_lt_next, civil_of_time_valid.
      * rewrite Day_shift. lia.
Qed.




End DateFacts.

(** A few dates, to compare with a calendar. *)

Example epoch_date :
  Chart.toISODate Sample.utc (Some 0%Z) = "1970-01-01"%string.
Proof. reflexivity. Qed.

Example leap_day_2024 :
  map (fun k => Chart.toISODate Sample.utc (Chart.shiftDays Sample.utc (Some 1709110800000%Z) k))
      [0; 1; 2]%Z
  = ["2024-02-28"; "2024-02-29"; "2024-03-01"]%string.
Proof. vm_compute. reflexivity. Qed.

Example no_leap_day_1900 :
  Chart.toISODate Sample.utc (Chart.shiftDays Sample.utc (Some (-2203945200000)%Z) 1) = "1900-03-01"%string.
Proof. vm_compute. reflexivity. Qed.

Example leap_day_2000 :
  Chart.toISODate Sample.utc (Chart.shiftDays Sample.utc (Some 951728400000%Z) 1) = "2000-02-29"%string.
Proof. vm_compute. reflexivity. Qed.

Example new_year_back_and_forth :
  map (fun k => Chart.toISODate Sample.utc (Chart.shiftDays Sample.utc (Some 1767222000000%Z) k))
      [-365; 0; 1]%Z
  = ["2024-12-31"; "2025-12-31"; "2026-01-01"]%string.
Proof. vm_compute. reflexivity. Qed.

(** At 18:00 UTC it is already the next day seven hours east of
    Greenwich. *)
Example local_date_east :
  (Chart.toISODate Sample.utc (Some 1750010400000%Z),
   Chart.toISODate Sample.east7 (Some 1750010400000%Z))
  = ("2025-06-15", "2025-06-16")%string.
Proof. vm_compute. reflexivity. Qed.

(** Beyond the range of [Date] there is no date left to write. *)
Example out_of_range_date :
  Chart.toISODate Sample.utc (Chart.shiftDays Sample.utc Sample.noon_2025_06_15 (-200000000))
  = "NaN-NaN-NaN"%string.
Proof. vm_compute. reflexivity. Qed.

(** Across a change of the offset a day of local time is not 24 hours.
    In New York 9 March 2025 had no 02:30: from 02:30 on 8 March, two
    shifts by one day end an hour later than one shift by two days. *)
Example shift_twice_across_change :
  (Chart.shiftDays Sample.new_york_spring
     (Chart.shiftDays Sample.new_york_spring (Some 1741419000000%Z) 1) 1,
   Chart.shiftDays Sample.new_york_spring (Some 1741419000000%Z) 2)
  = (Some (1741588200000 + 3600000)%Z, Some 1741588200000%Z).
Proof. vm_compute. reflexivity. Qed.

(** On 2 November 2025 New York had 01:30 twice: a shift by no days
    moves the second one back to the first. *)
Example shift_by_nothing_in_repeated_hour :
  Chart.shiftDays Sample.new_york_autumn (Some 1762065000000%Z) 0
  = Some (1762065000000 - 3600000)%Z.
Proof. vm_compute. reflexivity. Qed.

Section DateClaims.

Import JS JSDate Calendar Rand Chart.
Open Scope Z_scope.
Context {M : MathLib}.
Variable LocalTZA : JSDate.Zone.







End DateClaims.


Lemma nonzero_count_repeat (u : Q) (n : nat) :
  ~ u == 0 -> Rand.nonzero_count (repeat u n) = n.
Proof.
  intro Hu. induction n as [|n IH]; [reflexivity|].
  change (repeat u (S n)) with (u :: repeat u n).
  rewrite nonzero_count_cons, IH.
  destruct (Qeq_bool u 0) eqn:E; [|reflexivity].
  exfalso. apply Hu, Qeq_bool_eq, E.
Qed.

(** Why the years have to have four digits: called at noon of 15 June
    2025 for 400000 days, the generator returns a series whose first date
    is written [930-04-18], which is not of the form [YYYY-MM-DD]. *)
Lemma series_dates_not_iso :
  exists data r,
    Chart.generateTradingSeries (M := Sample.math) Sample.utc Sample.noon_2025_06_15 400000
      (repeat (1 # 2) (6 + 9 * Z.to_nat 400000)) = Some (data, r) /\
    option_map Chart.date (hd_error data) = Some "930-04-18"%string /\
    Calendar.parse_iso "930-04-18" = None /\
    ~ Calendar.contiguous_iso_dates
        (Chart.toISODate Sample.utc Sample.noon_2025_06_15) (map Chart.date data).
Proof.
  destruct (needs_generateTradingSeries (M := Sample.math) Sample.utc Sample.noon_2025_06_15 400000
              (repeat (1 # 2) (6 + 9 * Z.to_nat 400000))) as (data & r & E & _).
  { rewrite nonzero_count_repeat by discriminate. apply le_n. }
  exists data, r. split; [exact E|].
  destruct (generateTradingSeries_shape _ _ _ _ E) as [_ Hdates].
  unfold Chart.series_dates in Hdates.
  replace (Z.to_nat 400000) with (S (Z.to_nat 399999)) in Hdates by lia.
  rewrite <- cons_seq in Hdates.
  destruct data as [|pt data]; [discriminate Hdates|].
  cbn [map] in Hdates.
  apply (f_equal (hd ""%string)) in Hdates. cbn [hd] in Hdates.
  rename Hdates into Hfirst.
  assert (Hd : Chart.date pt = "930-04-18"%string).
  { rewrite Hfirst. vm_compute. reflexivity. }
  split; [cbn [hd_error option_map]; rewrite Hd; reflexivity|].
  split; [reflexivity|].
  intros (cs & Hparse & _).
  cbn [map] in Hparse. rewrite Hd in Hparse.
  destruct cs as [|c cs]; discriminate Hparse.
Qed.


(** ** Polling *)

Section PollingFacts.

Import Polling.
Open Scope Z_scope.
Variable apiBase : string.
Variable initialRequests : list Z.

Ltac fields := cbn [clock mounted aborted timer issued inflight settled cancelled
                    requests toasts].
Ltac fields_in H := cbn [clock mounted aborted timer issued inflight settled cancelled
                         requests toasts] in H.

Lemma fire_polling (t0 : Z) (n : nat) (w : World) :
  polling apiBase t0 n w ->
  polling apiBase t0 (S n) (fire apiBase w) /\
  clock (fire apiBase w) = t0 + period * Z.of_nat n.
Proof.
  intros (Hm & Ha & Ht & Hi & Htr). unfold polling, fire, load. rewrite Ht. fields.
  rewrite Ha. fields. split; [|reflexivity].
  split; [exact Hm|]. split; [reflexivity|]. split; [f_equal; unfold period; lia|]. split.
  - rewrite Hi, seq_S, map_app. reflexivity.
  - intros id Hin. rewrite map_app, in_app_iff in Hin. destruct Hin as [Hin|Hin].
    + destruct (Htr id Hin) as [H|H]; [left; right; exact H | right; exact H].
    + destruct Hin as [<-|[]]. left. left. reflexivity.
Qed.

Lemma fires_polling (t0 T : Z) (fuel : nat) : forall (n : nat) (w : World),
  polling apiBase t0 n w ->
  fuel = Z.to_nat ((T - (t0 + period * Z.of_nat n) + period) / period) ->
  exists n', (n <= n')%nat /\
    polling apiBase t0 n' (fires apiBase fuel T w) /\
    T < t0 + period * Z.of_nat n' /\
    (n' = n /\ fires apiBase fuel T w = w \/
     t0 + period * Z.of_nat n' <= T + period /\
     clock (fires apiBase fuel T w) <= T).
Proof.
  induction fuel as [|fuel IH]; intros n w Hp Hf.
  - exists n. split; [lia|]. split; [exact Hp|]. split.
    + destruct (Z.lt_ge_cases T (t0 + period * Z.of_nat n)) as [|Hge]; [assumption|].
      assert (1 <= (T - (t0 + period * Z.of_nat n) + period) / period).
      { apply Z.div_le_lower_bound; unfold period in *; lia. }
      lia.
    + left. split; reflexivity.
  - assert (Hdue : t0 + period * Z.of_nat n <= T).
    { destruct (Z.le_gt_cases (t0 + period * Z.of_nat n) T) as [|Hgt]; [assumption|].
      assert ((T - (t0 + period * Z.of_nat n) + period) / period <= 0).
      { apply Z.lt_succ_r. apply Z.div_lt_upper_bound; unfold period in *; lia. }
      lia. }
    destruct Hp as (Hm & Ha & Ht & Hrest) eqn:Ep. clear Ep.
    simpl fires. rewrite Ht.
    destruct (Z.leb_spec (t0 + period * Z.of_nat n) T) as [_|]; [|lia].
    destruct (fire_polling t0 n w (conj Hm (conj Ha (conj Ht Hrest)))) as [Hp' Hc'].
    destruct (IH (S n) (fire apiBase w) Hp') as (n' & Hle & Hp'' & Hlt & Hcases).
    + replace (T - (t0 + period * Z.of_nat (S n)) + period)
        with (T - (t0 + period * Z.of_nat n) + period + (-1) * period) by lia.
      rewrite Z.div_add by (unfold period; lia). lia.
    + exists n'. split; [lia|]. split; [exact Hp''|]. split; [exact Hlt|].
      right. destruct Hcases as [[-> ->]|[H1 H2]].
      * split; [|rewrite Hc'; exact Hdue].
        unfold period in *. lia.
      * split; assumption.
Qed.

Lemma settle_polling (t0 : Z) (n : nat) (id : Z) (r : Reply) (w : World) :
  polling apiBase t0 n w ->
  polling apiBase t0 n (settle id r w) /\ clock (settle id r w) = clock w.
Proof.
  intros (Hm & Ha & Ht & Hi & Htr). unfold settle.
  destruct (existsb (Z.eqb id) (inflight w)) eqn:E;
    [|split; [repeat split; assumption | reflexivity]].
  assert (Hleft : forall id', In id' (inflight w) ->
            id' = id \/ In id' (filter (fun i => negb (id =? i)) (inflight w))).
  { intros id' Hin. destruct (Z.eq_dec id' id) as [->|Hne]; [left; reflexivity|].
    right. apply filter_In. split; [exact Hin|].
    apply negb_true_iff, Z.eqb_neq. congruence. }
  destruct r as [success data|name message]; [|destruct (String.eqb name "AbortError")];
    unfold polling; fields; (split; [|reflexivity]);
    (split; [exact Hm|]); (split; [exact Ha|]); (split; [exact Ht|]);
    (split; [exact Hi|]); intros id' Hin;
    (destruct (Htr id' Hin) as [H|[H|H]];
     [destruct (Hleft id' H) as [->|H']|..]); cbn [In]; auto.
Qed.

Lemma advance_on_time (t0 ms : Z) (n : nat) (w : World) :
  on_time apiBase t0 n w ->
  exists n', on_time apiBase t0 n' (advance apiBase ms w) /\
             clock (advance apiBase ms w) = clock w + Z.max 0 ms.
Proof.
  intros (Hp & Hn & Hc).
  assert (Ht : timer w = Some (t0 + period * Z.of_nat n)) by apply Hp.
  unfold advance, run_until. rewrite Ht. cbv zeta.
  destruct (fires_polling t0 (clock w + Z.max 0 ms) _ n w Hp eq_refl)
    as (n' & Hle & Hp' & Hlt & Hcases).
  set (w' := fires apiBase _ _ w) in *.
  exists n'. split; [|reflexivity].
  split; [|split; [lia|]].
  - destruct Hp' as (Hm & Ha & Ht' & Hi & Htr). unfold polling. fields.
    repeat split; assumption.
  - fields. destruct Hcases as [[-> _]|[H _]]; unfold period in *; lia.
Qed.

Lemma exec_on_time (t0 : Z) (es : list Event) : forall (n : nat) (w : World),
  on_time apiBase t0 n w ->
  exists n', on_time apiBase t0 n' (exec apiBase es w) /\
             clock (exec apiBase es w) = clock w + elapsed es.
Proof.
  induction es as [|e es IH]; intros n w H.
  - exists n. split; [exact H | cbn; lia].
  - destruct e as [ms|id r]; cbn [exec fold_left step elapsed].
    + destruct (advance_on_time t0 ms n w H) as (n1 & H1 & Hc1).
      destruct (IH n1 _ H1) as (n' & H' & Hc'). exists n'. split; [exact H'|].
      unfold exec in Hc'. rewrite Hc', Hc1. lia.
    + destruct H as (Hp & Hn & Hc).
      destruct (settle_polling t0 n id r w Hp) as [Hp1 Hc1].
      destruct (IH n (settle id r w)) as (n' & H' & Hc').
      { split; [exact Hp1|]. split; [exact Hn|]. rewrite Hc1. exact Hc. }
      exists n'. split; [exact H'|]. unfold exec in Hc'. rewrite Hc', Hc1. reflexivity.
Qed.

Lemma effect_on_time (t0 : Z) : on_time apiBase t0 1 (effect apiBase initialRequests t0).
Proof.
  unfold on_time, polling, effect, load. fields. cbn [app map seq fst In Z.of_nat Pos.of_succ_nat].
  unfold period.
  split; [|split; [apply le_n | lia]].
  split; [reflexivity|]. split; [reflexivity|]. split; [f_equal; lia|].
  split; [do 2 f_equal; lia|].
  intros id [<-|[]]. left. left. reflexivity.
Qed.

(** What the abort of [cleanup] does to the requests in flight. *)
Lemma abort_all (l : list Z) : forall (w : World),
  (forall id, In id (inflight w) -> In id l) ->
  let w' := fold_left (fun w' id => settle id AbortError w') l w in
  inflight w' = [] /\
  (forall id, In id (inflight w) \/ In id (cancelled w) -> In id (cancelled w')) /\
  mounted w' = mounted w /\ aborted w' = aborted w /\ timer w' = timer w /\
  issued w' = issued w /\ settled w' = settled w /\
  requests w' = requests w /\ toasts w' = toasts w.
Proof.
  induction l as [|a l IH]; intros w Hin; cbv zeta.
  - cbn [fold_left]. split.
    + destruct (inflight w) as [|x xs]; [reflexivity|]. destruct (Hin x (or_introl eq_refl)).
    + split; [|repeat split]. intros id [H|H]; [destruct (Hin id H) | exact H].
  - cbn [fold_left].
    set (w1 := settle a AbortError w).
    assert (H1 : (forall id, In id (inflight w1) -> In id l) /\
                 (forall id, In id (inflight w) \/ In id (cancelled w) ->
                             In id (inflight w1) \/ In id (cancelled w1)) /\
                 mounted w1 = mounted w /\ aborted w1 = aborted w /\ timer w1 = timer w /\
                 issued w1 = issued w /\ settled w1 = settled w /\
                 requests w1 = requests w /\ toasts w1 = toasts w).
    { unfold w1, settle, AbortError.
      destruct (existsb (Z.eqb a) (inflight w)) eqn:E.
      - cbn [String.eqb Ascii.eqb Bool.eqb]. fields. split; [|split; [|repeat split]].
        + intros id H. apply filter_In in H. destruct H as [H Hne].
          apply negb_true_iff, Z.eqb_neq in Hne.
          destruct (Hin id H) as [->|]; [congruence | assumption].
        + intros id [H|H]; [|right; right; exact H].
          destruct (Z.eq_dec a id) as [->|Hne]; [right; left; reflexivity|].
          left. apply filter_In. split; [exact H|].
          apply negb_true_iff, Z.eqb_neq. exact Hne.
      - split; [|split; [auto|repeat split]].
        intros id H. destruct (Hin id H) as [->|]; [|assumption].
        exfalso. assert (existsb (Z.eqb id) (inflight w) = true); [|congruence].
        apply existsb_exists. exists id. split; [exact H | apply Z.eqb_refl]. }
    destruct H1 as (Hin1 & Hc1 & Em & Ea & Et & Ei & Es & Er & Eo).
    destruct (IH w1 Hin1) as (Hnil & Hc & Em' & Ea' & Et' & Ei' & Es' & Er' & Eo').
    split; [exact Hnil|]. split; [intros id H; apply Hc, Hc1, H|].
    repeat split; congruence.
Qed.

(** Once the timer is cleared and nothing is in flight, nothing happens
    any more. *)
Lemma exec_idle (es : list Event) : forall (w : World),
  timer w = None -> inflight w = [] ->
  let w' := exec apiBase es w in
  issued w' = issued w /\ requests w' = requests w /\ toasts w' = toasts w /\
  settled w' = settled w /\ cancelled w' = cancelled w.
Proof.
  induction es as [|e es IH]; intros w Ht Hi; cbv zeta; [repeat split|].
  cbn [exec fold_left]. 
  assert (H1 : timer (step apiBase w e) = None /\ inflight (step apiBase w e) = [] /\
               issued (step apiBase w e) = issued w /\
               requests (step apiBase w e) = requests w /\
               toasts (step apiBase w e) = toasts w /\
               settled (step apiBase w e) = settled w /\
               cancelled (step apiBase w e) = cancelled w).
  { destruct e as [ms|id r]; cbn [step].
    - unfold advance, run_until. rewrite Ht. fields. repeat split; assumption.
    - unfold settle. rewrite Hi. cbn [existsb]. repeat split; assumption. }
  destruct H1 as (Ht1 & Hi1 & E1 & E2 & E3 & E4 & E5).
  destruct (IH _ Ht1 Hi1) as (F1 & F2 & F3 & F4 & F5). unfold exec in *.
  repeat split; congruence.
Qed.

(** C9. While the effect is in place, whatever replies arrive and
    whenever they do (data, or errors of any kind), the fetches started
    after [ms] milliseconds are those of [apiBase/api/user/table] at the
    time [t0] of mounting and then every 30000 ms, and nothing else. When
    the cleanup runs (the component unmounts, or the effect is about to
    run again), the signal is aborted: every request in flight is
    cancelled, so that every fetch started either had its reply dealt
    with before or is cancelled now and nothing stays in flight; and
    from then on no fetch starts and neither the table nor the errors
    shown change. *)
Theorem polling_every_30s (t0 : Z) (es : list Event) :
  let w := exec apiBase es (effect apiBase initialRequests t0) in
  period = 30000 /\
  clock w = t0 + elapsed es /\
  issued w =
    map (fun k => (t0 + 30000 * Z.of_nat k, (apiBase ++ "/api/user/table")%string))
        (seq 0 (S (Z.to_nat (elapsed es / 30000)))) /\
  let w' := cleanup w in
  aborted w' = true /\
  (forall id, In id (inflight w) -> In id (cancelled w')) /\
  inflight w' = [] /\
  (forall id, In id (map fst (issued w)) -> In id (settled w) \/ In id (cancelled w')) /\
  (forall es', let w'' := exec apiBase es' w' in
               issued w'' = issued w /\ requests w'' = requests w /\
               toasts w'' = toasts w).
Proof.
  cbv zeta.
  destruct (exec_on_time t0 es 1 _ (effect_on_time t0)) as (n & (Hp & Hn & Hc) & Hclock).
  set (w := exec apiBase es (effect apiBase initialRequests t0)) in *.
  change (clock (effect apiBase initialRequests t0)) with t0 in Hclock.
  destruct Hp as (Hm & Ha & Ht & Hi & Htr).
  split; [reflexivity|]. split; [exact Hclock|]. split.
  - rewrite Hi. unfold url. change period with 30000.
    replace (S (Z.to_nat (elapsed es / 30000))) with n; [reflexivity|].
    rewrite Hclock in Hc. unfold period in Hc.
    assert (E : elapsed es / 30000 = Z.of_nat n - 1).
    { symmetry. apply (Z.div_unique _ _ _ (elapsed es - 30000 * (Z.of_nat n - 1))); lia. }
    rewrite E. lia.
  - unfold cleanup.
    match goal with
    | |- context [fold_left _ (inflight w) ?w1] =>
        destruct (abort_all (inflight w) w1 (fun id H => H))
          as (Hnil & Hcan & _ & Hab & Htm & Hiss & Hset & Hreq & Hto)
    end.
    fields_in Hcan. fields_in Hab. fields_in Htm. fields_in Hiss. fields_in Hset.
    fields_in Hreq. fields_in Hto.
    split; [exact Hab|]. split; [intros id H; apply Hcan; left; exact H|].
    split; [exact Hnil|]. split.
    + intros id Hin. destruct (Htr id Hin) as [H|[H|H]].
      * right. apply Hcan. left. exact H.
      * left. exact H.
      * right. apply Hcan. right. exact H.
    + intro es'.
      match goal with
      | |- context [exec apiBase es' ?w1] =>
          destruct (exec_idle es' w1 Htm Hnil) as (F1 & F2 & F3 & _)
      end.
      rewrite F1, F2, F3, Hiss, Hreq, Hto. repeat split.
Qed.

End PollingFacts.


Lemma polling_every_30s_witness :
  let w := Polling.exec "https://api.example" SampleRuns.polling_run
             (Polling.effect "https://api.example" [] 1000) in
  Polling.issued w
  = [(1000, "https://api.example/api/user/table"%string);
     (31000, "https://api.example/api/user/table"%string);
     (61000, "https://api.example/api/user/table"%string);
     (91000, "https://api.example/api/user/table"%string)]%Z /\
  Polling.toasts w = ["Failed to fetch"%string] /\
  Polling.requests w = [7; 8]%Z /\
  Polling.inflight w = [91000; 61000]%Z /\
  Polling.cancelled (Polling.cleanup w) = [61000; 91000]%Z.
Proof.
  destruct (polling_every_30s "https://api.example" [] 1000 SampleRuns.polling_run) as (_ & _ & Hi & _).
  cbv zeta. split; [rewrite Hi; reflexivity|].
  vm_compute. repeat split.
Defined.

(** * More of the components *)

(** ** Seeds, shocks and users of the generator *)

Section GeneratorSteps.

Import JS JSDate Rand Chart.
Open Scope Q_scope.
Context {M : MathLib}.
Variable LocalTZA : JSDate.Zone.

Lemma valid_cons_inv u t : valid (u :: t) -> unit_draw u /\ valid t.
Proof. intro H. inversion H; subst. split; assumption. Qed.

Lemma shock_draw_inv t s r :
  shock_draw t = Some (s, r) ->
  exists u t1, t = u :: t1 /\
    ((u < 0.12 /\ exists sg m, t1 = sg :: m :: r /\
        s = (if Qlt_bool 0.5 sg then 1 else -1) * (0.008 + m * 0.02)) \/
     (0.12 <= u /\ r = t1 /\ s = 0)).
Proof.
  unfold shock_draw. intro H. rand_inv.
  match goal with E : random _ = Some _ |- _ => apply random_Some in E; subst end.
  do 2 eexists. split; [reflexivity|].
  match goal with
  | H : (if Qlt_bool ?a ?b then _ else _) _ = Some _ |- _ =>
      destruct (Qlt_bool a b) eqn:Eb
  end.
  - left. apply Qlt_bool_iff in Eb. split; [exact Eb|]. rand_inv.
    repeat match goal with
    | E : random _ = Some _ |- _ => apply random_Some in E; subst
    end.
    do 2 eexists. split; reflexivity.
  - right. apply Qlt_bool_false in Eb. rand_inv. auto.
Qed.

Lemma user_shock_inv shock t us r :
  user_shock shock t = Some (us, r) ->
  (shock == 0 /\ us = 0 /\ r = t) \/
  (~ shock == 0 /\ exists u, t = u :: r /\ us = Math_sign shock * (1 + u * 2)).
Proof.
  unfold user_shock. destruct (Qeq_bool shock 0) eqn:E; cbn [negb]; intro H.
  - left. apply Qeq_bool_eq in E. rand_inv. auto.
  - right. apply Qeq_bool_neq in E. split; [exact E|]. rand_inv.
    match goal with E : random _ = Some _ |- _ => apply random_Some in E; subst end.
    eexists. split; reflexivity.
Qed.

Lemma Math_sign_pos x : 0 < x -> Math_sign x = 1.
Proof.
  intro H. unfold Math_sign. apply Qlt_bool_iff in H. rewrite H. reflexivity.
Qed.

Lemma Math_sign_neg x : x < 0 -> Math_sign x = -1.
Proof.
  intro H. unfold Math_sign.
  assert (H0 : Qlt_bool 0 x = false) by (apply Qlt_bool_false; lra).
  apply Qlt_bool_iff in H. rewrite H0, H. reflexivity.
Qed.


(** X2. On draws from the unit interval, the shock of a turn is 0, or
    between 0.8% and 2.8% up or down; it is 0 exactly when the draw that
    decides on it is at least 0.12. *)
Theorem shock_draw_range (t : list Q) (s : Q) (r : list Q) :
  valid t ->
  shock_draw t = Some (s, r) ->
  exists u, hd_error t = Some u /\
    (s == 0 <-> 0.12 <= u) /\
    (s == 0 \/ (0.008 <= s /\ s < 0.028) \/ (-0.028 < s /\ s <= -0.008)).
Proof.
  intros Hv H.
  destruct (shock_draw_inv t s r H)
    as (u & t1 & -> & [(Hu & sg & m & -> & ->)|(Hu & _ & ->)]).
  - exists u. split; [reflexivity|].
    apply valid_cons_inv in Hv. destruct Hv as [_ Hv].
    apply valid_cons_inv in Hv. destruct Hv as [_ Hv].
    apply valid_cons_inv in Hv. destruct Hv as [[Hm0 Hm1] _].
    destruct (Qlt_bool 0.5 sg); (split; [split; intro; lra|]).
    + right. left. split; lra.
    + right. right. split; lra.
  - exists u. split; [reflexivity|]. split.
    + split; intro; [exact Hu | reflexivity].
    + left. reflexivity.
Qed.

(** X3. The push a shock gives the users has the sign of the shock and
    a size from 1 to 3; without a shock there is none, and no draw is
    used. *)
Theorem user_shock_range (shock : Q) (t : list Q) (us : Q) (r : list Q) :
  valid t ->
  user_shock shock t = Some (us, r) ->
  (shock == 0 -> us = 0 /\ r = t) /\
  (0 < shock -> 1 <= us /\ us <= 3) /\
  (shock < 0 -> -3 <= us /\ us <= -1).
Proof.
  intros Hv H.
  destruct (user_shock_inv shock t us r H) as [(Hz & -> & ->)|(Hnz & u & -> & ->)].
  - split; [auto|]. split; intro; lra.
  - apply valid_cons_inv in Hv. destruct Hv as [[Hu0 Hu1] _].
    split; [intro; contradiction|]. split; intro Hs.
    + rewrite (Math_sign_pos shock Hs). split; lra.
    + rewrite (Math_sign_neg shock Hs). split; lra.
Qed.

End GeneratorSteps.

Section GeneratorUsers.

Import JS JSDate Rand Chart.
Open Scope Q_scope.
Context {M : MathLib}.
Variable LocalTZA : JSDate.Zone.

(** The bounds the users are clamped to. *)
Let users_lo (p : Seed) : Q := Math_max 5 (Math_round (baseUsers p * 0.6)).
Let users_hi (p : Seed) : Q := Math_round (baseUsers p * 1.4).

Lemma clamp_cases n lo hi :
  clamp n lo hi = lo \/ clamp n lo hi = hi \/ clamp n lo hi = n.
Proof.
  unfold clamp, Math_max, Math_min.
  destruct (Qle_bool hi n); destruct (Qle_bool lo _); auto.
Qed.

(** Clamping to bounds that hold [a] moves no further from [a]. *)
Lemma clamp_near a n lo hi d :
  lo <= a -> a <= hi -> a - d <= n -> n <= a + d -> 0 <= d ->
  a - d <= clamp n lo hi /\ clamp n lo hi <= a + d.
Proof.
  intros Hlo Hhi Hn0 Hn1 Hd. rewrite clamp_Qmax.
  assert (Hmin := Q.min_spec hi n). assert (Hmax := Q.max_spec lo (Qmin hi n)).
  set (m := Qmin hi n) in *. set (y := Qmax lo m) in *.
  destruct Hmin as [[? ?]|[? ?]]; destruct Hmax as [[? ?]|[? ?]]; split; lra.
Qed.

Lemma Math_round_near (k : Z) (x : Q) :
  inject_Z k - 6 < x -> x < inject_Z k + 6 ->
  exists f : Z, Math_round x = inject_Z f /\ (k - 6 <= f <= k + 6)%Z.
Proof.
  intros H0 H1. exists (Qfloor (x + (1 # 2))). split; [reflexivity|].
  assert (L := Qfloor_le (x + (1 # 2))). assert (U := Qlt_floor (x + (1 # 2))).
  set (f := Qfloor (x + (1 # 2))) in *.
  assert (A : inject_Z f < inject_Z (k + 7)).
  { rewrite inject_Z_plus. change (inject_Z 7) with 7. lra. }
  assert (B : inject_Z (k - 7) < inject_Z f).
  { rewrite inject_Z_plus in U. change (inject_Z 1) with 1 in U.
    unfold Z.sub. rewrite inject_Z_plus. change (inject_Z (- (7))) with (-7). lra. }
  rewrite <- Zlt_Qlt in A, B. lia.
Qed.

Lemma users_bounds_whole (p : Seed) (b : Z) :
  baseUsers p = inject_Z b -> (40 <= b <= 199)%Z ->
  exists lo hi : Z,
    users_lo p = inject_Z lo /\ users_hi p = inject_Z hi /\
    (24 <= lo)%Z /\ (lo <= b)%Z /\ (b <= hi)%Z /\ (hi <= 279)%Z.
Proof.
  intros Hb Hr. unfold users_lo, users_hi. rewrite Hb.
  assert (Hq : 40 <= inject_Z b /\ inject_Z b <= 199).
  { change 40 with (inject_Z 40). change 199 with (inject_Z 199).
    rewrite <- !Zle_Qle. lia. }
  destruct Hq as [Hq0 Hq1].
  set (lo6 := Qfloor (inject_Z b * 0.6 + (1 # 2))).
  set (hi14 := Qfloor (inject_Z b * 1.4 + (1 # 2))).
  assert (L6 := Qfloor_le (inject_Z b * 0.6 + (1 # 2))).
  assert (U6 := Qlt_floor (inject_Z b * 0.6 + (1 # 2))).
  assert (L14 := Qfloor_le (inject_Z b * 1.4 + (1 # 2))).
  assert (U14 := Qlt_floor (inject_Z b * 1.4 + (1 # 2))).
  fold lo6 in L6, U6. fold hi14 in L14, U14.
  rewrite inject_Z_plus in U6, U14. change (inject_Z 1) with 1 in U6, U14.
  assert (A6 : (24 <= lo6 <= b)%Z).
  { split.
    - apply Z.lt_succ_r. rewrite Zlt_Qlt. unfold Z.succ.
      rewrite inject_Z_plus. change (inject_Z 24) with 24. change (inject_Z 1) with 1. lra.
    - rewrite Zle_Qle. lra. }
  assert (A14 : (b <= hi14 <= 279)%Z).
  { split.
    - apply Z.lt_succ_r. rewrite Zlt_Qlt. unfold Z.succ.
      rewrite inject_Z_plus. change (inject_Z 1) with 1. lra.
    - apply Z.lt_succ_r. rewrite Zlt_Qlt.
      change (inject_Z (Z.succ 279)) with 280. lra. }
  exists (Z.max 5 lo6), hi14.
  split; [|split; [reflexivity|lia]].
  unfold Math_round. fold lo6. unfold Math_max.
  destruct (Qle_bool 5 (inject_Z lo6)) eqn:E.
  - f_equal. lia.
  - apply Qle_bool_false in E. change 5 with (inject_Z 5) in E.
    rewrite <- Zlt_Qlt in E. lia.
Qed.

(** One turn keeps the users a whole number within the bounds, and at
    most six away from where they were. *)
Lemma users_turn (p : Seed) (i : Z) (s : Running) (t : list Q)
    (sp : Running * SeriesPoint) (r : list Q) (b k : Z) :
  baseUsers p = inject_Z b -> (40 <= b <= 199)%Z ->
  users s = inject_Z k -> users_lo p <= users s -> users s <= users_hi p ->
  valid t ->
  loop_body LocalTZA p i s t = Some (sp, r) ->
  exists k' : Z,
    users (fst sp) = inject_Z k' /\
    activeUsers (snd sp) = inject_Z k' /\
    users_lo p <= users (fst sp) /\ users (fst sp) <= users_hi p /\
    (k - 6 <= k' <= k + 6)%Z /\ (24 <= k' <= 279)%Z.
Proof.
  intros Hb Hr Hk Hlo Hhi Hv Hbody.
  destruct (loop_body_inv _ _ _ _ _ Hbody)
    as (v & t1 & shock & t2 & noise & t3 & us & t4 & u
        & Hvol & Hshock & Hg & Hus & -> & _ & _ & Husers & _ & _ & Hact).
  assert (Hv1 := reads_valid (reads_vol_step _) Hv Hvol).
  assert (Hv2 := reads_valid reads_shock_draw Hv1 Hshock).
  assert (Hv3 := reads_valid (reads_gaussian _ _) Hv2 Hg).
  assert (Hv4 := reads_valid (reads_user_shock _) Hv3 Hus).
  apply valid_cons_inv in Hv4. destruct Hv4 as [[Hu0 Hu1] _].
  assert (Hush : -3 < us /\ us < 3).
  { destruct (user_shock_inv shock t3 us (u :: r) Hus) as [(_ & -> & _)|(_ & w & Et & ->)].
    - split; lra.
    - rewrite Et in Hv3. apply valid_cons_inv in Hv3. destruct Hv3 as [[Hw0 Hw1] _].
      unfold Math_sign. destruct (Qlt_bool 0 shock); [|destruct (Qlt_bool shock 0)];
        split; lra. }
  destruct (Math_round_near k (users s + (u - 0.5) * 6 + us)) as (f & Hf & Hfr);
    [rewrite Hk; lra | rewrite Hk; lra |].
  destruct (users_bounds_whole p b Hb Hr) as (lo & hi & Elo & Ehi & Hlo24 & _ & _ & Hhi279).
  fold (users_lo p) (users_hi p) in Husers.
  assert (Hord : users_lo p <= users_hi p) by lra.
  destruct (clamp_bounds (Math_round (users s + (u - 0.5) * 6 + us)) Hord) as [Hc0 Hc1].
  destruct (clamp_near (users s) (Math_round (users s + (u - 0.5) * 6 + us))
              (users_lo p) (users_hi p) 6) as [Hn0 Hn1]; try lra.
  { rewrite Hf, Hk. unfold Z.sub in Hfr.
    assert (Q0 : inject_Z (k + - (6)) <= inject_Z f) by (rewrite <- Zle_Qle; lia).
    rewrite inject_Z_plus in Q0. change (inject_Z (- (6))) with (-6) in Q0. lra. }
  { rewrite Hf, Hk.
    assert (Q1 : inject_Z f <= inject_Z (k + 6)) by (rewrite <- Zle_Qle; lia).
    rewrite inject_Z_plus in Q1. change (inject_Z 6) with 6 in Q1. lra. }
  assert (Hwhole : exists k' : Z, users (fst sp) = inject_Z k').
  { rewrite Husers.
    destruct (clamp_cases (Math_round (users s + (u - 0.5) * 6 + us))
                (users_lo p) (users_hi p)) as [E|[E|E]]; rewrite E; eauto. }
  destruct Hwhole as [k' Hk'].
  exists k'. rewrite Hact. split; [exact Hk'|]. split; [exact Hk'|].
  rewrite <- Husers in Hc0, Hc1, Hn0, Hn1.
  split; [exact Hc0|]. split; [exact Hc1|].
  rewrite Hk' in Hc0, Hc1, Hn0, Hn1. rewrite Hk in Hn0, Hn1.
  rewrite Elo in Hc0. rewrite Ehi in Hc1.
  assert (Z0 : inject_Z (k - 6) <= inject_Z k').
  { unfold Z.sub. rewrite inject_Z_plus. change (inject_Z (- (6))) with (-6). lra. }
  assert (Z1 : inject_Z k' <= inject_Z (k + 6)).
  { rewrite inject_Z_plus. change (inject_Z 6) with 6. lra. }
  rewrite <- Zle_Qle in Z0, Z1, Hc0, Hc1. lia.
Qed.

Lemma loop_users (p : Seed) (b : Z) :
  baseUsers p = inject_Z b -> (40 <= b <= 199)%Z ->
  forall n i s t tr r k,
    users s = inject_Z k -> users_lo p <= users s -> users s <= users_hi p ->
    valid t ->
    loop LocalTZA p n i s t = Some (tr, r) ->
    Described.chain (fun a c => a - 6 <= c /\ c <= a + 6) (users s)
      (map (fun sp => activeUsers (snd sp)) tr) /\
    Forall (fun sp => exists u : Z,
              activeUsers (snd sp) = inject_Z u /\ (24 <= u <= 279)%Z) tr.
Proof.
  intros Hb Hr. induction n as [|n IH]; intros i s t tr r k Hk Hlo Hhi Hv H;
    simpl loop in H; rand_inv.
  - split; [exact I | constructor].
  - match goal with
    | E1 : loop_body _ _ _ _ _ = Some (?sp, ?t1), E2 : loop _ _ _ _ _ _ = Some _ |- _ =>
        assert (Hv1 := reads_valid (reads_loop_body _ _ _ _) Hv E1);
        destruct (users_turn p i s t sp t1 b k Hb Hr Hk Hlo Hhi Hv E1)
          as (k' & Hk' & Hact & Hlo' & Hhi' & Hstep & Hrange);
        destruct (IH _ _ _ _ _ k' Hk' Hlo' Hhi' Hv1 E2) as [Hchain Hall]
    end.
    split.
    + cbn [map Described.chain]. split.
      * rewrite Hact, Hk. destruct Hstep as [S0 S1].
        rewrite Zle_Qle in S0, S1. unfold Z.sub in S0.
        rewrite inject_Z_plus in S0, S1.
        change (inject_Z (- (6))) with (-6) in S0. change (inject_Z 6) with 6 in S1.
        split; lra.
      * rewrite Hact, <- Hk'. exact Hchain.
    + constructor; [|exact Hall]. exists k'. split; [exact Hact | exact Hrange].
Qed.

Lemma seed_base_whole now days t p r :
  valid t -> seed LocalTZA now days t = Some (p, r) ->
  exists b : Z, baseUsers p = inject_Z b /\ (40 <= b <= 199)%Z.
Proof.
  intros Hv Hseed.
  destruct (seed_inv _ _ _ _ Hseed)
    as (r1 & r2 & r3 & r4 & r5 & r6 & -> & _ & Hbase & _).
  do 2 (apply valid_cons_inv in Hv; destruct Hv as [_ Hv]).
  apply valid_cons_inv in Hv. destruct Hv as [Hr3 _].
  exists (Qfloor (40 + r3 * 160)). split; [exact Hbase|].
  assert (Hrange := baseUsers_range Hr3). lia.
Qed.

(** X4. On draws from the unit interval, the active users of a series
    start at the seeded count and move by at most 6 from one point to the
    next. *)
Theorem activeUsers_steps (now : Date) (days : Z) (t : list Q)
    (p : Seed) (tr : list (Running * SeriesPoint)) (r : list Q) :
  valid t ->
  generateTrace LocalTZA now days t = Some ((p, tr), r) ->
  Described.chain (fun a c => a - 6 <= c /\ c <= a + 6) (baseUsers p)
    (map (fun sp => activeUsers (snd sp)) tr).
Proof.
  intros Hv H. destruct (generateTrace_inv _ _ _ _ H) as (t1 & Hseed & Hloop).
  assert (Hv1 := reads_valid (reads_seed _ _ _) Hv Hseed).
  destruct (seed_base_whole now days t p t1 Hv Hseed) as (b & Hb & Hr).
  destruct (users_bounds_whole p b Hb Hr) as (lo & hi & Elo & Ehi & _ & Hlo & Hhi & _).
  refine (proj1 (loop_users p b Hb Hr _ _ _ _ _ _ b _ _ _ Hv1 Hloop)); cbn [users].
  - exact Hb.
  - rewrite Elo, Hb. rewrite <- Zle_Qle. exact Hlo.
  - rewrite Ehi, Hb. rewrite <- Zle_Qle. exact Hhi.
Qed.

(** X5. On draws from the unit interval, every point of a series carries
    whole numbers: a balance that is not negative and between 24 and 279
    active users. *)
Theorem points_whole_numbers (now : Date) (days : Z) (t : list Q)
    (data : list SeriesPoint) (r : list Q) :
  valid t ->
  generateTradingSeries LocalTZA now days t = Some (data, r) ->
  Forall (fun pt => exists bal u : Z,
            totalBalance pt = inject_Z bal /\ (0 <= bal)%Z /\
            activeUsers pt = inject_Z u /\ (24 <= u <= 279)%Z) data.
Proof.
  intros Hv H. destruct (generateTradingSeries_trace _ _ _ _ H) as (p & tr & Htr & ->).
  destruct (generateTrace_inv _ _ _ _ Htr) as (t1 & Hseed & Hloop).
  assert (Hv1 := reads_valid (reads_seed _ _ _) Hv Hseed).
  destruct (seed_base_whole now days t p t1 Hv Hseed) as (b & Hb & Hr).
  destruct (users_bounds_whole p b Hb Hr) as (lo & hi & Elo & Ehi & _ & Hlo & Hhi & _).
  assert (Husers :
            Forall (fun sp => exists u : Z,
                      activeUsers (snd sp) = inject_Z u /\ (24 <= u <= 279)%Z) tr).
  { refine (proj2 (loop_users p b Hb Hr _ _ _ _ _ _ b _ _ _ Hv1 Hloop)); cbn [users].
    - exact Hb.
    - rewrite Elo, Hb. rewrite <- Zle_Qle. exact Hlo.
    - rewrite Ehi, Hb. rewrite <- Zle_Qle. exact Hhi. }
  assert (Hbal :
            Forall (fun sp => exists bal : Z,
                      totalBalance (snd sp) = inject_Z bal /\ (0 <= bal)%Z) tr).
  { refine (loop_Forall LocalTZA p (Pt := fun _ => True) (fun _ => True) _ _ _ _ _ _ _ Hloop);
      [| apply Forall_forall; trivial | trivial].
    intros i s t' sp r' _ _ Hbody. split; [trivial|].
    destruct (loop_body_inv _ _ _ _ _ Hbody)
      as (v & ? & shock & ? & noise & ? & us & ? & u
          & _ & _ & _ & _ & _ & _ & Hb' & _ & _ & Htot & _).
    exists (Qfloor (balance (fst sp) + (1 # 2))). split; [exact Htot|].
    assert (Hn : 0 <= Math_round (balance (fst sp))).
    { apply Math_round_nonneg. rewrite Hb'. apply Math_max_spec. }
    unfold Math_round in Hn. change 0 with (inject_Z 0) in Hn.
    rewrite <- Zle_Qle in Hn. exact Hn. }
  apply Forall_map. rewrite Forall_forall in *. intros sp Hin.
  destruct (Husers sp Hin) as (u & Hu & Hur). destruct (Hbal sp Hin) as (bal & Hbl & Hb0).
  exists bal, u. auto.
Qed.

End GeneratorUsers.

(** ** [shiftDays] and [toISODate] on their own *)

Section DateHelpers.

Import JS JSDate Calendar Rand Chart.
Open Scope Z_scope.
Context {M : MathLib}.
Variable LocalTZA : JSDate.Zone.

Lemma TimeClip_out_of_range t :
  8640000000000000 < Z.abs t -> TimeClip t = None.
Proof.
  intro H. unfold TimeClip.
  destruct (Z.ltb_spec 8640000000000000 (Z.abs t)); [reflexivity | lia].
Qed.

Lemma shiftDays_invalid k : shiftDays LocalTZA None k = None.
Proof. reflexivity. Qed.


(** X7. A series whose first day lies beyond the range of [Date] has no
    date at all: every point, the last one too, is dated
    [NaN-NaN-NaN]. *)
Theorem series_dates_invalid (t0 days : Z) (t : list Q)
    (data : list SeriesPoint) (r : list Q) :
  8640000000000000
    < Z.abs (UTC LocalTZA (LocalTime LocalTZA t0 - (days - 1) * msPerDay)) ->
  generateTradingSeries LocalTZA (Some t0) days t = Some (data, r) ->
  Forall (fun pt => date pt = "NaN-NaN-NaN"%string) data.
Proof.
  intros Hout Hrun.
  destruct (generateTradingSeries_shape _ _ _ _ Hrun) as [_ Hdates].
  unfold series_dates in Hdates.
  rewrite shiftDays_local in Hdates.
  replace (LocalTime LocalTZA t0 + - (days - 1) * msPerDay)
    with (LocalTime LocalTZA t0 - (days - 1) * msPerDay) in Hdates by lia.
  rewrite (TimeClip_out_of_range _ Hout) in Hdates.
  apply Forall_forall. intros pt Hin.
  assert (Hd : In (date pt) (map date data)) by (apply in_map; exact Hin).
  rewrite Hdates in Hd. apply in_map_iff in Hd. destruct Hd as (k & Hk & _).
  rewrite <- Hk. reflexivity.
Qed.

Lemma parse_iso_length s c : parse_iso s = Some c -> String.length s = 10%nat.
Proof.
  unfold parse_iso.
  destruct (digits 4 0 s) as [[y s1]|] eqn:D1; [|discriminate].
  destruct (dash s1) as [s2|] eqn:E1; [|discriminate].
  destruct (digits 2 0 s2) as [[m s3]|] eqn:D2; [|discriminate].
  destruct (dash s3) as [s4|] eqn:E2; [|discriminate].
  destruct (digits 2 0 s4) as [[d [|]]|] eqn:D3; try discriminate.
  intros _.
  assert (Hd : forall n acc s v rest,
             digits n acc s = Some (v, rest) ->
             String.length s = (n + String.length rest)%nat).
  { induction n as [|n IH]; intros acc s0 v rest H; simpl in H.
    - inversion H; subst. reflexivity.
    - destruct s0 as [|ch s0]; [discriminate|].
      destruct (digit_of_ascii ch); [|discriminate].
      simpl. f_equal. exact (IH _ _ _ _ H). }
  assert (Hdash : forall s s', dash s = Some s' -> String.length s = S (String.length s')).
  { intros s0 s' H. destruct s0 as [|ch s0]; [discriminate|]. simpl in H.
    destruct (Ascii.eqb_spec ch "-"%char) as [->|Hne].
    - inversion H; subst. reflexivity.
    - exfalso. destruct ch as [[] [] [] [] [] [] [] []]; try discriminate H.
      apply Hne. reflexivity. }
  rewrite (Hd _ _ _ _ _ D1), (Hdash _ _ E1), (Hd _ _ _ _ _ D2), (Hdash _ _ E2),
    (Hd _ _ _ _ _ D3). reflexivity.
Qed.

(** X8. For a date with a year of four digits, [toISODate] writes ten
    characters that read back as the year, the month (counted from 1)
    and the day of the month that the getters of the date return. *)
Theorem toISODate_reads_back (t y m d : Z) :
  getFullYear LocalTZA (Some t) = Some y ->
  getMonth LocalTZA (Some t) = Some m ->
  getDate LocalTZA (Some t) = Some d ->
  1000 <= y <= 9999 ->
  parse_iso (toISODate LocalTZA (Some t)) = Some (y, m + 1, d) /\
  String.length (toISODate LocalTZA (Some t)) = 10%nat.
Proof.
  unfold getFullYear, getMonth, getDate, option_map.
  intros Hy Hm Hd Hr. inversion Hy; inversion Hm; inversion Hd; subst.
  assert (P := parse_toISODate LocalTZA t Hr).
  split; [exact P|]. exact (parse_iso_length _ _ P).
Qed.

Lemma civil_of_time_Day t t' : Day t = Day t' -> civil_of_time t = civil_of_time t'.
Proof.
  intro H.
  assert (Hy : YearFromTime t = YearFromTime t').
  { unfold YearFromTime. rewrite H. reflexivity. }
  assert (Hw : DayWithinYear t = DayWithinYear t').
  { unfold DayWithinYear. rewrite H, Hy. reflexivity. }
  assert (Hl : InLeapYear t = InLeapYear t').
  { unfold InLeapYear. rewrite Hy. reflexivity. }
  assert (Hm : MonthFromTime t = MonthFromTime t').
  { unfold MonthFromTime. rewrite Hw, Hl. reflexivity. }
  unfold civil_of_time, DateFromTime. rewrite Hy, Hm, Hw, Hl. reflexivity.
Qed.

Lemma toISODate_Day t t' :
  Day (LocalTime LocalTZA t) = Day (LocalTime LocalTZA t') ->
  toISODate LocalTZA (Some t) = toISODate LocalTZA (Some t').
Proof.
  intro H. apply civil_of_time_Day in H. unfold civil_of_time in H.
  inversion H as [[Hy Hm Hd]].
  unfold toISODate, getFullYear, getMonth, getDate, num_add, option_map.
  rewrite Hy, Hd. replace (MonthFromTime (LocalTime LocalTZA t))
    with (MonthFromTime (LocalTime LocalTZA t')) by lia.
  reflexivity.
Qed.

(** X9. Two dates with years of four digits are written the same by
    [toISODate] exactly when they fall on the same local day. *)
Theorem toISODate_same_day (t t' : Z) :
  1000 <= YearFromTime (LocalTime LocalTZA t) <= 9999 ->
  1000 <= YearFromTime (LocalTime LocalTZA t') <= 9999 ->
  (toISODate LocalTZA (Some t) = toISODate LocalTZA (Some t') <->
   Day (LocalTime LocalTZA t) = Day (LocalTime LocalTZA t')).
Proof.
  intros Hy Hy'. split; [|apply toISODate_Day].
  intro E.
  assert (P := parse_toISODate LocalTZA t Hy).
  assert (P' := parse_toISODate LocalTZA t' Hy').
  rewrite E, P' in P.
  set (a := LocalTime LocalTZA t) in *. set (b := LocalTime LocalTZA t') in *.
  assert (Hc : civil_of_time b = civil_of_time a) by congruence.
  destruct (Z.lt_trichotomy (Day a) (Day b)) as [Hlt|[Heq|Hgt]]; [|exact Heq|]; exfalso.
  - apply (civil_lt_irrefl (civil_of_time a)). rewrite <- Hc at 2.
    apply (civil_of_time_lt (Z.to_nat (Day b - Day a - 1))). lia.
  - apply (civil_lt_irrefl (civil_of_time a)). rewrite <- Hc at 1.
    apply (civil_of_time_lt (Z.to_nat (Day a - Day b - 1))). lia.
Qed.

End DateHelpers.

(** ** The change the chart reports *)

Section ChartChange.

Import JS JSDate Rand Chart ChartView.
Open Scope Q_scope.
Context {M : MathLib}.
Variable LocalTZA : JSDate.Zone.

Lemma series_balances (now : Date) (n : Z) (t : list Q)
    (data : list SeriesPoint) (r : list Q) :
  generateTradingSeries LocalTZA now n t = Some (data, r) ->
  Forall (fun pt => 0 <= totalBalance pt) data.
Proof.
  intro H. destruct (generateTradingSeries_trace _ _ _ _ H) as (p & tr & Htr & ->).
  destruct (generateTrace_inv _ _ _ _ Htr) as (t1 & _ & Hloop).
  apply Forall_map.
  refine (loop_Forall LocalTZA p (Pt := fun _ => True) (fun _ => True) _ _ _ _ _ _ _ Hloop);
    [| apply Forall_forall; trivial | trivial].
  intros i s t' sp r' _ _ Hb. split; [trivial|].
  destruct (loop_body_inv _ _ _ _ _ Hb)
    as (v & ? & shock & ? & noise & ? & us & ? & u
        & _ & _ & _ & _ & _ & _ & Hbal & _ & _ & Htot & _).
  rewrite Htot, Hbal. apply Math_round_nonneg. apply Math_max_spec.
Qed.

Lemma from_end_Some (chartData : list SeriesPoint) (k : nat) :
  (1 <= k <= List.length chartData)%nat ->
  exists pt, from_end chartData k = Some pt /\ In pt chartData.
Proof.
  intro H. unfold from_end.
  destruct (Nat.leb_spec k (List.length chartData)) as [_|]; [|lia].
  destruct (nth_error chartData (List.length chartData - k)) as [pt|] eqn:E.
  - exists pt. split; [reflexivity|]. exact (nth_error_In _ _ E).
  - apply nth_error_None in E. lia.
Qed.

Lemma from_end_None (chartData : list SeriesPoint) (k : nat) :
  (List.length chartData < k)%nat -> from_end chartData k = None.
Proof.
  intro H. unfold from_end.
  destruct (Nat.leb_spec k (List.length chartData)); [lia | reflexivity].
Qed.

(** The change in percent on balances that are not negative. *)
Lemma deltaPct_bounds (chartData : list SeriesPoint) :
  Forall (fun pt => 0 <= totalBalance pt) chartData ->
  -100 <= deltaPct chartData /\ (0 <= delta chartData <-> 0 <= deltaPct chartData).
Proof.
  intro Hall. rewrite Forall_forall in Hall.
  unfold deltaPct, delta.
  destruct (latest chartData) as [l|] eqn:El; [|split; [lra | split; intro; lra]].
  destruct (prev chartData) as [p|] eqn:Ep; [|split; [lra | split; intro; lra]].
  assert (Hl : 0 <= totalBalance l).
  { apply Hall. unfold latest, from_end in El.
    destruct (1 <=? List.length chartData)%nat; [|discriminate].
    exact (nth_error_In _ _ El). }
  destruct (Qlt_bool 0 (totalBalance p)) eqn:Epos.
  - apply Qlt_bool_iff in Epos.
    set (a := totalBalance l) in *. set (b := totalBalance p) in *.
    assert (E : (a - b) / b * 100 == (a / b) * 100 - 100) by (field; lra).
    assert (Hq : 0 <= a / b).
    { apply Qle_shift_div_l; [exact Epos | lra]. }
    split; [rewrite E; lra|]. split; intro H.
    + assert (0 <= (a - b) / b) by (apply Qle_shift_div_l; [exact Epos | lra]). lra.
    + destruct (Qlt_le_dec (a - b) 0) as [Hneg|]; [|assumption]. exfalso.
      assert ((a - b) / b < 0) by (apply Qlt_shift_div_r; [exact Epos | lra]). lra.
  - apply Qlt_bool_false in Epos.
    assert (Hp : 0 <= totalBalance p).
    { apply Hall. unfold prev, from_end in Ep.
      destruct (2 <=? List.length chartData)%nat; [|discriminate].
      exact (nth_error_In _ _ Ep). }
    split; [lra|]. split; intro; lra.
Qed.

(** X10. Whatever range is chosen, the series the chart draws has a last
    and a last but one point, and the change shown is the difference of
    their balances. *)
Theorem chart_change_defined (timeRange : TimeRange) (now : Date) (t : list Q)
    (chartData : list SeriesPoint) (r : list Q) :
  generateTradingSeries LocalTZA now (days timeRange) t = Some (chartData, r) ->
  exists l p,
    latest chartData = Some l /\ prev chartData = Some p /\
    delta chartData = totalBalance l - totalBalance p /\
    (3 <= List.length chartData <= 7)%nat.
Proof.
  intro H. destruct (generateTradingSeries_shape _ _ _ _ H) as [Hlen _].
  assert (Hn : (3 <= List.length chartData <= 7)%nat).
  { rewrite Hlen. destruct timeRange; cbn; lia. }
  destruct (from_end_Some chartData 1) as (l & El & _); [lia|].
  destruct (from_end_Some chartData 2) as (p & Ep & _); [lia|].
  exists l, p. unfold delta, latest, prev. rewrite El, Ep. auto.
Qed.

(** X11. For the series the chart draws, the change in percent is never
    below -100, and it is negative exactly when the change in balance
    is. *)
Theorem chart_deltaPct (now : Date) (n : Z) (t : list Q)
    (chartData : list SeriesPoint) (r : list Q) :
  generateTradingSeries LocalTZA now n t = Some (chartData, r) ->
  -100 <= deltaPct chartData /\
  (0 <= delta chartData <-> 0 <= deltaPct chartData).
Proof.
  intro H. apply deltaPct_bounds. exact (series_balances now n t chartData r H).
Qed.

(** X12. With fewer than two points, or a last but one balance of 0,
    there is nothing to compare with: the change in percent is 0, without
    a division. *)
Theorem deltaPct_nothing_to_compare (chartData : list SeriesPoint) :
  ((List.length chartData < 2)%nat ->
   delta chartData = 0 /\ deltaPct chartData = 0) /\
  (forall p, prev chartData = Some p -> totalBalance p <= 0 ->
             deltaPct chartData = 0).
Proof.
  split.
  - intro H. unfold deltaPct, delta, prev. rewrite (from_end_None chartData 2 H).
    destruct (latest chartData); split; reflexivity.
  - intros p Hp Hz. unfold deltaPct. rewrite Hp.
    destruct (latest chartData); [|reflexivity].
    apply Qlt_bool_false in Hz. rewrite Hz. reflexivity.
Qed.

End ChartChange.

(** ** [clamp] *)

Section ClampFacts.

Import JS Chart.
Open Scope Q_scope.

Lemma clamp_fixes n lo hi : lo <= n -> n <= hi -> clamp n lo hi == n.
Proof.
  intros H0 H1. rewrite clamp_Qmax.
  assert (Hmin := Q.min_spec hi n). assert (Hmax := Q.max_spec lo (Qmin hi n)).
  set (m := Qmin hi n) in *. set (y := Qmax lo m) in *.
  destruct Hmin as [[? ?]|[? ?]]; destruct Hmax as [[? ?]|[? ?]]; lra.
Qed.

Lemma clamp_mono n n' lo hi : n <= n' -> clamp n lo hi <= clamp n' lo hi.
Proof.
  intro H. rewrite !clamp_Qmax.
  apply Q.max_le_compat_l. apply Q.min_le_compat_l. exact H.
Qed.

Lemma clamp_crossed n lo hi : hi < lo -> clamp n lo hi = lo.
Proof.
  intro H. unfold clamp, Math_max.
  destruct (Qle_bool lo (Math_min hi n)) eqn:E; [|reflexivity].
  exfalso. apply Qle_bool_iff in E.
  assert (Hm := Math_min_spec hi n). lra.
Qed.

(** X13. [clamp n min max] lies between its bounds when they are in
    order, leaves a number within them as it is (so clamping twice is
    clamping once), keeps the order of numbers, and returns [min]
    whenever [max] is below [min]. *)
Theorem clamp_behaviour (n n' lo hi : Q) :
  (lo <= hi -> lo <= clamp n lo hi /\ clamp n lo hi <= hi) /\
  (lo <= n -> n <= hi -> clamp n lo hi == n) /\
  (lo <= hi -> clamp (clamp n lo hi) lo hi == clamp n lo hi) /\
  (n <= n' -> clamp n lo hi <= clamp n' lo hi) /\
  (hi < lo -> clamp n lo hi = lo).
Proof.
  split; [intro H; exact (clamp_bounds n H)|].
  split; [apply clamp_fixes|].
  split; [|split; [apply clamp_mono | apply clamp_crossed]].
  intro H. destruct (clamp_bounds n H). apply clamp_fixes; assumption.
Qed.

End ClampFacts.

(** ** The summary cards, tick after tick *)

Section CardsFacts.

Import JS Rand Cards CardsBounds.
Open Scope Q_scope.

Lemma cards_clamp n lo hi : Cards.clamp n lo hi = Chart.clamp n lo hi.
Proof. reflexivity. Qed.

Lemma jitterGroup_inv s key t s' r :
  jitterGroup s key t = Some (s', r) ->
  exists r1 r2 r3 r4 r5 r6 t6,
    t = r1 :: r2 :: r3 :: r4 :: r5 :: r6 :: t6 /\
    ((r6 < 0.06 /\ exists r7, t6 = r7 :: r /\
        activeBots s' =
          Chart.clamp (activeBots s + (if Qlt_bool 0.5 r7 then 1 else -1))
            (Math_max 1 (totalBots s - 2)) (totalBots s)) \/
     (0.06 <= r6 /\ r = t6 /\ activeBots s' = activeBots s)) /\
    totalBots s' = totalBots s /\
    pnlToday s' = pnlToday s +
      match key with
      | key_mm => (r1 - 0.5) * 180000
      | key_tf => (r1 - 0.45) * 320000
      | key_nt => (r1 - 0.55) * 420000
      end /\
    (exists j, winRate s' = Chart.clamp (winRate s + j) 35 80) /\
    (exists j, maxDrawdown s' = Chart.clamp (maxDrawdown s + j) 0.6 14) /\
    (exists j, fillRate s' = Chart.clamp (fillRate s + j) 45 99) /\
    (exists j, change24h s' = Chart.clamp (change24h s + j) (-25) 25) /\
    health s' =
      Chart.clamp
        (Math_round (fillRate s' * 0.45 + winRate s' * 0.35
                     + (100 - maxDrawdown s' * 6) * 0.2)) 0 100.
Proof.
  unfold jitterGroup. intro H. rand_inv.
  repeat match goal with
  | E : random _ = Some _ |- _ => apply random_Some in E; subst
  end.
  match goal with
  | E : (if Qlt_bool ?a ?b then _ else _) _ = Some _ |- _ =>
      destruct (Qlt_bool a b) eqn:Eb
  end.
  - apply Qlt_bool_iff in Eb. rand_inv.
    match goal with E : random _ = Some _ |- _ => apply random_Some in E; subst end.
    do 7 eexists. split; [reflexivity|]. split.
    + left. split; [exact Eb|]. eexists. split; reflexivity.
    + cbn. repeat split; try reflexivity; eexists; reflexivity.
  - apply Qlt_bool_false in Eb. rand_inv.
    do 7 eexists. split; [reflexivity|]. split.
    + right. auto.
    + cbn. repeat split; try reflexivity; eexists; reflexivity.
Qed.

Lemma health_idle (f w d : Q) :
  45 <= f -> f <= 99 -> 35 <= w -> w <= 80 -> 0.6 <= d -> d <= 14 ->
  exists k : Z,
    Chart.clamp (Math_round (f * 0.45 + w * 0.35 + (100 - d * 6) * 0.2)) 0 100
    = inject_Z k /\
    Math_round (f * 0.45 + w * 0.35 + (100 - d * 6) * 0.2) = inject_Z k /\
    (36 <= k <= 92)%Z.
Proof.
  intros. set (x := f * 0.45 + w * 0.35 + (100 - d * 6) * 0.2).
  assert (L : Math_round 35.7 <= Math_round x) by (apply Math_round_mono; unfold x; lra).
  assert (U : Math_round x <= Math_round 91.83) by (apply Math_round_mono; unfold x; lra).
  change (Math_round 35.7) with (inject_Z 36) in L.
  change (Math_round 91.83) with (inject_Z 92) in U.
  exists (Qfloor (x + (1 # 2))). fold (Math_round x).
  split; [|split; [reflexivity|]].
  - unfold Chart.clamp, Math_max, Math_min.
    assert (E1 : Qle_bool 100 (Math_round x) = false).
    { apply Qle_bool_false. change (inject_Z 92) with 92 in U. lra. }
    rewrite E1.
    assert (E2 : Qle_bool 0 (Math_round x) = true).
    { apply Qle_bool_iff. change (inject_Z 36) with 36 in L. lra. }
    rewrite E2. reflexivity.
  - unfold Math_round in L, U. rewrite <- Zle_Qle in L, U. lia.
Qed.

(** X14. Whatever the state and the draws, [jitterGroup] returns rates
    within their clamps (win rate 35 to 80, drawdown 0.6 to 14, fill rate
    45 to 99, change -25 to 25) and the number of bots it was given. *)
Theorem jitterGroup_rates (s : GroupStats) (key : BotGroupKey) (t : list Q)
    (s' : GroupStats) (r : list Q) :
  jitterGroup s key t = Some (s', r) ->
  (35 <= winRate s' /\ winRate s' <= 80) /\
  (0.6 <= maxDrawdown s' /\ maxDrawdown s' <= 14) /\
  (45 <= fillRate s' /\ fillRate s' <= 99) /\
  (-25 <= change24h s' /\ change24h s' <= 25) /\
  totalBots s' = totalBots s.
Proof.
  intro H.
  destruct (jitterGroup_inv s key t s' r H)
    as (r1 & r2 & r3 & r4 & r5 & r6 & t6 & _ & _ & Htot & _
        & (jw & Hw) & (jd & Hd) & (jf & Hf) & (jc & Hc) & _).
  rewrite Hw, Hd, Hf, Hc.
  repeat split; try exact Htot;
    match goal with
    | |- _ <= Chart.clamp ?n ?lo ?hi => apply (@clamp_bounds n lo hi); lra
    | |- Chart.clamp ?n ?lo ?hi <= _ => apply (@clamp_bounds n lo hi); lra
    end.
Qed.

(** X15. The health [jitterGroup] returns is a whole number between 36
    and 92, the rounded weighted sum itself: its clamp to 0..100 is never
    reached. *)
Theorem jitterGroup_health (s : GroupStats) (key : BotGroupKey) (t : list Q)
    (s' : GroupStats) (r : list Q) :
  jitterGroup s key t = Some (s', r) ->
  exists k : Z,
    health s' = inject_Z k /\ (36 <= k <= 92)%Z /\
    health s' =
      Math_round (fillRate s' * 0.45 + winRate s' * 0.35
                  + (100 - maxDrawdown s' * 6) * 0.2).
Proof.
  intro H.
  destruct (jitterGroup_inv s key t s' r H)
    as (r1 & r2 & r3 & r4 & r5 & r6 & t6 & _ & _ & _ & _
        & (jw & Hw) & (jd & Hd) & (jf & Hf) & _ & Hh).
  assert (Bw := @clamp_bounds (winRate s + jw) 35 80 ltac:(lra)).
  assert (Bd := @clamp_bounds (maxDrawdown s + jd) 0.6 14 ltac:(lra)).
  assert (Bf := @clamp_bounds (fillRate s + jf) 45 99 ltac:(lra)).
  rewrite <- Hw in Bw. rewrite <- Hd in Bd. rewrite <- Hf in Bf.
  destruct (health_idle (fillRate s') (winRate s') (maxDrawdown s'))
    as (k & Hk & Hr & Hrange); try tauto.
  exists k. rewrite Hh. split; [exact Hk|]. split; [exact Hrange|].
  rewrite Hk, Hr. reflexivity.
Qed.

End CardsFacts.

Section CardsSteps.

Import JS Rand Cards CardsBounds.
Open Scope Q_scope.

(** X16. With at least one bot and the active ones within their bounds,
    [jitterGroup] keeps them there and moves them by one at most; the
    number changes only when the sixth draw is below 0.06. *)
Theorem jitterGroup_activeBots (s : GroupStats) (key : BotGroupKey) (t : list Q)
    (s' : GroupStats) (r : list Q) :
  1 <= totalBots s ->
  Math_max 1 (totalBots s - 2) <= activeBots s ->
  activeBots s <= totalBots s ->
  jitterGroup s key t = Some (s', r) ->
  (Math_max 1 (totalBots s - 2) <= activeBots s' /\ activeBots s' <= totalBots s) /\
  (activeBots s - 1 <= activeBots s' /\ activeBots s' <= activeBots s + 1) /\
  (forall r6, nth_error t 5 = Some r6 -> 0.06 <= r6 -> activeBots s' = activeBots s).
Proof.
  intros Htot Hlo Hhi H.
  destruct (jitterGroup_inv s key t s' r H)
    as (r1 & r2 & r3 & r4 & r5 & r6 & t6 & -> & Hact & _).
  assert (Hord : Math_max 1 (totalBots s - 2) <= totalBots s).
  { destruct (Math_max_cases 1 (totalBots s - 2)) as [E|E]; rewrite E; lra. }
  destruct Hact as [(Hr6 & r7 & _ & ->)|(Hr6 & _ & ->)].
  - split; [exact (clamp_bounds _ Hord)|]. split.
    + apply clamp_near; try assumption; destruct (Qlt_bool 0.5 r7); lra.
    + intros x Hx Hge. cbn in Hx. inversion Hx; subst. lra.
  - split; [split; assumption|]. split; [split; lra|]. intros; reflexivity.
Qed.

Lemma jitterTPM_inv current t n r :
  jitterTPM current t = Some (n, r) ->
  exists r1 r2 t2 burst,
    t = r1 :: r2 :: t2 /\
    ((r2 < 0.12 /\ exists r3, t2 = r3 :: r /\ burst = 30 + r3 * 80) \/
     (0.12 <= r2 /\ r = t2 /\ burst = 0)) /\
    n = Math_round (Chart.clamp (current * 0.7 + (110 + r1 * 60 + burst) * 0.3) 40 420).
Proof.
  unfold jitterTPM. intro H. rand_inv.
  repeat match goal with
  | E : random _ = Some _ |- _ => apply random_Some in E; subst
  end.
  match goal with
  | E : (if Qlt_bool ?a ?b then _ else _) _ = Some _ |- _ =>
      destruct (Qlt_bool a b) eqn:Eb
  end.
  - apply Qlt_bool_iff in Eb. rand_inv.
    match goal with E : random _ = Some _ |- _ => apply random_Some in E; subst end.
    do 4 eexists. split; [reflexivity|]. split; [|reflexivity].
    left. split; [exact Eb|]. eexists. split; reflexivity.
  - apply Qlt_bool_false in Eb. rand_inv.
    do 4 eexists. split; [reflexivity|]. split; [|reflexivity].
    right. auto.
Qed.

Lemma Math_round_between (lo hi : Z) (x : Q) :
  inject_Z lo <= x -> x <= inject_Z hi ->
  exists k : Z, Math_round x = inject_Z k /\ (lo <= k <= hi)%Z.
Proof.
  intros H0 H1. exists (Qfloor (x + (1 # 2))). split; [reflexivity|].
  apply Math_round_mono in H0. apply Math_round_mono in H1.
  rewrite Math_round_Z in H0, H1. unfold Math_round in H0, H1.
  rewrite <- Zle_Qle in H0, H1. lia.
Qed.

(** X18. Whatever the current value and the draws, [jitterTPM] returns a
    whole number between 40 and 420. *)
Theorem jitterTPM_range (current : Q) (t : list Q) (n : Q) (r : list Q) :
  jitterTPM current t = Some (n, r) ->
  exists k : Z, n = inject_Z k /\ (40 <= k <= 420)%Z.
Proof.
  intro H. destruct (jitterTPM_inv current t n r H) as (r1 & r2 & t2 & burst & _ & _ & ->).
  apply Math_round_between;
    [change (inject_Z 40) with 40 | change (inject_Z 420) with 420];
    apply clamp_bounds; lra.
Qed.

(** X19. On draws from the unit interval, a rate of 110 to 280 trades a
    minute stays one: [jitterTPM] mixes it with a target in
    [[110, 280)]. *)
Theorem jitterTPM_band (current : Q) (t : list Q) (n : Q) (r : list Q) :
  valid t ->
  110 <= current -> current <= 280 ->
  jitterTPM current t = Some (n, r) ->
  110 <= n /\ n <= 280.
Proof.
  intros Hv H0 H1 H.
  destruct (jitterTPM_inv current t n r H) as (r1 & r2 & t2 & burst & -> & Hb & ->).
  apply valid_cons_inv in Hv. destruct Hv as [[Hr10 Hr11] Hv].
  apply valid_cons_inv in Hv. destruct Hv as [_ Hv].
  assert (Hburst : 0 <= burst /\ burst < 110).
  { destruct Hb as [(_ & r3 & -> & ->)|(_ & _ & ->)]; [|split; lra].
    apply valid_cons_inv in Hv. destruct Hv as [[? ?] _]. split; lra. }
  set (next := current * 0.7 + (110 + r1 * 60 + burst) * 0.3).
  assert (Hn : 110 <= next /\ next <= 280) by (unfold next; split; lra).
  assert (Hc := clamp_fixes next 40 420 ltac:(lra) ltac:(lra)).
  destruct (Math_round_between 110 280 (Chart.clamp next 40 420)) as (k & -> & Hk).
  - rewrite Hc. change (inject_Z 110) with 110. lra.
  - rewrite Hc. change (inject_Z 280) with 280. lra.
  - change 110 with (inject_Z 110). change 280 with (inject_Z 280).
    rewrite <- !Zle_Qle. exact Hk.
Qed.

End CardsSteps.

Section CardsTicks.

Import JS Rand Cards CardsBounds.
Open Scope Q_scope.

Lemma reads_jitterGroup s key : reads (jitterGroup s key).
Proof. unfold jitterGroup. reads_tac. Qed.

Lemma reads_jitterTPM current : reads (jitterTPM current).
Proof. unfold jitterTPM. reads_tac. Qed.

Lemma tick_inv s t s' r :
  tick s t = Some (s', r) ->
  exists t1 t2 t3 t4 u,
    jitterGroup (mm s) key_mm t = Some (mm s', t1) /\
    jitterGroup (tf s) key_tf t1 = Some (tf s', t2) /\
    jitterGroup (nt s) key_nt t2 = Some (nt s', t3) /\
    jitterTPM (tradesPerMin s) t3 = Some (tradesPerMin s', t4) /\
    t4 = u :: r /\
    tpmChange s' = Chart.clamp (tpmChange s + (u - 0.5) * 0.6) (-20) 20.
Proof.
  unfold tick. intro H. rand_inv.
  match goal with E : random _ = Some _ |- _ => apply random_Some in E; subst end.
  do 5 eexists. cbn. repeat (split; [eassumption || reflexivity|]). reflexivity.
Qed.

Lemma group_rates s key t s' r :
  jitterGroup s key t = Some (s', r) -> rates_in_range s'.
Proof.
  intro H.
  destruct (jitterGroup_inv s key t s' r H)
    as (r1 & r2 & r3 & r4 & r5 & r6 & t6 & _ & _ & _ & _
        & (jw & Hw) & (jd & Hd) & (jf & Hf) & (jc & Hc) & Hh).
  assert (Bw := @clamp_bounds (winRate s + jw) 35 80 ltac:(lra)).
  assert (Bd := @clamp_bounds (maxDrawdown s + jd) 0.6 14 ltac:(lra)).
  assert (Bf := @clamp_bounds (fillRate s + jf) 45 99 ltac:(lra)).
  assert (Bc := @clamp_bounds (change24h s + jc) (-25) 25 ltac:(lra)).
  rewrite <- Hw in Bw. rewrite <- Hd in Bd. rewrite <- Hf in Bf. rewrite <- Hc in Bc.
  destruct (health_idle (fillRate s') (winRate s') (maxDrawdown s'))
    as (k & Hk & _ & Hrange); try tauto.
  rewrite <- Hh in Hk.
  unfold rates_in_range. repeat split; try tauto; rewrite Hk.
  - change 36 with (inject_Z 36). rewrite <- Zle_Qle. lia.
  - change 92 with (inject_Z 92). rewrite <- Zle_Qle. lia.
Qed.

Lemma group_bots total s key t s' r :
  3 <= total -> bots_in_range total s ->
  jitterGroup s key t = Some (s', r) -> bots_in_range total s'.
Proof.
  intros Ht (Htot & Hlo & Hhi) H.
  destruct (jitterGroup_inv s key t s' r H)
    as (r1 & r2 & r3 & r4 & r5 & r6 & t6 & _ & Hact & Htot' & _).
  unfold bots_in_range. rewrite Htot', Htot. split; [reflexivity|].
  destruct Hact as [(_ & r7 & _ & ->)|(_ & _ & ->)]; [|split; assumption].
  rewrite Htot.
  assert (Hm : Math_max 1 (total - 2) == total - 2).
  { rewrite Math_max_Qmax. apply Q.max_r. lra. }
  assert (Hb := @clamp_bounds (activeBots s + (if Qlt_bool 0.5 r7 then 1 else -1))
                  (Math_max 1 (total - 2)) total ltac:(lra)).
  lra.
Qed.

Lemma steady_initial : steady makeInitial.
Proof.
  unfold steady, rates_in_range, bots_in_range, makeInitial.
  cbn [mm tf nt tradesPerMin tpmChange winRate maxDrawdown fillRate change24h
       health totalBots activeBots].
  repeat split; try reflexivity; lra.
Qed.

Lemma tick_steady s t s' r :
  valid t -> steady s -> tick s t = Some (s', r) -> steady s' /\ valid r.
Proof.
  intros Hv ((_ & Bmm) & (_ & Btf) & (_ & Bnt) & (T0 & T1) & _) H.
  destruct (tick_inv s t s' r H) as (t1 & t2 & t3 & t4 & u & Gm & Gt & Gn & Gp & -> & Hc).
  assert (Hv1 := reads_valid (reads_jitterGroup _ _) Hv Gm).
  assert (Hv2 := reads_valid (reads_jitterGroup _ _) Hv1 Gt).
  assert (Hv3 := reads_valid (reads_jitterGroup _ _) Hv2 Gn).
  assert (Hv4 := reads_valid (reads_jitterTPM _) Hv3 Gp).
  apply valid_cons_inv in Hv4. destruct Hv4 as [_ Hvr].
  split; [|exact Hvr]. unfold steady.
  split; [split; [exact (group_rates _ _ _ _ _ Gm)
                 | exact (group_bots 15 _ _ _ _ _ ltac:(lra) Bmm Gm)]|].
  split; [split; [exact (group_rates _ _ _ _ _ Gt)
                 | exact (group_bots 8 _ _ _ _ _ ltac:(lra) Btf Gt)]|].
  split; [split; [exact (group_rates _ _ _ _ _ Gn)
                 | exact (group_bots 8 _ _ _ _ _ ltac:(lra) Bnt Gn)]|].
  split.
  - destruct (jitterTPM_inv _ _ _ _ Gp) as (r1 & r2 & t2' & burst & Et & Hb & En).
    rewrite Et in Hv3.
    apply valid_cons_inv in Hv3. destruct Hv3 as [[Hr10 Hr11] Hv3].
    apply valid_cons_inv in Hv3. destruct Hv3 as [_ Hv3].
    assert (Hburst : 0 <= burst /\ burst < 110).
    { destruct Hb as [(_ & r3 & Et2 & ->)|(_ & _ & ->)]; [|split; lra].
      rewrite Et2 in Hv3. apply valid_cons_inv in Hv3. destruct Hv3 as [[? ?] _].
      split; lra. }
    set (next := tradesPerMin s * 0.7 + (110 + r1 * 60 + burst) * 0.3) in En.
    assert (Hn : 110 <= next /\ next <= 280) by (unfold next; split; lra).
    assert (Hcl := clamp_fixes next 40 420 ltac:(lra) ltac:(lra)).
    destruct (Math_round_between 110 280 (Chart.clamp next 40 420)) as (k & Ek & Hk).
    + rewrite Hcl. change (inject_Z 110) with 110. lra.
    + rewrite Hcl. change (inject_Z 280) with 280. lra.
    + rewrite En, Ek. change 110 with (inject_Z 110). change 280 with (inject_Z 280).
      rewrite <- !Zle_Qle. exact Hk.
  - rewrite Hc. apply clamp_bounds. lra.
Qed.

(** X20. On draws from the unit interval, the statistics stay steady
    however many ticks have passed since [makeInitial]: in every group
    two bots at most are idle and never more are active than there are,
    rates and health stay within their ranges, the trades a minute
    within 110 to 280 and their change within 20 either way; so the
    health bar of the trades card is between 28 and 70. *)
Theorem ticks_steady (n : nat) (t : list Q) (s : UiStats) (r : list Q) :
  valid t ->
  ticks n makeInitial t = Some (s, r) ->
  steady s /\ (28 <= tpm_health s /\ tpm_health s <= 70).
Proof.
  intros Hv H.
  assert (Hs : steady s).
  { assert (G : forall n s0 t0, valid t0 -> steady s0 ->
                ticks n s0 t0 = Some (s, r) -> steady s).
    { clear. induction n as [|n IH]; intros s0 t0 Hv Hs0 H; simpl ticks in H; rand_inv.
      - exact Hs0.
      - match goal with
        | E1 : tick _ _ = Some _, E2 : ticks _ _ _ = Some _ |- _ =>
            destruct (tick_steady _ _ _ _ Hv Hs0 E1) as [Hs1 Hv1];
            exact (IH _ _ Hv1 Hs1 E2)
        end. }
    exact (G n makeInitial t Hv steady_initial H). }
  split; [exact Hs|].
  destruct Hs as (_ & _ & _ & (T0 & T1) & _).
  unfold tpm_health. rewrite cards_clamp.
  assert (L : Math_round 27.5 <= Math_round (tradesPerMin s / 4)).
  { apply Math_round_mono. apply Qle_shift_div_l; lra. }
  assert (U : Math_round (tradesPerMin s / 4) <= Math_round 70).
  { apply Math_round_mono. apply Qle_shift_div_r; lra. }
  change (Math_round 27.5) with (inject_Z 28) in L.
  change (Math_round 70) with (inject_Z 70) in U.
  change (inject_Z 28) with 28 in L. change (inject_Z 70) with 70 in U.
  rewrite (clamp_fixes (Math_round (tradesPerMin s / 4)) 0 100) by lra.
  split; assumption.
Qed.

End CardsTicks.

(** ** Amounts and rates as text *)

Section TextFacts.

Import JS JSText Calendar.
Open Scope Q_scope.
Context {T : NumberText}.

Lemma Qfloor_eq (k : Z) (y : Q) :
  inject_Z k <= y -> y < inject_Z (k + 1) -> Qfloor y = k.
Proof.
  intros H0 H1. assert (L := Qfloor_le y). assert (U := Qlt_floor y).
  assert (A : inject_Z (Qfloor y) < inject_Z (k + 1)) by lra.
  assert (B : inject_Z k < inject_Z (Qfloor y + 1)) by lra.
  rewrite <- Zlt_Qlt in A, B. lia.
Qed.

(** [toFixed] of a number too small to show: all digits are 0. *)
Lemma toFixed_tiny (x : Q) (f : nat) :
  (f = 1 \/ f = 2)%nat ->
  0 <= x -> x * inject_Z (10 ^ Z.of_nat f) < 1 # 2 ->
  toFixed_finite x f = (if (f =? 1)%nat then "0.0" else "0.00")%string /\
  (x == 0 \/ toFixed_finite (- x) f = (if (f =? 1)%nat then "-0.0" else "-0.00")%string).
Proof.
  intros Hf H0 H1.
  assert (Hn : Qfloor (x * inject_Z (10 ^ Z.of_nat f) + (1 # 2)) = 0%Z).
  { apply Qfloor_eq.
    - change (inject_Z 0) with 0.
      assert (0 <= x * inject_Z (10 ^ Z.of_nat f)).
      { apply Qmult_le_0_compat; [exact H0|].
        destruct Hf as [->| ->]; discriminate. }
      lra.
    - change (inject_Z (0 + 1)) with 1. lra. }
  assert (Hbig : Qle_bool (inject_Z (10 ^ 21)) x = false).
  { apply Qle_bool_false.
    assert (x < 1).
    { destruct Hf as [->| ->].
      - change (inject_Z (10 ^ Z.of_nat 1)) with 10 in H1. lra.
      - change (inject_Z (10 ^ Z.of_nat 2)) with 100 in H1. lra. }
    change (inject_Z (10 ^ 21)) with 1000000000000000000000. lra. }
  split.
  - unfold toFixed_finite.
    assert (E : Qlt_bool x 0 = false) by (apply Qlt_bool_false; exact H0).
    rewrite E, Hbig. cbv zeta. rewrite Hn.
    destruct Hf as [->| ->]; reflexivity.
  - destruct (Qlt_le_dec 0 x) as [Hpos|Hz]; [right | left; lra].
    unfold toFixed_finite.
    assert (E : Qlt_bool (- x) 0 = true) by (apply Qlt_bool_iff; lra).
    rewrite E.
    assert (Ex : - - x = x).
    { destruct x as [xn xd]. unfold Qopp. cbn. rewrite Z.opp_involutive. reflexivity. }
    rewrite Ex, Hbig. cbv zeta. rewrite Hn.
    destruct Hf as [->| ->]; reflexivity.
Qed.

(** X21. A rate below 0.05 in size is shown as [0.0%], and as [-0.0%]
    when it is negative. *)
Theorem formatPct_tiny (v : Q) :
  (0 <= v -> v < 0.05 -> CardsFormat.formatPct (Finite v) = "0.0%"%string) /\
  (-0.05 < v -> v < 0 -> CardsFormat.formatPct (Finite v) = "-0.0%"%string).
Proof.
  unfold CardsFormat.formatPct, toFixed. split; intros H0 H1.
  - destruct (toFixed_tiny v 1) as [E _]; [left; reflexivity | exact H0 | |].
    + change (inject_Z (10 ^ Z.of_nat 1)) with 10. lra.
    + rewrite E. reflexivity.
  - destruct (toFixed_tiny (- v) 1) as [_ [Hz|E]]; [left; reflexivity | lra | | lra |].
    + change (inject_Z (10 ^ Z.of_nat 1)) with 10. lra.
    + assert (Ev : - - v = v).
      { destruct v as [vn vd]. unfold Qopp. cbn. rewrite Z.opp_involutive. reflexivity. }
      rewrite Ev in E. rewrite E. reflexivity.
Qed.

Lemma Math_abs_opp (x : Q) : 0 < x -> Math_abs (- x) = x /\ Math_abs x = x.
Proof.
  intro H. unfold Math_abs.
  assert (E1 : Qlt_bool (- x) 0 = true) by (apply Qlt_bool_iff; lra).
  assert (E2 : Qlt_bool x 0 = false) by (apply Qlt_bool_false; lra).
  rewrite E1, E2. split; [|reflexivity].
  destruct x as [xn xd]. unfold Qopp. cbn. rewrite Z.opp_involutive. reflexivity.
Qed.

(** X22. In the summary cards a loss is written as the gain of the same
    size with a minus sign in front. *)
Theorem cards_formatVNDCompact_mirror (x : Q) :
  0 < x ->
  CardsFormat.formatVNDCompact (Finite (- x))
  = ("-" ++ CardsFormat.formatVNDCompact (Finite x))%string.
Proof.
  intro H. destruct (Math_abs_opp x H) as [Ea Eb].
  unfold CardsFormat.formatVNDCompact. rewrite Ea, Eb.
  assert (E1 : Qlt_bool (- x) 0 = true) by (apply Qlt_bool_iff; lra).
  assert (E2 : Qlt_bool x 0 = false) by (apply Qlt_bool_false; lra).
  rewrite E1, E2. cbv zeta.
  destruct (Qle_bool 1000000000 x); [reflexivity|].
  destruct (Qle_bool 1000000 x); [reflexivity|].
  destruct (Qle_bool 1000 x); reflexivity.
Qed.


(** X24. In the chart a whole number [k] of thousands, millions or
    billions, for [k] from 1 to 999, is written as [k] followed by [K],
    [M] or [B]: the two decimals [.00] are dropped. *)
Theorem chart_formatVNDCompact_units (k : Z) :
  (1 <= k <= 999)%Z ->
  ChartFormat.formatVNDCompact (Finite (inject_Z (k * 1000)))
  = (Number_toString (Some k) ++ "K ₫")%string /\
  ChartFormat.formatVNDCompact (Finite (inject_Z (k * 1000000)))
  = (Number_toString (Some k) ++ "M ₫")%string /\
  ChartFormat.formatVNDCompact (Finite (inject_Z (k * 1000000000)))
  = (Number_toString (Some k) ++ "B ₫")%string.
Proof.
  intro H.
  assert (C : range_check ChartFormat.chart_units_ok 1 999 = true)
    by (vm_compute; reflexivity).
  assert (E := range_check_spec _ _ _ C k ltac:(lia)). clear C.
  unfold ChartFormat.chart_units_ok in E.
  apply andb_true_iff in E. destruct E as [E E3].
  apply andb_true_iff in E. destruct E as [E1 E2].
  apply String.eqb_eq in E1, E2, E3. auto.
Qed.

Lemma round_half_even_lower (x : Q) (k : Z) :
  inject_Z k - (1 # 2) < x -> (k <= round_half_even x)%Z.
Proof.
  intro H. unfold round_half_even.
  assert (L := Qfloor_le x). assert (U := Qlt_floor x).
  set (f := Qfloor x) in *. rewrite inject_Z_plus in U. change (inject_Z 1) with 1 in U.
  assert (Hk : (k <= f + 1)%Z).
  { apply Z.lt_succ_r. rewrite Zlt_Qlt. unfold Z.succ. rewrite !inject_Z_plus.
    change (inject_Z 1) with 1. lra. }
  destruct (Qcompare_spec (x - inject_Z f) (1 # 2)) as [E|E|E]; [| |exact Hk].
  - assert ((k <= f)%Z); [|destruct (Z.even f); lia].
    apply Z.lt_succ_r. rewrite Zlt_Qlt. unfold Z.succ. rewrite inject_Z_plus.
    change (inject_Z 1) with 1. lra.
  - apply Z.lt_succ_r. rewrite Zlt_Qlt. unfold Z.succ. rewrite inject_Z_plus.
    change (inject_Z 1) with 1. lra.
Qed.

Lemma round_half_even_upper (x : Q) (k : Z) :
  x < inject_Z k + (1 # 2) -> (round_half_even x <= k)%Z.
Proof.
  intro H. unfold round_half_even.
  assert (L := Qfloor_le x). assert (U := Qlt_floor x).
  set (f := Qfloor x) in *. rewrite inject_Z_plus in U. change (inject_Z 1) with 1 in U.
  assert (Hk : (f <= k)%Z).
  { apply Z.lt_succ_r. rewrite Zlt_Qlt. unfold Z.succ. rewrite inject_Z_plus.
    change (inject_Z 1) with 1. lra. }
  destruct (Qcompare_spec (x - inject_Z f) (1 # 2)) as [E|E|E]; [|exact Hk|].
  - assert ((f + 1 <= k)%Z); [|destruct (Z.even f); lia].
    apply Z.lt_succ_r. rewrite Zlt_Qlt. unfold Z.succ. rewrite !inject_Z_plus.
    change (inject_Z 1) with 1. lra.
  - apply Z.lt_succ_r. rewrite Zlt_Qlt. unfold Z.succ. rewrite !inject_Z_plus.
    change (inject_Z 1) with 1. lra.
Qed.

Lemma binade_of (k : Z) (x : Q) :
  (0 <= k)%Z -> inject_Z (2 ^ k) <= x -> x < inject_Z (2 ^ (k + 1)) -> binade x = k.
Proof.
  intros Hk H0 H1. unfold binade.
  destruct x as [n d]. cbn [Qnum Qden].
  assert (Hn : (2 ^ k * Zpos d <= n)%Z).
  { unfold Qle in H0. cbn in H0. lia. }
  assert (Hn' : (n < 2 ^ (k + 1) * Zpos d)%Z).
  { unfold Qlt in H1. cbn in H1. lia. }
  assert (Hpk : (0 < 2 ^ k)%Z) by (apply Z.pow_pos_nonneg; lia).
  assert (Hnpos : (0 < n)%Z) by nia.
  destruct (Z.log2_spec n Hnpos) as [A0 A1].
  destruct (Z.log2_spec (Zpos d) ltac:(lia)) as [B0 B1].
  assert (Ha := Z.log2_nonneg n). assert (Hb := Z.log2_nonneg (Zpos d)).
  set (a := Z.log2 n) in *. set (b := Z.log2 (Zpos d)) in *.
  assert (Hlo : (k <= a - b)%Z).
  { assert ((2 ^ (k + b) < 2 ^ (a + 1))%Z).
    { rewrite Z.pow_add_r by lia. unfold Z.succ in *. nia. }
    apply Z.pow_lt_mono_r_iff in H; lia. }
  assert (Hhi : (a - b <= k + 1)%Z).
  { assert ((2 ^ a < 2 ^ (k + 1 + (b + 1)))%Z).
    { rewrite (Z.pow_add_r 2 (k + 1) (b + 1)) by lia. unfold Z.succ in *.
      assert ((0 < 2 ^ (k + 1))%Z) by (apply Z.pow_pos_nonneg; lia). nia. }
    apply Z.pow_lt_mono_r_iff in H; lia. }
  assert (Hcase : (a - b = k \/ a - b = k + 1)%Z) by lia.
  destruct Hcase as [-> | ->].
  - unfold pow2. destruct (Z.leb_spec 0 k); [|lia].
    replace (Qle_bool (inject_Z (2 ^ k)) (n # d)) with true; [reflexivity|].
    symmetry. apply Qle_bool_iff. exact H0.
  - unfold pow2. destruct (Z.leb_spec 0 (k + 1)); [|lia].
    replace (Qle_bool (inject_Z (2 ^ (k + 1))) (n # d)) with false; [lia|].
    symmetry. apply not_true_is_false. intro E. apply Qle_bool_iff in E. lra.
Qed.

(** A quotient just below 1000 is rounded to a double that is not below
    999.995. *)
Lemma round53_near_1000 (x : Q) :
  999.995 <= x -> x < 1000 -> 999.995 <= round53 x /\ round53 x <= 1000.
Proof.
  intros H0 H1. unfold round53.
  assert (E0 : Qeq_bool x 0 = false).
  { apply not_true_is_false. intro E. apply Qeq_bool_eq in E. lra. }
  assert (Es : Qlt_bool x 0 = false).
  { unfold Qlt_bool. apply negb_false_iff, Qle_bool_iff. lra. }
  unfold Math_abs. rewrite E0, Es. cbv zeta.
  rewrite (binade_of 9 x); [|lia| |].
  2:{ change (inject_Z (2 ^ 9)) with 512. lra. }
  2:{ change (inject_Z (2 ^ (9 + 1))) with 1024. lra. }
  change (Z.max (9 - 52) (-1074)) with (-43)%Z.
  change (pow2 (-43)) with (1 # 8796093022208).
  set (m := round_half_even (x / (1 # 8796093022208))).
  assert (Hlo : (8796049041742889 <= m)%Z).
  { apply round_half_even_lower.
    change (inject_Z 8796049041742889) with 8796049041742889. 
    unfold Qdiv. change (/ (1 # 8796093022208)) with 8796093022208. lra. }
  assert (Hhi : (m <= 8796093022208000)%Z).
  { apply round_half_even_upper.
    change (inject_Z 8796093022208000) with 8796093022208000.
    unfold Qdiv. change (/ (1 # 8796093022208)) with 8796093022208. lra. }
  rewrite Zle_Qle in Hlo, Hhi.
  change (inject_Z 8796049041742889) with 8796049041742889 in Hlo.
  change (inject_Z 8796093022208000) with 8796093022208000 in Hhi.
  split; lra.
Qed.

Lemma toFixed_1000 (x : Q) :
  999.995 <= x -> x <= 1000 -> toFixed_finite x 2 = "1000.00"%string.
Proof.
  intros H0 H1. unfold toFixed_finite.
  assert (E : Qlt_bool x 0 = false) by (apply Qlt_bool_false; lra).
  assert (Hbig : Qle_bool (inject_Z (10 ^ 21)) x = false).
  { apply Qle_bool_false.
    change (inject_Z (10 ^ 21)) with 1000000000000000000000. lra. }
  assert (Hn : Qfloor (x * inject_Z (10 ^ Z.of_nat 2) + (1 # 2)) = 100000%Z).
  { apply Qfloor_eq.
    - change (inject_Z 100000) with 100000.
      change (inject_Z (10 ^ Z.of_nat 2)) with 100. lra.
    - change (inject_Z (100000 + 1)) with 100001.
      change (inject_Z (10 ^ Z.of_nat 2)) with 100. lra. }
  rewrite E, Hbig. cbv zeta. rewrite Hn. reflexivity.
Qed.

(** The quotient is rounded before its digits are taken: 1005 / 1000 is
    a double just below 1.005, shown as 1.00 and then as 1. *)
Example chart_amount_1005 :
  ChartFormat.formatVNDCompact (T := SampleRuns.text) (Finite 1005) = "1K ₫"%string.
Proof. vm_compute. reflexivity. Qed.

Lemma toFixed_div_1000 (num unit : Q) :
  0 < unit -> 999.995 * unit <= num -> num < 1000 * unit ->
  toFixed_finite (Number_div num unit) 2 = "1000.00"%string.
Proof.
  intros Hu H0 H1. unfold Number_div.
  destruct (round53_near_1000 (num / unit)) as [L U].
  - apply Qle_shift_div_l; [exact Hu | lra].
  - apply Qlt_shift_div_r; [exact Hu | lra].
  - apply toFixed_1000; assumption.
Qed.

(** X25. In the chart an amount within 5 of the next thousand times
    1000, or within 5000 of the next million times 1000, is rounded up
    inside its own unit: it reads [1000K] or [1000M], not [1M] or
    [1B]. *)
Theorem chart_formatVNDCompact_rollover (num : Q) :
  (999995 <= num -> num < 1000000 ->
   ChartFormat.formatVNDCompact (Finite num) = "1000K ₫"%string) /\
  (999995000 <= num -> num < 1000000000 ->
   ChartFormat.formatVNDCompact (Finite num) = "1000M ₫"%string).
Proof.
  unfold ChartFormat.formatVNDCompact, ChartFormat.toNumber. cbv zeta.
  split; intros H0 H1.
  - assert (E1 : Qle_bool 1000000000 num = false) by (apply Qle_bool_false; lra).
    assert (E2 : Qle_bool 1000000 num = false) by (apply Qle_bool_false; lra).
    assert (E3 : Qle_bool 1000 num = true) by (apply Qle_bool_iff; lra).
    rewrite E1, E2, E3.
    rewrite (toFixed_div_1000 num 1000); [reflexivity | lra | lra | lra].
  - assert (E1 : Qle_bool 1000000000 num = false) by (apply Qle_bool_false; lra).
    assert (E2 : Qle_bool 1000000 num = true) by (apply Qle_bool_iff; lra).
    rewrite E1, E2.
    rewrite (toFixed_div_1000 num 1000000); [reflexivity | lra | lra | lra].
Qed.

End TextFacts.

(** ** The further properties at sample runs *)

Section MoreSamples.

Import JS JSDate Rand SampleRuns.
Open Scope Q_scope.

Let group3 : Cards.GroupStats := result (Cards.mm Cards.makeInitial) group_run.
Let stats2 : Cards.UiStats := result Cards.makeInitial ticks_run.
Let early3 : list Chart.SeriesPoint := result [] early_run.


Lemma shock_draw_range_witness :
  exists u, hd_error shock_tape = Some u /\
    (result 0 shock_run == 0 <-> 0.12 <= u) /\
    (result 0 shock_run == 0 \/
     (0.008 <= result 0 shock_run /\ result 0 shock_run < 0.028) \/
     (-0.028 < result 0 shock_run /\ result 0 shock_run <= -0.008)).
Proof.
  apply (shock_draw_range shock_tape (result 0 shock_run) (leftover shock_run)).
  - apply valid_check. vm_compute. reflexivity.
  - vm_compute. reflexivity.
Defined.

Lemma user_shock_range_witness :
  (0.018 == 0 -> result 0 user_shock_run = 0 /\ leftover user_shock_run = [0.25; 0.9]) /\
  (0 < 0.018 -> 1 <= result 0 user_shock_run /\ result 0 user_shock_run <= 3) /\
  (0.018 < 0 -> -3 <= result 0 user_shock_run /\ result 0 user_shock_run <= -1).
Proof.
  apply (user_shock_range 0.018 [0.25; 0.9] (result 0 user_shock_run)
           (leftover user_shock_run)).
  - apply valid_check. vm_compute. reflexivity.
  - vm_compute. reflexivity.
Defined.

Lemma activeUsers_steps_witness :
  Described.chain (fun a c => a - 6 <= c /\ c <= a + 6)
    (Chart.baseUsers Sample.seed3)
    (map (fun sp => Chart.activeUsers (snd sp)) Sample.turns3).
Proof.
  apply (activeUsers_steps (M := Sample.math) Sample.utc Sample.noon_2025_06_15 3
           Sample.tape Sample.seed3 Sample.turns3 Sample.rest3).
  - apply valid_check. vm_compute. reflexivity.
  - vm_compute. reflexivity.
Defined.

Lemma points_whole_numbers_witness :
  Forall (fun pt => exists bal u : Z,
            Chart.totalBalance pt = inject_Z bal /\ (0 <= bal)%Z /\
            Chart.activeUsers pt = inject_Z u /\ (24 <= u <= 279)%Z)
    Sample.series3.
Proof.
  apply (points_whole_numbers (M := Sample.math) Sample.utc Sample.noon_2025_06_15 3
           Sample.tape Sample.series3 Sample.rest3).
  - apply valid_check. vm_compute. reflexivity.
  - vm_compute. reflexivity.
Defined.


Lemma series_dates_invalid_witness :
  Forall (fun pt => Chart.date pt = "NaN-NaN-NaN"%string) early3.
Proof.
  apply (series_dates_invalid (M := Sample.math) Sample.utc earliest 3 Sample.tape early3
           (leftover early_run)).
  - vm_compute. reflexivity.
  - vm_compute. reflexivity.
Defined.

Lemma toISODate_reads_back_witness :
  Calendar.parse_iso (Chart.toISODate Sample.east7 (Some 1750010400000%Z))
  = Some (2025, 5 + 1, 16)%Z /\
  String.length (Chart.toISODate Sample.east7 (Some 1750010400000%Z)) = 10%nat.
Proof.
  apply (toISODate_reads_back Sample.east7 1750010400000 2025 5 16).
  - vm_compute. reflexivity.
  - vm_compute. reflexivity.
  - vm_compute. reflexivity.
  - split; discriminate.
Defined.

Lemma toISODate_same_day_witness :
  Chart.toISODate Sample.utc (Some 1749988800000%Z)
  = Chart.toISODate Sample.utc (Some 1750010400000%Z) <->
  Day (LocalTime Sample.utc 1749988800000) = Day (LocalTime Sample.utc 1750010400000).
Proof.
  apply (toISODate_same_day Sample.utc 1749988800000 1750010400000);
    split; vm_compute; discriminate.
Defined.

Lemma chart_change_defined_witness :
  exists l p,
    ChartView.latest Sample.series3 = Some l /\
    ChartView.prev Sample.series3 = Some p /\
    ChartView.delta Sample.series3 = Chart.totalBalance l - Chart.totalBalance p /\
    (3 <= List.length Sample.series3 <= 7)%nat.
Proof.
  apply (chart_change_defined (M := Sample.math) Sample.utc ChartView.range_3d
           Sample.noon_2025_06_15 Sample.tape Sample.series3 Sample.rest3).
  vm_compute. reflexivity.
Defined.

Lemma chart_deltaPct_witness :
  -100 <= ChartView.deltaPct Sample.series3 /\
  (0 <= ChartView.delta Sample.series3 <-> 0 <= ChartView.deltaPct Sample.series3).
Proof.
  apply (chart_deltaPct (M := Sample.math) Sample.utc Sample.noon_2025_06_15 3
           Sample.tape Sample.series3 Sample.rest3).
  vm_compute. reflexivity.
Defined.

Lemma jitterGroup_rates_witness :
  (35 <= Cards.winRate group3 /\ Cards.winRate group3 <= 80) /\
  (0.6 <= Cards.maxDrawdown group3 /\ Cards.maxDrawdown group3 <= 14) /\
  (45 <= Cards.fillRate group3 /\ Cards.fillRate group3 <= 99) /\
  (-25 <= Cards.change24h group3 /\ Cards.change24h group3 <= 25) /\
  Cards.totalBots group3 = Cards.totalBots (Cards.mm Cards.makeInitial).
Proof.
  apply (jitterGroup_rates (Cards.mm Cards.makeInitial) Cards.key_mm group_tape
           group3 (leftover group_run)).
  vm_compute. reflexivity.
Defined.

Lemma jitterGroup_health_witness :
  exists k : Z,
    Cards.health group3 = inject_Z k /\ (36 <= k <= 92)%Z /\
    Cards.health group3 =
      Math_round (Cards.fillRate group3 * 0.45 + Cards.winRate group3 * 0.35
                  + (100 - Cards.maxDrawdown group3 * 6) * 0.2).
Proof.
  apply (jitterGroup_health (Cards.mm Cards.makeInitial) Cards.key_mm group_tape
           group3 (leftover group_run)).
  vm_compute. reflexivity.
Defined.

Lemma jitterGroup_activeBots_witness :
  (Math_max 1 (15 - 2) <= Cards.activeBots group3 /\ Cards.activeBots group3 <= 15) /\
  (14 - 1 <= Cards.activeBots group3 /\ Cards.activeBots group3 <= 14 + 1) /\
  (forall r6, nth_error group_tape 5 = Some r6 -> 0.06 <= r6 ->
              Cards.activeBots group3 = 14).
Proof.
  apply (jitterGroup_activeBots (Cards.mm Cards.makeInitial) Cards.key_mm group_tape
           group3 (leftover group_run)).
  - vm_compute. discriminate.
  - vm_compute. discriminate.
  - vm_compute. discriminate.
  - vm_compute. reflexivity.
Defined.

Lemma jitterTPM_range_witness :
  exists k : Z, result 0 tpm_run = inject_Z k /\ (40 <= k <= 420)%Z.
Proof.
  apply (jitterTPM_range 128 Sample.tape (result 0 tpm_run) (leftover tpm_run)).
  vm_compute. reflexivity.
Defined.

Lemma jitterTPM_band_witness :
  110 <= result 0 tpm_run /\ result 0 tpm_run <= 280.
Proof.
  apply (jitterTPM_band 128 Sample.tape (result 0 tpm_run) (leftover tpm_run)).
  - apply valid_check. vm_compute. reflexivity.
  - vm_compute. discriminate.
  - vm_compute. discriminate.
  - vm_compute. reflexivity.
Defined.

Lemma ticks_steady_witness :
  CardsBounds.steady stats2 /\
  (28 <= Cards.tpm_health stats2 /\ Cards.tpm_health stats2 <= 70).
Proof.
  apply (ticks_steady 2 Sample.tape stats2 (leftover ticks_run)).
  - apply valid_check. vm_compute. reflexivity.
  - vm_compute. reflexivity.
Defined.

Lemma cards_formatVNDCompact_mirror_witness :
  CardsFormat.formatVNDCompact (T := text) (JSText.Finite (- 1450000))
  = ("-" ++ CardsFormat.formatVNDCompact (T := text) (JSText.Finite 1450000))%string.
Proof.
  apply (cards_formatVNDCompact_mirror (T := text) 1450000). reflexivity.
Defined.

Lemma chart_formatVNDCompact_units_witness :
  ChartFormat.formatVNDCompact (T := text) (JSText.Finite (inject_Z (250 * 1000)))
  = "250K ₫"%string /\
  ChartFormat.formatVNDCompact (T := text) (JSText.Finite (inject_Z (250 * 1000000)))
  = "250M ₫"%string /\
  ChartFormat.formatVNDCompact (T := text) (JSText.Finite (inject_Z (250 * 1000000000)))
  = "250B ₫"%string.
Proof.
  apply (chart_formatVNDCompact_units (T := text) 250). split; discriminate.
Defined.

Lemma deltaPct_nothing_to_compare_witness :
  ChartView.delta [] = 0 /\ ChartView.deltaPct [] = 0.
Proof.
  destruct (deltaPct_nothing_to_compare []) as [H _]. apply H. cbn. lia.
Defined.

Lemma clamp_behaviour_witness :
  0.003 <= Chart.clamp 0.05 0.003 0.03 /\ Chart.clamp 0.05 0.003 0.03 <= 0.03.
Proof.
  destruct (clamp_behaviour 0.05 0.06 0.003 0.03) as [H _]. apply H. lra.
Defined.

Lemma formatPct_tiny_witness :
  CardsFormat.formatPct (T := text) (JSText.Finite (-0.04)) = "-0.0%"%string.
Proof.
  destruct (formatPct_tiny (T := text) (-0.04)) as [_ H]. apply H; lra.
Defined.


Lemma chart_formatVNDCompact_rollover_witness :
  ChartFormat.formatVNDCompact (T := text) (JSText.Finite 999996) = "1000K ₫"%string.
Proof.
  destruct (chart_formatVNDCompact_rollover (T := text) 999996) as [H _].
  apply H; lra.
Defined.

End MoreSamples.
